(** * pgdb: the DB-API 2.0 layer of PyGreSQL, embedded in Rocq

    Source: [src/module/pgdb.py].

    The module sits on top of the native [_pg] extension.  The native
    connection and its source objects are external collaborators: they
    are modelled as an oracle whose answer to each call may depend on
    the whole history of calls made so far, and every call is recorded,
    with the answer it got, in a trace.  Python objects that are mutated
    and shared (the [Connection], its type cache, the module global
    [Decimal]) live in an explicit world that is threaded through a
    state-and-exception monad; an exception leaves the mutations made
    before it in place, as in Python. *)

From Stdlib Require Import ZArith Bool List Lia.
From Stdlib Require Import Floats.SpecFloat Strings.Ascii.
From stdpp Require Import base option list gmap strings pretty.

Import ListNotations.
Local Set Warnings "-register-all".
Set Default Proof Using "Type".
Local Open Scope string_scope.
Local Open Scope list_scope.
Local Open Scope Z_scope.

(** ** Exceptions *)

(** Modelled from the spec: the exception classes are declared by the
    native module [_pg] ([from _pg import *]); section 7 of the
    specification gives the taxonomy.  [Builtin] stands for any other
    subclass of Python's [Exception] ([TypeError], [KeyError], ...). *)
Inductive exn_class : Type :=
  | Error
  | Warning
  | InterfaceError
  | DatabaseError
  | DataError
  | OperationalError
  | IntegrityError
  | InternalError
  | ProgrammingError
  | NotSupportedError
  | Builtin (name : string).

Record exn : Type := mk_exn {
  exn_cls : exn_class;
  exn_msg : string;            (* str(err) *)
  sqlstate : option string
}.

(** [isinstance(err, DatabaseError)] *)
Definition is_DatabaseError (e : exn) : bool :=
  match exn_cls e with
  | DatabaseError | DataError | OperationalError | IntegrityError
  | InternalError | ProgrammingError | NotSupportedError => true
  | _ => false
  end.

(** [isinstance(err, Error)] *)
Definition is_Error (e : exn) : bool :=
  match exn_cls e with
  | Builtin _ => false
  | _ => true
  end.

(** [isinstance(err, OperationalError)] *)
Definition is_OperationalError (e : exn) : bool :=
  match exn_cls e with
  | OperationalError => true
  | _ => false
  end.

(** [def _db_error(msg, cls=DatabaseError)] *)
Definition _db_error (msg : string) (cls : exn_class) : exn :=
  {| exn_cls := cls; exn_msg := msg; sqlstate := None |}.

(** [def _op_error(msg)] *)
Definition _op_error (msg : string) : exn :=
  _db_error msg OperationalError.

(** An exception raised by the interpreter or a builtin. *)
Definition builtin_error (name msg : string) : exn :=
  {| exn_cls := Builtin name; exn_msg := msg; sqlstate := None |}.

(** ** Results and the state-and-exception monad *)

Inductive result (A : Type) : Type :=
  | Ok (a : A)
  | Raise (e : exn).
Arguments Ok {A} a.
Arguments Raise {A} e.

Definition is_ok {A} (r : result A) : bool :=
  match r with Ok _ => true | Raise _ => false end.

(** A computation over a mutable state [S]: it always hands back the
    state, also when it raises. *)
Definition M (S A : Type) : Type := S -> result A * S.

Definition ret {S A} (a : A) : M S A := fun s => (Ok a, s).

Definition raise {S A} (e : exn) : M S A := fun s => (Raise e, s).

Definition bind {S A B} (m : M S A) (k : A -> M S B) : M S B :=
  fun s =>
    match m s with
    | (Ok a, s') => k a s'
    | (Raise e, s') => (Raise e, s')
    end.

Declare Scope py_scope.
Delimit Scope py_scope with py.
Notation "'let*' x ':=' m 'in' k" := (bind m (fun x => k))
  (at level 10, x name, m at level 100, k at level 200) : py_scope.
Notation "m1 ';;;' m2" := (bind m1 (fun _ => m2))
  (at level 100, m2 at level 200, right associativity) : py_scope.
Local Open Scope py_scope.

Definition gets {S A} (f : S -> A) : M S A := fun s => (Ok (f s), s).

Definition modify {S} (f : S -> S) : M S unit := fun s => (Ok tt, f s).

(** Turn the outcome of a pure (builtin) operation into a computation. *)
Definition lift_result {S A} (r : result A) : M S A := fun s => (r, s).

(** Run a computation on the second component of a pair of states. *)
Definition lift {T S A} (m : M S A) : M (T * S) A :=
  fun ts => let (r, s') := m (snd ts) in (r, (fst ts, s')).

(** [try: m except Exception as e: h e] *)
Definition try_except {S A} (m : M S A) (h : exn -> M S A) : M S A :=
  fun s =>
    match m s with
    | (Ok a, s') => (Ok a, s')
    | (Raise e, s') => h e s'
    end.

(** [for x in l: body x] *)
Fixpoint for_each {S A} (l : list A) (body : A -> M S unit) : M S unit :=
  match l with
  | [] => ret tt
  | x :: l' => body x ;;; for_each l' body
  end.

(** [[f x for x in l]] with an effectful [f] *)
Fixpoint map_m {S A B} (f : A -> M S B) (l : list A) : M S (list B) :=
  match l with
  | [] => ret []
  | x :: l' => let* y := f x in let* ys := map_m f l' in ret (y :: ys)
  end.

(** ** Python values *)

(** Values that can reach the quoting code as parameters, by the
    classes [_quote] tells apart with [isinstance]; text and the bytes
    of Python 3 take the same branch but are rendered differently. *)
Inductive pyval : Type :=
  | PyNone
  | PyBool (b : bool)                 (* bool, a subclass of int *)
  | PyInt (z : Z)                     (* int, long *)
  | PyFloat (f : spec_float)          (* float, an IEEE 754 double *)
  | PyText (s : string)               (* str, and unicode on Python 2 *)
  | PyBinary (b : string)             (* pgdb.Binary *)
  | PyBytes (b : string)              (* bytes of Python 3, other than
                                         Binary; escaping gives bytes again *)
  | PyDateTime (s : string)           (* datetime, date, time, timedelta;
                                         [s] is what str() gives *)
  | PyDecimal (d : string)            (* decimal.Decimal; [d] is str() *)
  | PyList (l : list pyval)
  | PyTuple (l : list pyval)
  | PyObject (cls : string) (pg_repr : option (pyval + exn)).
      (* an instance of any other class [cls]; [pg_repr] is [Some r]
         when it has a [__pg_repr__] method, whose call gives [r] *)

(** The class bound to the module global [Decimal]; [decimal_type]
    rebinds it. *)
Inductive decimal_binding : Type :=
  | DecimalStd                        (* decimal.Decimal, the default *)
  | DecimalFloat                      (* float *)
  | DecimalClass (cls : string).      (* another class *)

(** [Decimal is not float and isinstance(val, Decimal)] *)
Definition is_Decimal (D : decimal_binding) (val : pyval) : bool :=
  match D, val with
  | DecimalStd, PyDecimal _ => true
  | DecimalClass c, PyObject c' _ => String.eqb c c'
  | _, _ => false
  end.

(** A parameter set handed to [execute]: a dict or any other value
    (None, a tuple, a list, ...). *)
Inductive paramset : Type :=
  | MapParams (d : gmap string pyval)
  | ValParams (v : pyval).

(** One piece of a [%] template whose right operand is a mapping: a
    literal run; a conversion of the value stored under a key; a
    conversion without a key, for which the mapping as a whole is the
    argument and is rendered from the entries it holds, with no item
    lookup (['%s' % {'x': 1}] is [{'x': 1}]); or a conversion that
    raises (a malformed one, a second one without a key, ...). *)
Inductive fmt_piece : Type :=
  | FmtLit (s : string)
  | FmtKey (key : string) (render : pyval -> result string)
  | FmtMapping (render : gmap string pyval -> result string)
  | FmtError (e : exn).

(** Builtins of the Python runtime the module relies on.  They are not
    part of the module, so they are parameters of the model. *)
Record Builtins : Type := {
  (* float(text); None stands for ValueError *)
  float_of_text : string -> option spec_float;
  (* int(text), long(text) *)
  int_of_text : string -> result Z;
  (* Decimal(text) for the class bound to Decimal *)
  decimal_of_text : decimal_binding -> string -> result pyval;
  (* _pg.unescape_bytea *)
  unescape_bytea : string -> result string;
  (* str() of a value that is neither text nor an integer *)
  str_other : pyval -> string;
  (* str(type(val)) *)
  type_name : pyval -> string;
  (* bool(val) and iter(val) for a value that is neither None nor a
     list nor a tuple *)
  truth_other : pyval -> bool;
  iter_other : pyval -> result (list pyval);
  (* template % tuple *)
  format_tuple : string -> list pyval -> result string;
  (* template % mapping: the pieces of the template from left to
     right; a key is looked up in the mapping when its piece is
     reached *)
  format_scan : string -> list fmt_piece;
  (* [bytes is str], true on Python 2 only *)
  bytes_is_str : bool;
  (* the field names of namedtuple('Row', colnames, rename=True) *)
  namedtuple_fields : list string -> list string;
  (* repr(text), which is what str(KeyError(text)) gives *)
  repr_text : string -> string
}.

(** [str(val)] *)
Definition py_str (B : Builtins) (val : pyval) : string :=
  match val with
  | PyText s | PyDateTime s | PyDecimal s => s
  | PyInt z => pretty z
  | PyBool b => if b then "True" else "False"
  | PyNone => "None"
  | _ => str_other B val
  end.

(** [bool(val)], as used by [if parameters:] *)
Definition truthy (B : Builtins) (val : pyval) : bool :=
  match val with
  | PyNone => false
  | PyList l | PyTuple l => negb (bool_decide (l = []))
  | _ => truth_other B val
  end.

(** ** The native connection *)

(** A raw result row: one text per column, None for NULL. *)
Definition raw_row : Type := list (option string).

(** One call into the native layer, with the answer it got.  A source
    object is named by the position in the trace of the [cnx.source()]
    call that created it. *)
Inductive event : Type :=
  | ev_source (r : result unit)                          (* cnx.source() *)
  | ev_cnx_close (r : result unit)                       (* cnx.close() *)
  | ev_escape_string (s : string) (r : result string)    (* cnx.escape_string(s) *)
  | ev_escape_bytea (b : string) (r : result string)     (* cnx.escape_bytea(b) *)
  | ev_execute (src : nat) (sql : string) (r : result (option Z))
                                                         (* src.execute(sql) *)
  | ev_fetch (src : nat) (n : Z) (r : result (list raw_row))
                                                         (* src.fetch(n) *)
  | ev_resulttype (src : nat) (r : result Z)             (* src.resulttype *)
  | ev_ntuples (src : nat) (r : result Z)                (* src.ntuples *)
  | ev_listinfo (src : nat) (r : result (list (Z * string * Z)))
                                                         (* src.listinfo() *)
  | ev_oidstatus (src : nat) (r : result (option Z))     (* src.oidstatus() *)
  | ev_src_close (src : nat) (r : result unit).          (* src.close() *)

(** The native layer: what each call answers after a given history. *)
Record Native : Type := {
  nat_source : list event -> result unit;
  nat_cnx_close : list event -> result unit;
  nat_escape_string : list event -> string -> result string;
  nat_escape_bytea : list event -> string -> result string;
  nat_execute : list event -> nat -> string -> result (option Z);
  nat_fetch : list event -> nat -> Z -> result (list raw_row);
  nat_resulttype : list event -> nat -> result Z;
  nat_ntuples : list event -> nat -> result Z;
  nat_listinfo : list event -> nat -> result (list (Z * string * Z));
  nat_oidstatus : list event -> nat -> result (option Z);
  nat_src_close : list event -> nat -> result unit;
  (* the constant _pg.RESULT_DQL *)
  RESULT_DQL : Z
}.

(** ** The objects of the module *)

(** The value cached for a type oid by [TypeCache.getdescr]: the tuple
    [(typname, None, typlen, None, None, None)]. *)
Record type_descr : Type := {
  td_name : option string;
  td_display_size : option Z;
  td_internal_size : Z;
  td_precision : option Z;
  td_scale : option Z;
  td_null_ok : option bool
}.

(** [CursorDescription = namedtuple('CursorDescription', ...)] *)
Record CursorDescription : Type := {
  name : string;
  type_code : option string;
  display_size : option Z;
  internal_size : Z;
  precision : option Z;
  scale : option Z;
  null_ok : option bool
}.

(** [class TypeCache(dict)]: the dict itself and its [_src]. *)
Record TypeCache : Type := {
  cache_items : gmap Z type_descr;
  cache_src : nat
}.

(** A row factory: the one a cursor class defines, or one built by
    [build_row_factory] for some field names. *)
Inductive RowFactory : Type :=
  | ClassFactory                       (* the row_factory of the class *)
  | BuiltFactory (fields : list string).

(** What a cursor class fixes: whether it overrides [row_factory], and
    whether its [build_row_factory] call succeeds for given column
    names. *)
Record CursorType : Type := {
  overrides_row_factory : bool;
  build_row_factory_call : option (list string) -> result (option RowFactory)
}.

(** [class Cursor]; [connection], [_cnx] and [_type_cache] alias the
    objects of the world. *)
Record Cursor : Type := {
  _src : nat;
  description : option (list CursorDescription);
  colnames : option (list string);
  coltypes : option (list (option string));
  row_factory : option RowFactory;
  build_row_factory : bool;          (* false when set to None *)
  rowcount : Z;
  arraysize : Z;
  lastrowid : option Z
}.

(** The native connection object held in [Connection._cnx]. *)
Inductive pgcnx : Type := the_pgcnx.

(** [class Connection] *)
Record Connection : Type := {
  _cnx : option pgcnx;               (* None once closed *)
  _tnx : bool;
  _type_cache : TypeCache;
  cursor_type : CursorType
}.

(** Everything the methods of one connection and of its cursors share:
    the history of native calls, the module global [Decimal], and the
    [Connection] object. *)
Record World : Type := {
  trace : list event;
  Decimal : decimal_binding;
  dbcnx : Connection
}.

Definition set_trace (t : list event) (w : World) : World :=
  {| trace := t; Decimal := Decimal w; dbcnx := dbcnx w |}.

Definition set_Decimal (D : decimal_binding) (w : World) : World :=
  {| trace := trace w; Decimal := D; dbcnx := dbcnx w |}.

Definition set_dbcnx (c : Connection) (w : World) : World :=
  {| trace := trace w; Decimal := Decimal w; dbcnx := c |}.

Definition set_cnx (h : option pgcnx) (c : Connection) : Connection :=
  {| _cnx := h; _tnx := _tnx c; _type_cache := _type_cache c;
     cursor_type := cursor_type c |}.

Definition set_tnx (b : bool) (c : Connection) : Connection :=
  {| _cnx := _cnx c; _tnx := b; _type_cache := _type_cache c;
     cursor_type := cursor_type c |}.

Definition set_type_cache (tc : TypeCache) (c : Connection) : Connection :=
  {| _cnx := _cnx c; _tnx := _tnx c; _type_cache := tc;
     cursor_type := cursor_type c |}.

(** [self[oid] = res] on the type cache *)
Definition cache_store (oid : Z) (res : type_descr) (tc : TypeCache) : TypeCache :=
  {| cache_items := <[oid := res]> (cache_items tc); cache_src := cache_src tc |}.

Definition set_description (d : option (list CursorDescription)) (c : Cursor) : Cursor :=
  {| _src := _src c; description := d; colnames := colnames c;
     coltypes := coltypes c; row_factory := row_factory c;
     build_row_factory := build_row_factory c; rowcount := rowcount c;
     arraysize := arraysize c; lastrowid := lastrowid c |}.

Definition set_colnames (v : option (list string)) (c : Cursor) : Cursor :=
  {| _src := _src c; description := description c; colnames := v;
     coltypes := coltypes c; row_factory := row_factory c;
     build_row_factory := build_row_factory c; rowcount := rowcount c;
     arraysize := arraysize c; lastrowid := lastrowid c |}.

Definition set_coltypes (v : option (list (option string))) (c : Cursor) : Cursor :=
  {| _src := _src c; description := description c; colnames := colnames c;
     coltypes := v; row_factory := row_factory c;
     build_row_factory := build_row_factory c; rowcount := rowcount c;
     arraysize := arraysize c; lastrowid := lastrowid c |}.

Definition set_row_factory (v : option RowFactory) (c : Cursor) : Cursor :=
  {| _src := _src c; description := description c; colnames := colnames c;
     coltypes := coltypes c; row_factory := v;
     build_row_factory := build_row_factory c; rowcount := rowcount c;
     arraysize := arraysize c; lastrowid := lastrowid c |}.

Definition set_rowcount (v : Z) (c : Cursor) : Cursor :=
  {| _src := _src c; description := description c; colnames := colnames c;
     coltypes := coltypes c; row_factory := row_factory c;
     build_row_factory := build_row_factory c; rowcount := v;
     arraysize := arraysize c; lastrowid := lastrowid c |}.

Definition set_lastrowid (v : option Z) (c : Cursor) : Cursor :=
  {| _src := _src c; description := description c; colnames := colnames c;
     coltypes := coltypes c; row_factory := row_factory c;
     build_row_factory := build_row_factory c; rowcount := rowcount c;
     arraysize := arraysize c; lastrowid := v |}.

(** A call into the native layer: ask the oracle, record the event. *)
Definition call_native {A} (ask : list event -> result A)
    (ev : result A -> event) : M World A :=
  fun w => let r := ask (trace w) in (r, set_trace (trace w ++ [ev r]) w).

(** [cnx.source()]: the new source object is named by the position of
    this call in the trace. *)
Definition new_source (N : Native) : M World nat :=
  let* n := gets (fun w => length (trace w)) in
  call_native (nat_source N) ev_source ;;;
  ret n.

(** ** Internal types handling *)

(** Modelled from the spec: [_cast_float] uses the names [nan] and
    [inf], which pgdb.py does not define itself (they can only come
    from [from _pg import *]); section 4.1 of the specification maps the
    sentinels to IEEE NaN, +Inf and -Inf. *)
Definition nan : spec_float := S754_nan.
Definition inf : spec_float := S754_infinity false.

(** [math.isinf], [math.isnan] and [val < 0] on floats *)
Definition isinf (f : spec_float) : bool :=
  match f with S754_infinity _ => true | _ => false end.

Definition isnan (f : spec_float) : bool :=
  match f with S754_nan => true | _ => false end.

Definition float_lt_zero (f : spec_float) : bool :=
  SFltb f (S754_zero false).

(** [bytes.decode('ascii')] *)
Definition decode_ascii (b : string) : result string :=
  if forallb (fun c => (Ascii.N_of_ascii c <? 128)%N) (String.list_ascii_of_string b)
  then Ok b
  else Raise (builtin_error "UnicodeDecodeError" "ordinal not in range(128)").

Section Model.

Context (B : Builtins) (N : Native).

(** [def _cast_bool(value)] *)
Definition _cast_bool (value : string) : bool :=
  let head := String.substring 0 1 value in
  String.eqb head "t" || String.eqb head "T".

(** [def _cast_money(value)] *)
Definition _cast_money (D : decimal_binding) (value : string) : result pyval :=
  decimal_of_text B D
    (String.string_of_list_ascii
       (List.filter
          (fun v => bool_decide (v ∈ String.list_ascii_of_string "0123456789.-"))
          (String.list_ascii_of_string value))).

(** [def _cast_bytea(value)] *)
Definition _cast_bytea (value : string) : result pyval :=
  match unescape_bytea B value with
  | Ok b => Ok (PyText b)
  | Raise e => Raise e
  end.

(** [def _cast_float(value)] *)
Definition _cast_float (value : string) : result spec_float :=
  match float_of_text B value with
  | Some f => Ok f
  | None =>
      if String.eqb value "NaN" then Ok nan
      else if String.eqb value "Infinity" then Ok inf
      else if String.eqb value "-Infinity" then Ok (SFopp inf)
      else Raise (builtin_error "ValueError" "could not convert string to float")
  end.

Definition cast_int (value : string) : result pyval :=
  match int_of_text B value with
  | Ok z => Ok (PyInt z)
  | Raise e => Raise e
  end.

Definition cast_float (value : string) : result pyval :=
  match _cast_float value with
  | Ok f => Ok (PyFloat f)
  | Raise e => Raise e
  end.

(** The registry [_cast]; its ['numeric'] entry is always the class
    bound to [Decimal]. *)
Definition _cast (D : decimal_binding) (typ : string) : option (string -> result pyval) :=
  if String.eqb typ "bool" then Some (fun v => Ok (PyBool (_cast_bool v)))
  else if String.eqb typ "bytea" then Some _cast_bytea
  else if String.eqb typ "int2" || String.eqb typ "int4" || String.eqb typ "serial"
  then Some cast_int
  else if String.eqb typ "int8" || String.eqb typ "oid" || String.eqb typ "oid8"
  then Some cast_int
  else if String.eqb typ "float4" || String.eqb typ "float8" then Some cast_float
  else if String.eqb typ "numeric" then Some (decimal_of_text B D)
  else if String.eqb typ "money" then Some (_cast_money D)
  else None.

(** [TypeCache.typecast(typ, value)] *)
Definition typecast (D : decimal_binding) (typ : string) (value : option string)
    : result pyval :=
  match value with
  | None => Ok PyNone
  | Some text =>
      match _cast D typ with
      | None => Ok (PyText text)
      | Some cast => cast text
      end
  end.

(** [def decimal_type(decimal_type=None)] *)
Definition decimal_type (arg : option decimal_binding) : M World decimal_binding :=
  match arg with
  | Some D => modify (set_Decimal D)
  | None => ret tt
  end ;;;
  gets Decimal.

(** ** The type cache *)

Definition lookup_query (oid : Z) : string :=
  "SELECT typname, typlen FROM pg_type WHERE oid=" +:+ pretty oid.

(** [seq[i]] on a list, with Python's IndexError *)
Definition index {A} (l : list A) (i : nat) : result A :=
  match l !! i with
  | Some x => Ok x
  | None => Raise (builtin_error "IndexError" "list index out of range")
  end.

(** [int(res[1])] on a column value *)
Definition int_of_column (v : option string) : result Z :=
  match v with
  | Some text => int_of_text B text
  | None => Raise (builtin_error "TypeError" "int() argument must be a string or a number")
  end.

(** [TypeCache.getdescr(oid)] *)
Definition getdescr (oid : Z) : M World type_descr :=
  let* cache := gets (fun w => _type_cache (dbcnx w)) in
  match cache_items cache !! oid with
  | Some res => ret res
  | None =>
      call_native (fun t => nat_execute N t (cache_src cache) (lookup_query oid))
                  (ev_execute (cache_src cache) (lookup_query oid)) ;;;
      let* rows := call_native (fun t => nat_fetch N t (cache_src cache) 1)
                               (ev_fetch (cache_src cache) 1) in
      let* res := lift_result (index rows 0) in
      let* typname := lift_result (index res 0) in
      let* typlen := lift_result (index res 1) in
      let* len := lift_result (int_of_column typlen) in
      let res := {| td_name := typname; td_display_size := None;
                    td_internal_size := len; td_precision := None;
                    td_scale := None; td_null_ok := None |} in
      modify (fun w => set_dbcnx
                (set_type_cache (cache_store oid res (_type_cache (dbcnx w)))
                                (dbcnx w)) w) ;;;
      ret res
  end.

(** ** Quoting *)

(** [Cursor._quote(val)] *)
Fixpoint _quote (val : pyval) : M World pyval :=
  match val with
  | PyDateTime s | PyText s =>
      (* a date or time value is first replaced by str(val) *)
      let* val := call_native (fun t => nat_escape_string N t s)
                              (ev_escape_string s) in
      ret (PyText ("'" +:+ val +:+ "'"))
  | PyBinary b =>
      let* val := call_native (fun t => nat_escape_bytea N t b)
                              (ev_escape_bytea b) in
      let* val := if bytes_is_str B then ret val
                  else lift_result (decode_ascii val) in
      ret (PyText ("'" +:+ val +:+ "'"))
  | PyBytes b =>
      (* bytes are a basestring too; where bytes is not str, ['%s'] renders
         the escaped bytes by str(), which is their repr *)
      let* val := call_native (fun t => nat_escape_string N t b)
                              (ev_escape_string b) in
      ret (PyText ("'" +:+ (if bytes_is_str B then val
                            else str_other B (PyBytes val)) +:+ "'"))
  | PyBool _ | PyInt _ => ret val
  | PyFloat f =>
      if isinf f then
        ret (PyText (if float_lt_zero f then "'-Infinity'" else "'Infinity'"))
      else if isnan f then ret (PyText "'NaN'")
      else ret val
  | PyNone => ret (PyText "NULL")
  | PyList l | PyTuple l =>
      let* parts :=
        (fix quote_all (l : list pyval) : M World (list string) :=
           match l with
           | [] => ret []
           | v :: l' =>
               let* q := _quote v in
               let* qs := quote_all l' in
               ret (py_str B q :: qs)
           end) l in
      ret (PyText ("(" +:+ String.concat "," parts +:+ ")"))
  | PyDecimal _ | PyObject _ _ =>
      let* D := gets Decimal in
      if is_Decimal D val then ret val
      else
        match val with
        | PyObject _ (Some (inl repr)) => ret repr
        | PyObject _ (Some (inr err)) => raise err
        | _ =>
            raise {| exn_cls := InterfaceError;
                     exn_msg := "do not know how to handle type " +:+ type_name B val;
                     sqlstate := None |}
        end
  end.

(** [_quotedict.__getitem__(key)], with [quote] set to [_quote] *)
Definition quotedict_getitem (d : gmap string pyval) (key : string) : M World pyval :=
  match d !! key with
  | Some v => _quote v
  | None => raise (builtin_error "KeyError" (repr_text B key))
  end.

(** [string % parameters] for a [_quotedict] *)
Fixpoint format_mapping (d : gmap string pyval) (pieces : list fmt_piece)
    : M World string :=
  match pieces with
  | [] => ret EmptyString
  | FmtLit s :: rest =>
      let* tail := format_mapping d rest in ret (s +:+ tail)
  | FmtKey key render :: rest =>
      let* v := quotedict_getitem d key in
      let* s := lift_result (render v) in
      let* tail := format_mapping d rest in ret (s +:+ tail)
  | FmtMapping render :: rest =>
      let* s := lift_result (render d) in
      let* tail := format_mapping d rest in ret (s +:+ tail)
  | FmtError e :: _ => raise e
  end.

(** Iterating over a parameter sequence *)
Definition iterate (v : pyval) : result (list pyval) :=
  match v with
  | PyList l | PyTuple l => Ok l
  | _ => iter_other B v
  end.

(** [Cursor._quoteparams(string, parameters)] *)
Definition _quoteparams (template : string) (parameters : paramset) : M World string :=
  match parameters with
  | MapParams d => format_mapping d (format_scan B template)
  | ValParams v =>
      let* items := lift_result (iterate v) in
      let* quoted := map_m _quote items in
      lift_result (format_tuple B template quoted)
  end.

(** [bool(parameters)] *)
Definition params_truthy (parameters : paramset) : bool :=
  match parameters with
  | MapParams d => negb (bool_decide (d = ∅))
  | ValParams v => truthy B v
  end.

(** [self._cnx.source().execute(sql)] *)
Definition control_command (sql : string) : M World unit :=
  let* src := new_source N in
  call_native (fun t => nat_execute N t src sql) (ev_execute src sql) ;;;
  ret tt.

(** ** Cursor objects *)

(** The state a cursor method runs in: the cursor and the world. *)
Definition CState : Type := Cursor * World.

(** An attribute assignment [self.attr = v] *)
Definition self_set (f : Cursor -> Cursor) : M CState unit :=
  modify (fun s => (f (fst s), snd s)).

(** The local variables [sql] and [rowcount] of [executemany]. *)
Record Locals : Type := {
  local_sql : string;
  local_rowcount : Z
}.

Definition with_locals {S A} (l : Locals) (m : M (Locals * S) A) : M S A :=
  fun s => let (r, ls) := m (l, s) in (r, snd ls).

Definition local_set (f : Locals -> Locals) {S} : M (Locals * S) unit :=
  modify (fun s => (f (fst s), snd s)).

(** What a method gives back: the cursor itself or None. *)
Inductive returned : Type :=
  | ReturnsNone
  | ReturnsSelf.

(** [Cursor.build_row_factory()] of the base class *)
Definition default_build_row_factory (colnames : option (list string))
    : result (option RowFactory) :=
  match colnames with
  | Some (c :: cs) => Ok (Some (BuiltFactory (namedtuple_fields B (c :: cs))))
  | _ => Ok None
  end.

(** The class [Cursor] itself, as a cursor type. *)
Definition base_cursor_type : CursorType :=
  {| overrides_row_factory := false;
     build_row_factory_call := default_build_row_factory |}.

(** [Cursor.__init__(dbcnx)] *)
Definition Cursor_init : M World Cursor :=
  let* cnx := gets (fun w => _cnx (dbcnx w)) in
  match cnx with
  | None =>
      raise (builtin_error "AttributeError"
               "'NoneType' object has no attribute 'source'")
  | Some _ =>
      let* src := new_source N in
      let* static := gets (fun w => overrides_row_factory (cursor_type (dbcnx w))) in
      ret {| _src := src; description := None; colnames := None;
             coltypes := None;
             row_factory := if static then Some ClassFactory else None;
             build_row_factory := negb static;
             rowcount := -1; arraysize := 1; lastrowid := None |}
  end.

(** [if rows:] on what [src.execute] gave back *)
Definition rows_truthy (rows : option Z) : bool :=
  match rows with
  | Some n => negb (n =? 0)
  | None => false
  end.

(** The body of the [for parameters in seq_of_parameters] loop *)
Definition execute_one (operation : string) (parameters : paramset)
    : M (Locals * CState) unit :=
  let* sql := if params_truthy parameters
              then lift (lift (_quoteparams operation parameters))
              else ret operation in
  local_set (fun l => {| local_sql := sql; local_rowcount := local_rowcount l |}) ;;;
  let* src := gets (fun s => _src (fst (snd s))) in
  let* rows := lift (lift (call_native (fun t => nat_execute N t src sql)
                                       (ev_execute src sql))) in
  if rows_truthy rows then
    local_set (fun l => {| local_sql := local_sql l;
                           local_rowcount := local_rowcount l + default 0 rows |})
  else
    lift (self_set (set_rowcount (-1))).

(** The implicit [BEGIN] of [executemany] *)
Definition begin_transaction : M (Locals * CState) unit :=
  let* tnx := gets (fun s => _tnx (dbcnx (snd (snd s)))) in
  if negb tnx then
    try_except
      (let* sql := gets (fun s => local_sql (fst s)) in
       lift (lift (control_command sql)))
      (fun err =>
         if is_DatabaseError err then raise err
         else raise (_op_error "can't start transaction")) ;;;
    lift (lift (modify (fun w => set_dbcnx (set_tnx true (dbcnx w)) w)))
  else ret tt.

(** [CursorDescription(info[1], *getdescr(info[2]))] *)
Definition describe_column (info : Z * string * Z) : M World CursorDescription :=
  let* d := getdescr (snd info) in
  ret {| name := snd (fst info); type_code := td_name d;
         display_size := td_display_size d;
         internal_size := td_internal_size d;
         precision := td_precision d; scale := td_scale d;
         null_ok := td_null_ok d |}.

(** The [try] block of [executemany]: the implicit [BEGIN], then one
    statement per parameter set; the handlers read the local [sql] as
    it is when the exception arrives. *)
Definition run_statements (operation : string) (seq_of_parameters : list paramset)
    : M (Locals * CState) unit :=
  try_except
    (begin_transaction ;;;
     for_each seq_of_parameters (execute_one operation))
    (fun err =>
       let* sql := gets (fun s => local_sql (fst s)) in
       if is_DatabaseError err then raise err
       else if is_Error err then
         raise (_db_error ("error in '" +:+ sql +:+ "': '"
                           +:+ exn_msg err +:+ "' ") DatabaseError)
       else
         raise (_op_error ("internal error in '" +:+ sql +:+ "': "
                           +:+ exn_msg err))).

(** The end of [executemany] when the last statement returned rows:
    row count, description and row factory ([src] is the source object
    of the cursor). *)
Definition describe_rows (src : nat) : M (Locals * CState) unit :=
  let* ntuples := lift (lift (call_native (fun t => nat_ntuples N t src)
                                          (ev_ntuples src))) in
  lift (self_set (set_rowcount ntuples)) ;;;
  let* infos := lift (lift (call_native (fun t => nat_listinfo N t src)
                                        (ev_listinfo src))) in
  let* description := lift (lift (map_m describe_column infos)) in
  lift (self_set (set_colnames (Some (map name description)))) ;;;
  lift (self_set (set_coltypes (Some (map type_code description)))) ;;;
  lift (self_set (set_description (Some description))) ;;;
  lift (self_set (set_lastrowid None)) ;;;
  let* dynamic := gets (fun s => build_row_factory (fst (snd s))) in
  if dynamic then
    let* build := gets (fun s => build_row_factory_call
                                   (cursor_type (dbcnx (snd (snd s))))) in
    let* names := gets (fun s => colnames (fst (snd s))) in
    let* factory := lift_result (build names) in
    lift (self_set (set_row_factory factory))
  else ret tt.

(** The end of [executemany] otherwise: the accumulated row count and
    the oid of the last inserted row. *)
Definition count_rows (src : nat) : M (Locals * CState) unit :=
  let* rowcount := gets (fun s => local_rowcount (fst s)) in
  lift (self_set (set_rowcount rowcount)) ;;;
  let* oid := lift (lift (call_native (fun t => nat_oidstatus N t src)
                                      (ev_oidstatus src))) in
  lift (self_set (set_lastrowid oid)).

(** The end of [executemany]: [if self._src.resulttype == RESULT_DQL]. *)
Definition describe_result_of (src : nat) : M (Locals * CState) unit :=
  let* resulttype := lift (lift (call_native (fun t => nat_resulttype N t src)
                                             (ev_resulttype src))) in
  if resulttype =? RESULT_DQL N then describe_rows src else count_rows src.

Definition describe_result : M (Locals * CState) unit :=
  let* src := gets (fun s => _src (fst (snd s))) in
  describe_result_of src.

(** What [executemany] does first once it has something to run. *)
Definition reset_result (c : Cursor) : Cursor :=
  set_rowcount (-1) (set_coltypes None (set_colnames None (set_description None c))).

(** [Cursor.executemany(operation, seq_of_parameters)] *)
Definition executemany (operation : string) (seq_of_parameters : list paramset)
    : M CState returned :=
  match seq_of_parameters with
  | [] => ret ReturnsNone              (* don't do anything without parameters *)
  | _ :: _ =>
      self_set reset_result ;;;
      with_locals {| local_sql := "BEGIN"; local_rowcount := 0 |}
        (run_statements operation seq_of_parameters ;;;
         describe_result) ;;;
      ret ReturnsSelf
  end.

(** [Cursor.execute(operation, parameters=None)] *)
Definition execute (operation : string) (parameters : paramset) : M CState returned :=
  match parameters with
  | ValParams (PyList (PyTuple t :: rest)) =>
      (* a list of tuples: the deprecated multi-row form *)
      executemany operation (map ValParams (PyTuple t :: rest))
  | _ => executemany operation [parameters]
  end.

(** [Cursor.close()] *)
Definition Cursor_close : M CState unit :=
  let* src := gets (fun s => _src (fst s)) in
  lift (call_native (fun t => nat_src_close N t src) (ev_src_close src)) ;;;
  self_set (set_description None) ;;;
  self_set (set_colnames None) ;;;
  self_set (set_coltypes None) ;;;
  self_set (set_rowcount (-1)) ;;;
  self_set (set_lastrowid None).

(** ** Connection objects *)

(** [Connection.__init__(cnx)], run after the history [t] of native
    calls; the new object is the connection of a new world. *)
Definition Connection_init (t : list event) (D : decimal_binding)
    : result World * list event :=
  let r1 := nat_source N t in                 (* TypeCache(cnx) *)
  let t1 := t ++ [ev_source r1] in
  match r1 with
  | Raise e => (Raise e, t1)
  | Ok _ =>
      let r2 := nat_source N t1 in            (* self._cnx.source() *)
      let t2 := t1 ++ [ev_source r2] in
      match r2 with
      | Raise _ => (Raise (_op_error "invalid connection"), t2)
      | Ok _ =>
          (Ok {| trace := t2; Decimal := D;
                 dbcnx := {| _cnx := Some the_pgcnx; _tnx := false;
                             _type_cache := {| cache_items := ∅;
                                               cache_src := length t |};
                             cursor_type := base_cursor_type |} |}, t2)
      end
  end.

(** [Connection.rollback()] *)
Definition rollback : M World unit :=
  let* cnx := gets (fun w => _cnx (dbcnx w)) in
  match cnx with
  | Some _ =>
      let* tnx := gets (fun w => _tnx (dbcnx w)) in
      if tnx then
        modify (fun w => set_dbcnx (set_tnx false (dbcnx w)) w) ;;;
        try_except (control_command "ROLLBACK")
          (fun err =>
             if is_DatabaseError err then raise err
             else raise (_op_error "can't rollback"))
      else ret tt
  | None => raise (_op_error "connection has been closed")
  end.

(** [Connection.commit()] *)
Definition commit : M World unit :=
  let* cnx := gets (fun w => _cnx (dbcnx w)) in
  match cnx with
  | Some _ =>
      let* tnx := gets (fun w => _tnx (dbcnx w)) in
      if tnx then
        modify (fun w => set_dbcnx (set_tnx false (dbcnx w)) w) ;;;
        try_except (control_command "COMMIT")
          (fun err =>
             if is_DatabaseError err then raise err
             else raise (_op_error "can't commit"))
      else ret tt
  | None => raise (_op_error "connection has been closed")
  end.

(** [Connection.close()] *)
Definition Connection_close : M World unit :=
  let* cnx := gets (fun w => _cnx (dbcnx w)) in
  match cnx with
  | Some _ =>
      let* tnx := gets (fun w => _tnx (dbcnx w)) in
      (if tnx then
         try_except rollback
           (fun err => if is_DatabaseError err then ret tt else raise err)
       else ret tt) ;;;
      call_native (nat_cnx_close N) ev_cnx_close ;;;
      modify (fun w => set_dbcnx (set_cnx None (dbcnx w)) w)
  | None => raise (_op_error "connection has been closed")
  end.

(** [Connection.cursor()] *)
Definition cursor : M World Cursor :=
  let* cnx := gets (fun w => _cnx (dbcnx w)) in
  match cnx with
  | Some _ =>
      try_except Cursor_init
        (fun _ => raise (_op_error "invalid connection"))
  | None => raise (_op_error "connection has been closed")
  end.

End Model.

(** The source and the statement of an [execute] event. *)
Definition ev_execute_of (ev : event) : option (nat * string) :=
  match ev with
  | ev_execute src sql _ => Some (src, sql)
  | _ => None
  end.

(** ** Vocabulary of the properties *)

(** The events of [self._cnx.source().execute(sql)] after history [t],
    and its outcome. *)
Definition control_events (N : Native) (sql : string) (t : list event) : list event :=
  let r := nat_source N t in
  ev_source r ::
  match r with
  | Ok _ => [ev_execute (length t) sql
               (nat_execute N (t ++ [ev_source r]) (length t) sql)]
  | Raise _ => []
  end.

Definition control_result (N : Native) (sql : string) (t : list event) : result unit :=
  match nat_source N t with
  | Ok _ =>
      match nat_execute N (t ++ [ev_source (nat_source N t)]) (length t) sql with
      | Ok _ => Ok tt
      | Raise e => Raise e
      end
  | Raise e => Raise e
  end.

Global Arguments control_events : simpl never.
Global Arguments control_result : simpl never.

(** What [commit] and [rollback] raise when the native command fails
    with [err]. *)
Definition control_failure (msg : string) (err : exn) : exn :=
  if is_DatabaseError err then err else _op_error msg.

Definition end_transaction_result (N : Native) (sql msg : string) (t : list event)
    : result unit :=
  match control_result N sql t with
  | Ok _ => Ok tt
  | Raise err => Raise (control_failure msg err)
  end.

(** What [executemany] raises when running the statement [sql] fails
    with [err]. *)
Definition statement_failure (sql : string) (err : exn) : exn :=
  if is_DatabaseError err then err
  else if is_Error err then
    _db_error ("error in '" +:+ sql +:+ "': '" +:+ exn_msg err +:+ "' ") DatabaseError
  else _op_error ("internal error in '" +:+ sql +:+ "': " +:+ exn_msg err).

(** The implicit [BEGIN] of a statement call in world [w]: the events
    it leaves, whether a transaction is open afterwards, and the world
    the statements then run in. *)
Definition begin_events (N : Native) (w : World) : list event :=
  if _tnx (dbcnx w) then [] else control_events N "BEGIN" (trace w).

Definition began (N : Native) (w : World) : bool :=
  _tnx (dbcnx w) || is_ok (control_result N "BEGIN" (trace w)).

Definition after_begin (N : Native) (w : World) : World :=
  set_trace (trace w ++ begin_events N w)
    (set_dbcnx (set_tnx (began N w) (dbcnx w)) w).

(** The statements run on source objects created at or after position
    [base] of the trace: within a call that starts at [base], these are
    the transaction commands the module issues on its own. *)
Definition control_commands (base : nat) (evs : list event) : list string :=
  omap (fun ev => match ev with
                  | ev_execute src sql _ =>
                      if (base <=? src)%nat then Some sql else None
                  | _ => None
                  end) evs.

(** The same, leaving out the statements run on the source objects of
    the cursors given: with cursors created since position [base], a
    command of the module's own is one run on a source object that is
    no cursor's. *)
Definition own_commands (base : nat) (cursors : list Cursor) (evs : list event)
    : list string :=
  omap (fun ev => match ev with
                  | ev_execute src sql _ =>
                      if (base <=? src)%nat && negb (bool_decide (src ∈ _src <$> cursors))
                      then Some sql else None
                  | _ => None
                  end) evs.

(** The number of source objects created. *)
Definition sources_created (evs : list event) : nat :=
  length (List.filter (fun ev => match ev with ev_source _ => true | _ => false end) evs).

(** What the server answered to the statements run on source [src]. *)
Definition statement_replies (src : nat) (evs : list event) : list (result (option Z)) :=
  omap (fun ev => match ev with
                  | ev_execute s _ r => if (s =? src)%nat then Some r else None
                  | _ => None
                  end) evs.

(** The sum of the numeric affected-row counts among such answers. *)
Definition affected_rows (replies : list (result (option Z))) : Z :=
  foldr (fun r acc => match r with Ok (Some n) => n + acc | _ => acc end) 0 replies.

(** The catalog lookups for [oid] made on source [src]. *)
Definition lookups (src : nat) (oid : Z) (evs : list event) : nat :=
  length (List.filter
            (fun ev => bool_decide (ev_execute_of ev = Some (src, lookup_query oid)))
            evs).

(** A cursor of the connection of [w]: its source object and the one of
    the type cache were created earlier in the history of [w]. *)
Definition cursor_of (c : Cursor) (w : World) : Prop :=
  (_src c < length (trace w))%nat /\
  (cache_src (_type_cache (dbcnx w)) < length (trace w))%nat /\
  _src c <> cache_src (_type_cache (dbcnx w)).

(** Events by the part of the module that causes them. *)
Definition escape_event (ev : event) : Prop :=
  match ev with
  | ev_escape_string _ _ | ev_escape_bytea _ _ => True
  | _ => False
  end.

Definition statement_event (src : nat) (ev : event) : Prop :=
  match ev with
  | ev_escape_string _ _ | ev_escape_bytea _ _ => True
  | ev_execute s _ _ => s = src
  | _ => False
  end.

Definition lookup_event (cache : nat) (ev : event) : Prop :=
  match ev with
  | ev_execute s _ _ | ev_fetch s _ _ => s = cache
  | _ => False
  end.

Definition describe_event (src cache : nat) (ev : event) : Prop :=
  match ev with
  | ev_resulttype s _ | ev_ntuples s _ | ev_listinfo s _ | ev_oidstatus s _ => s = src
  | ev_execute s _ _ | ev_fetch s _ _ => s = cache
  | _ => False
  end.

(** From [w] to [w'] the trace has grown by events that satisfy [P],
    the type cache has lost nothing, and nothing else has changed. *)
Definition grows (P : event -> Prop) (w w' : World) : Prop :=
  Decimal w' = Decimal w /\
  _cnx (dbcnx w') = _cnx (dbcnx w) /\
  _tnx (dbcnx w') = _tnx (dbcnx w) /\
  cursor_type (dbcnx w') = cursor_type (dbcnx w) /\
  cache_src (_type_cache (dbcnx w')) = cache_src (_type_cache (dbcnx w)) /\
  cache_items (_type_cache (dbcnx w)) ⊆ cache_items (_type_cache (dbcnx w')) /\
  exists new, trace w' = trace w ++ new /\ Forall P new.

Definition frames {A} (P : event -> Prop) (m : M World A) : Prop :=
  forall w, grows P w (snd (m w)).

(** What a catalog lookup leaves in the trace: the query and, when it
    ran, the fetch of its row. *)
Definition lookup_events (N : Native) (cache : nat) (oid : Z) (t : list event)
    : list event :=
  let r := nat_execute N t cache (lookup_query oid) in
  ev_execute cache (lookup_query oid) r ::
  match r with
  | Ok _ => [ev_fetch cache 1
               (nat_fetch N (t ++ [ev_execute cache (lookup_query oid) r]) cache 1)]
  | Raise _ => []
  end.

(** The calls that run statements. *)
Inductive statement_call : Type :=
  | CallExecute (operation : string) (parameters : paramset)
  | CallExecutemany (operation : string) (seq_of_parameters : list paramset).

Definition run_call (B : Builtins) (N : Native) (call : statement_call)
    : M CState returned :=
  match call with
  | CallExecute operation parameters => execute B N operation parameters
  | CallExecutemany operation seq => executemany B N operation seq
  end.

(** What a caller may do on a connection short of ending a transaction:
    create a cursor, or make a statement call on one of the cursors it
    has, the [i]-th (a call on a cursor it does not have is no step at
    all).  The caller goes on when a step fails; a call changes the
    cursor it is made on. *)
Inductive connection_step : Type :=
  | NewCursor
  | OnCursor (i : nat) (call : statement_call).

Definition run_connection_step (B : Builtins) (N : Native) (step : connection_step)
    (s : list Cursor * World) : list Cursor * World :=
  match step with
  | NewCursor =>
      match cursor N (snd s) with
      | (Ok c, w') => (fst s ++ [c], w')
      | (Raise _, w') => (fst s, w')
      end
  | OnCursor i call =>
      match fst s !! i with
      | Some c =>
          let s' := snd (run_call B N call (c, snd s)) in
          (<[i := fst s']> (fst s), snd s')
      | None => s
      end
  end.

Fixpoint run_connection (B : Builtins) (N : Native) (steps : list connection_step)
    (s : list Cursor * World) : list Cursor * World :=
  match steps with
  | [] => s
  | step :: steps' => run_connection B N steps' (run_connection_step B N step s)
  end.

(** The number of [cursor()] calls among the steps. *)
Definition cursor_steps (steps : list connection_step) : nat :=
  length (List.filter (fun step => match step with
                                   | NewCursor => true
                                   | OnCursor _ _ => false
                                   end) steps).

(** A [commit] or [rollback] that gave [r] and left the world [w'] has
    raised [err] and left no transaction open: a [commit] or [rollback]
    right after it does nothing, and the next call that has a statement
    to run starts with the native calls of a [BEGIN]. *)
Definition left_idle (B : Builtins) (N : Native) (r : result unit) (w' : World)
    (err : exn) : Prop :=
  r = Raise err /\
  _tnx (dbcnx w') = false /\
  commit N w' = (Ok tt, w') /\
  rollback N w' = (Ok tt, w') /\
  forall call c,
    (forall operation, call <> CallExecutemany operation []) ->
    exists rest,
      trace (snd (snd (run_call B N call (c, w')))) =
        trace w' ++ control_events N "BEGIN" (trace w') ++ rest.

(** What can happen on a connection with one cursor after a type oid
    has been resolved: further resolutions, statement calls, commits and
    rollbacks; the caller goes on when one of them fails. *)
Inductive session_step : Type :=
  | Resolve (oid : Z)
  | Statement (call : statement_call)
  | Commit
  | Rollback.

Definition run_step (B : Builtins) (N : Native) (step : session_step)
    (s : CState) : CState :=
  match step with
  | Resolve oid => (fst s, snd (getdescr B N oid (snd s)))
  | Statement call => snd (run_call B N call s)
  | Commit => (fst s, snd (commit N (snd s)))
  | Rollback => (fst s, snd (rollback N (snd s)))
  end.

Fixpoint run_session (B : Builtins) (N : Native) (steps : list session_step)
    (s : CState) : CState :=
  match steps with
  | [] => s
  | step :: steps' => run_session B N steps' (run_step B N step s)
  end.

(** Events of a statement call other than the implicit [BEGIN]. *)
Definition session_event (src cache : nat) (ev : event) : Prop :=
  statement_event src ev \/ describe_event src cache ev.

(** The type cache of [w] has source [cache] and, when an entry is
    named, holds it. *)
Definition caches (cache : nat) (entry : option (Z * type_descr)) (w : World) : Prop :=
  cache_src (_type_cache (dbcnx w)) = cache /\
  match entry with
  | Some (oid, d) => cache_items (_type_cache (dbcnx w)) !! oid = Some d
  | None => True
  end.

(** [ev] is not a catalog lookup for the oid of the entry. *)
Definition not_lookup (cache : nat) (entry : option (Z * type_descr)) (ev : event) : Prop :=
  match entry with
  | Some (oid, _) => ev_execute_of ev <> Some (cache, lookup_query oid)
  | None => True
  end.

(** A cursor method run on a cursor with source [src], in a world that
    satisfies [I], keeps the source of the cursor and makes the world
    grow by [P]. *)
Definition frames3 {A} (src : nat) (I : World -> Prop) (P : event -> Prop)
    (m : M (Locals * CState) A) : Prop :=
  forall l c w,
    _src c = src -> I w ->
    _src (fst (snd (snd (m (l, (c, w)))))) = src /\
    grows P w (snd (snd (snd (m (l, (c, w)))))).

(** The value kinds [_quote] renders (their nesting in lists apart). *)
Definition supported_kind (D : decimal_binding) (val : pyval) : bool :=
  match val with
  | PyObject _ None => is_Decimal D val
  | _ => true
  end.

(** Python's [float] either rejects the spelling of a special value or
    reads it as that value. *)
Definition reads_specials (B : Builtins) : Prop :=
  (float_of_text B "NaN" = None \/ float_of_text B "NaN" = Some nan) /\
  (float_of_text B "Infinity" = None \/ float_of_text B "Infinity" = Some inf) /\
  (float_of_text B "-Infinity" = None \/
   float_of_text B "-Infinity" = Some (SFopp inf)).

(** ** A concrete runtime and a concrete server, for running the model *)

Module Demo.

Fixpoint digits_value (s : string) (acc : Z) : option Z :=
  match s with
  | EmptyString => Some acc
  | String c rest =>
      let n := Ascii.N_of_ascii c in
      if ((48 <=? n) && (n <=? 57))%N
      then digits_value rest (10 * acc + Z.of_N (n - 48))
      else None
  end.

(** An optional minus sign and at least one digit. *)
Definition int_literal (s : string) : option Z :=
  match s with
  | EmptyString => None
  | String "-"%char (String c rest) => Z.opp <$> digits_value (String c rest) 0
  | String "-"%char EmptyString => None
  | _ => digits_value s 0
  end.

(** [float(text)] as CPython 2.6 and later read it, restricted to the
    spellings of the special values and to integer literals, which are
    rounded to binary64. *)
Definition float_builtin (s : string) : option spec_float :=
  if bool_decide (s ∈ ["inf"; "Inf"; "infinity"; "Infinity"; "+inf"; "+Infinity"])
  then Some (S754_infinity false)
  else if bool_decide (s ∈ ["-inf"; "-Inf"; "-infinity"; "-Infinity"])
  then Some (S754_infinity true)
  else if bool_decide (s ∈ ["nan"; "NaN"; "-nan"; "+nan"])
  then Some S754_nan
  else (fun z => binary_normalize 53 1024 z 0 false) <$> int_literal s.

(** [float(text)] of an interpreter that reads numerals only, as some
    platforms did before Python 2.6. *)
Definition float_numerals_only (s : string) : option spec_float :=
  (fun z => binary_normalize 53 1024 z 0 false) <$> int_literal s.

Definition int_builtin (s : string) : result Z :=
  match int_literal s with
  | Some z => Ok z
  | None => Raise (builtin_error "ValueError" "invalid literal for int()")
  end.

Definition decimal_builtin (D : decimal_binding) (s : string) : result pyval :=
  match D with
  | DecimalStd => Ok (PyDecimal s)
  | DecimalFloat =>
      match float_builtin s with
      | Some f => Ok (PyFloat f)
      | None => Raise (builtin_error "ValueError" "could not convert string to float")
      end
  | DecimalClass c => Ok (PyObject c None)
  end.

(** [template % args] for templates that use [%s] only. *)
Fixpoint percent_s (template : string) (args : list pyval) (str : pyval -> string)
    : result string :=
  match template with
  | EmptyString =>
      match args with
      | [] => Ok EmptyString
      | _ :: _ => Raise (builtin_error "TypeError"
                           "not all arguments converted during string formatting")
      end
  | String "%"%char (String "s"%char rest) =>
      match args with
      | [] => Raise (builtin_error "TypeError" "not enough arguments for format string")
      | a :: args' =>
          match percent_s rest args' str with
          | Ok tail => Ok (str a +:+ tail)
          | Raise e => Raise e
          end
      end
  | String c rest =>
      match percent_s rest args str with
      | Ok tail => Ok (String c tail)
      | Raise e => Raise e
      end
  end.

(** The pieces of a template that uses [%(key)s] only; [lit] and [key]
    collect the run being read, in reverse. *)
Fixpoint scan_keys (template : string) (lit : string) (key : option string)
    (str : pyval -> string) : list fmt_piece :=
  match key with
  | None =>
      match template with
      | EmptyString => [FmtLit (String.rev lit)]
      | String "%"%char (String "("%char rest) =>
          FmtLit (String.rev lit) :: scan_keys rest EmptyString (Some EmptyString) str
      | String c rest => scan_keys rest (String c lit) None str
      end
  | Some k =>
      match template with
      | EmptyString => [FmtError (builtin_error "ValueError" "incomplete format key")]
      | String ")"%char (String "s"%char rest) =>
          FmtKey (String.rev k) (fun v => Ok (str v))
            :: scan_keys rest EmptyString None str
      | String c rest => scan_keys rest lit (Some (String c k)) str
      end
  end.

Definition str_fallback (v : pyval) : string := "<object>".

Definition builtins (float : string -> option spec_float) : Builtins :=
  {| float_of_text := float;
     int_of_text := int_builtin;
     decimal_of_text := decimal_builtin;
     unescape_bytea := fun s => Ok s;
     str_other := str_fallback;
     type_name := fun v => match v with
                           | PyObject cls _ => "<class '" +:+ cls +:+ "'>"
                           | _ => "<class 'object'>"
                           end;
     truth_other := fun _ => true;
     iter_other := fun _ => Raise (builtin_error "TypeError" "object is not iterable");
     format_tuple := fun t args =>
       percent_s t args
         (fun v => match v with
                   | PyText s | PyDateTime s | PyDecimal s => s
                   | PyInt z => pretty z
                   | _ => str_fallback v
                   end);
     format_scan := fun t =>
       scan_keys t EmptyString None
         (fun v => match v with
                   | PyText s | PyDateTime s | PyDecimal s => s
                   | PyInt z => pretty z
                   | _ => str_fallback v
                   end);
     bytes_is_str := false;
     namedtuple_fields := fun names => names;
     repr_text := fun s => "'" +:+ s +:+ "'" |}.

(** The server doubles single quotes when it escapes a string. *)
Fixpoint double_quotes (s : string) : string :=
  match s with
  | EmptyString => EmptyString
  | String "'"%char rest => String "'"%char (String "'"%char (double_quotes rest))
  | String c rest => String c (double_quotes rest)
  end.

(** The statement last run with success on source [src]. *)
Fixpoint last_statement (src : nat) (t : list event) : option string :=
  match t with
  | [] => None
  | ev :: t' =>
      match last_statement src t' with
      | Some sql => Some sql
      | None =>
          match ev with
          | ev_execute s sql (Ok _) => if Nat.eqb s src then Some sql else None
          | _ => None
          end
      end
  end.

Definition failure_of (failing : list (string * exn)) (sql : string) : option exn :=
  snd <$> List.find (fun f => String.eqb (fst f) sql) failing.

(** A server with one table of one [int4] column.  Statements listed in
    [failing] raise the exception given for them; [INSERT] statements
    affect one row; [SELECT] statements return one row. *)
Definition native (failing : list (string * exn)) : Native :=
  {| nat_source := fun _ => Ok tt;
     nat_cnx_close := fun _ => Ok tt;
     nat_escape_string := fun _ s => Ok (double_quotes s);
     nat_escape_bytea := fun _ b => Ok b;
     nat_execute := fun _ _ sql =>
       match failure_of failing sql with
       | Some e => Raise e
       | None =>
           if String.prefix "SELECT" sql then Ok None
           else if String.prefix "INSERT" sql then Ok (Some 1)
           else Ok (Some (-1))
       end;
     nat_fetch := fun t src _ =>
       match last_statement src t with
       | Some sql =>
           if String.prefix "SELECT typname" sql
           then Ok [[Some "int4"; Some "4"]]
           else Ok [[Some "1"]]
       | None => Raise (_db_error "no result" Error)
       end;
     nat_resulttype := fun t src =>
       match last_statement src t with
       | Some sql =>
           if String.prefix "SELECT" sql then Ok 4
           else if String.prefix "INSERT" sql then Ok 2
           else Ok 3
       | None => Ok 1
       end;
     nat_ntuples := fun _ _ => Ok 1;
     nat_listinfo := fun _ _ => Ok [(0, "a", 23)];
     nat_oidstatus := fun _ _ => Ok (Some 16385);
     nat_src_close := fun _ _ => Ok tt;
     RESULT_DQL := 4 |}.

Definition py : Builtins := builtins float_builtin.

(** The world right after [pgdb.connect] on the server [native failing]
    ([Connection.__init__] has made two [source()] calls), and a cursor
    created on it. *)
Definition fresh_world : World :=
  {| trace := [ev_source (Ok tt); ev_source (Ok tt)];
     Decimal := DecimalStd;
     dbcnx := {| _cnx := Some the_pgcnx; _tnx := false;
                 _type_cache := {| cache_items := ∅; cache_src := 0 |};
                 cursor_type := base_cursor_type py |} |}.

Definition fresh_cursor : Cursor :=
  {| _src := 2; description := None; colnames := None; coltypes := None;
     row_factory := None; build_row_factory := true;
     rowcount := -1; arraysize := 1; lastrowid := None |}.

Definition cursor_world : World :=
  set_trace [ev_source (Ok tt); ev_source (Ok tt); ev_source (Ok tt)] fresh_world.

(** A second cursor on the same connection, and the three inserts run
    on the first one. *)
Definition second_cursor : Cursor :=
  {| _src := 3; description := None; colnames := None; coltypes := None;
     row_factory := None; build_row_factory := true;
     rowcount := -1; arraysize := 1; lastrowid := None |}.

Definition shared_world : World :=
  set_trace [ev_source (Ok tt); ev_source (Ok tt); ev_source (Ok tt);
             ev_source (Ok tt)] fresh_world.

Definition syntax_error : exn :=
  {| exn_cls := ProgrammingError; exn_msg := "syntax error"; sqlstate := Some "42601" |}.

Definition connection_lost : exn :=
  builtin_error "TypeError" "Connection is not valid".

(** The same world in the middle of a transaction. *)
Definition busy_world : World :=
  set_dbcnx (set_tnx true (dbcnx cursor_world)) cursor_world.

(** Three single-row inserts. *)
Definition insert : string := "INSERT INTO t VALUES(%s)".

Definition insert_batch : list paramset :=
  [ValParams (PyTuple [PyInt 1]); ValParams (PyTuple [PyInt 2]);
   ValParams (PyTuple [PyInt 3])].

Definition insert_events : list event :=
  [ev_source (Ok tt);
   ev_execute 3 "BEGIN" (Ok (Some (-1)));
   ev_execute 2 "INSERT INTO t VALUES(1)" (Ok (Some 1));
   ev_execute 2 "INSERT INTO t VALUES(2)" (Ok (Some 1));
   ev_execute 2 "INSERT INTO t VALUES(3)" (Ok (Some 1));
   ev_resulttype 2 (Ok 2);
   ev_oidstatus 2 (Ok (Some 16385))].

Definition inserted : result returned * CState :=
  Eval vm_compute in
    executemany py (native []) insert insert_batch (fresh_cursor, cursor_world).

Definition shared_insert : result returned * CState :=
  Eval vm_compute in
    executemany py (native []) insert insert_batch (fresh_cursor, shared_world).

(** The same batch on a server that rejects the second insert. *)
Definition rejecting : Native :=
  native [("INSERT INTO t VALUES(2)", syntax_error)].

Definition rejected_events : list event :=
  [ev_source (Ok tt);
   ev_execute 3 "BEGIN" (Ok (Some (-1)));
   ev_execute 2 "INSERT INTO t VALUES(1)" (Ok (Some 1));
   ev_execute 2 "INSERT INTO t VALUES(2)" (Raise syntax_error)].

Definition rejected : result returned * CState :=
  Eval vm_compute in
    executemany py rejecting insert insert_batch (fresh_cursor, cursor_world).

(** A server that has lost the connection when the transaction ends. *)
Definition unreachable : Native :=
  native [("COMMIT", connection_lost); ("ROLLBACK", connection_lost)].

End Demo.


(** * The rest of the module *)

(** ** Fetching rows *)

Definition set_arraysize (v : Z) (c : Cursor) : Cursor :=
  {| _src := _src c; description := description c; colnames := colnames c;
     coltypes := coltypes c; row_factory := row_factory c;
     build_row_factory := build_row_factory c; rowcount := rowcount c;
     arraysize := v; lastrowid := lastrowid c |}.

(** [[f x for x in l]] with an [f] that may raise *)
Fixpoint map_result {A B} (f : A -> result B) (l : list A) : result (list B) :=
  match l with
  | [] => Ok []
  | x :: l' =>
      match f x with
      | Ok y =>
          match map_result f l' with
          | Ok ys => Ok (y :: ys)
          | Raise e => Raise e
          end
      | Raise e => Raise e
      end
  end.

(** What a fetch method hands out for one row: the named tuple made by
    a factory of [build_row_factory], or what the [row_factory] of the
    cursor class makes of the values. *)
Inductive Row (R : Type) : Type :=
  | NamedRow (fields : list string) (values : list pyval)
  | ClassRow (r : R).
Arguments NamedRow {R} fields values.
Arguments ClassRow {R} r.

(** [Connection.__exit__] tells a clean exit by its three arguments
    being None; what they hold otherwise plays no role. *)
Inductive exc_info : Type := the_exc_info.

(** The parameters of [callproc]: None or a sequence, as its
    documentation asks for. *)
Inductive proc_parameters : Type :=
  | NoParameters
  | ParameterList (l : list pyval)
  | ParameterTuple (l : list pyval).

Definition proc_paramset (parameters : proc_parameters) : paramset :=
  match parameters with
  | NoParameters => ValParams PyNone
  | ParameterList l => ValParams (PyList l)
  | ParameterTuple l => ValParams (PyTuple l)
  end.

(** [parameters and len(parameters) or 0] *)
Definition proc_arity (parameters : proc_parameters) : nat :=
  match parameters with
  | NoParameters => 0
  | ParameterList l | ParameterTuple l => length l
  end.

(** The text of one double quote character. *)
Definition dquote : string := String "034"%char EmptyString.

(** ['select * from "%s"(%s)' % (procname, ','.join(n * ['%s']))] *)
Definition callproc_query (procname : string) (n : nat) : string :=
  "select * from " +:+ dquote +:+ procname +:+ dquote +:+ "("
    +:+ String.concat "," (replicate n "%s") +:+ ")".

(** ** Connecting *)

(** [s.split(sep)] for a separator of one character: the runs between
    the separators, empty ones included. *)
Fixpoint split_on (sep : ascii) (s : string) : list string :=
  match s with
  | EmptyString => [EmptyString]
  | String c rest =>
      if Ascii.eqb c sep then EmptyString :: split_on sep rest
      else
        match split_on sep rest with
        | w :: ws => String c w :: ws
        | [] => [String c EmptyString]
        end
  end.

(** The arguments [connect] hands to the native [_pg.connect]. *)
Record ConnectArgs : Type := {
  dbbase : string;
  dbhost : option string;
  dbport : Z;
  dbopt : string;
  dbuser : option string;
  dbpasswd : string
}.

(** [except (names):] for builtin exception classes *)
Definition caught (names : list string) (e : exn) : bool :=
  match exn_cls e with
  | Builtin n => bool_decide (n ∈ names)
  | _ => false
  end.

(** [None] for the empty text, the text itself otherwise. *)
Definition none_if_empty (text : string) : option string :=
  if String.eqb text EmptyString then None else Some text.

Section More.

Context (B : Builtins) (N : Native).

(** [typecast(typ, value)] for a column of [coltypes], whose type name
    is None when the catalog has none: [_cast.get(None)] is None. *)
Definition typecast_column (D : decimal_binding) (typ : option string)
    (value : option string) : result pyval :=
  match typ with
  | Some t => typecast B D t value
  | None =>
      match value with
      | Some text => Ok (PyText text)
      | None => Ok PyNone
      end
  end.

(** [[typecast(typ, value) for typ, value in zip(self.coltypes, row)]] *)
Definition cast_row (D : decimal_binding) (types : option (list (option string)))
    (row : raw_row) : result (list pyval) :=
  match types with
  | Some typs => map_result (fun tv => typecast_column D (fst tv) (snd tv)) (zip typs row)
  | None => Raise (builtin_error "TypeError" "zip argument #1 must support iteration")
  end.

Section Rows.

(** The [row_factory] a cursor class defines is user code; it is given
    the cursor and the list of values. *)
Context {R : Type} (class_row_factory : Cursor -> list pyval -> result R).

(** [self.row_factory(values)]; a factory built for named tuples is the
    [_make] of the tuple class, which checks the number of values. *)
Definition make_row (c : Cursor) (values : list pyval) : result (Row R) :=
  match row_factory c with
  | Some (BuiltFactory fields) =>
      if bool_decide (length values = length fields)
      then Ok (NamedRow fields values)
      else Raise (builtin_error "TypeError" "Expected a different number of arguments")
  | Some ClassFactory =>
      match class_row_factory c values with
      | Ok r => Ok (ClassRow r)
      | Raise e => Raise e
      end
  | None => Raise (builtin_error "TypeError" "'NoneType' object is not callable")
  end.

(** The list comprehension at the end of [fetchmany] *)
Definition make_rows (D : decimal_binding) (c : Cursor) (rows : list raw_row)
    : result (list (Row R)) :=
  map_result
    (fun row =>
       match cast_row D (coltypes c) row with
       | Ok values => make_row c values
       | Raise e => Raise e
       end)
    rows.

(** [Cursor.fetchmany(size=None, keep=False)] *)
Definition fetchmany (size : option Z) (keep : bool) : M CState (list (Row R)) :=
  let* size := match size with
               | Some n => ret n
               | None => gets (fun s => arraysize (fst s))
               end in
  (if keep then self_set (set_arraysize size) else ret tt) ;;;
  let* src := gets (fun s => _src (fst s)) in
  let* result :=
    try_except
      (lift (call_native (fun t => nat_fetch N t src size) (ev_fetch src size)))
      (fun err =>
         if is_DatabaseError err then raise err
         else if is_Error err then raise (_db_error (exn_msg err) DatabaseError)
         else raise err) in
  let* D := gets (fun s => Decimal (snd s)) in
  let* self := gets fst in
  lift_result (make_rows D self result).

(** [Cursor.fetchone()] *)
Definition fetchone : M CState (option (Row R)) :=
  let* res := fetchmany (Some 1) false in
  match res with
  | row :: _ => ret (Some row)
  | [] => ret None
  end.

(** [Cursor.fetchall()] *)
Definition fetchall : M CState (list (Row R)) :=
  fetchmany (Some (-1)) false.

(** [Cursor.__next__()] *)
Definition Cursor_next : M CState (Row R) :=
  let* res := fetchone in
  match res with
  | Some row => ret row
  | None => raise (builtin_error "StopIteration" EmptyString)
  end.

End Rows.

(** [Cursor.callproc(procname, parameters=None)] *)
Definition callproc (procname : string) (parameters : proc_parameters)
    : M CState proc_parameters :=
  let n := proc_arity parameters in
  let query := callproc_query procname n in
  execute B N query (proc_paramset parameters) ;;;
  ret parameters.

(** [Cursor.nextset()] *)
Definition nextset : M CState unit :=
  raise (_db_error "nextset() is not supported" NotSupportedError).

(** [Cursor.__exit__(et, ev, tb)] *)
Definition Cursor_exit (et ev tb : option exc_info) : M CState unit :=
  Cursor_close N.

(** [Connection.__exit__(et, ev, tb)] *)
Definition Connection_exit (et ev tb : option exc_info) : M World unit :=
  match et, ev, tb with
  | None, None, None => commit N
  | _, _, _ => rollback N
  end.

(** The part of [connect] before the connection is opened: the DSN
    [host:database:user:password:options], then the keyword arguments,
    which win over it. *)
Definition connect_arguments (dsn user password host database : option string)
    : result ConnectArgs :=
  let params := match dsn with
                | Some s => split_on ":" s
                | None => []          (* AttributeError, caught *)
                end in
  (* the assignments run in order until an index is out of range *)
  let dbhost := default EmptyString (params !! 0%nat) in
  let dbbase := default EmptyString (params !! 1%nat) in
  let dbuser := default EmptyString (params !! 2%nat) in
  let dbpasswd := default EmptyString (params !! 3%nat) in
  let dbopt := default EmptyString (params !! 4%nat) in
  let dbuser := default dbuser user in
  let dbpasswd := default dbpasswd password in
  let dbbase := default dbbase database in
  let finish (dbhost : string) (dbport : Z) :=
    {| dbbase := dbbase; dbhost := none_if_empty dbhost; dbport := dbport;
       dbopt := dbopt; dbuser := none_if_empty dbuser; dbpasswd := dbpasswd |} in
  match host with
  | None => Ok (finish dbhost (-1))
  | Some h =>
      let params := split_on ":" h in
      match params !! 0%nat with
      | None => Ok (finish dbhost (-1))
      | Some dbhost =>
          match params !! 1%nat with
          | None => Ok (finish dbhost (-1))
          | Some port =>
              match int_of_text B port with
              | Ok dbport => Ok (finish dbhost dbport)
              | Raise e =>
                  if caught ["AttributeError"; "IndexError"; "TypeError"; "ValueError"] e
                  then Ok (finish dbhost (-1))
                  else Raise e
              end
          end
      end
  end.

End More.

(** [connect(dsn, user, password, host, database)]: [_connect_] is the
    native [_pg.connect], which gives the native connection or raises;
    [D] is what the module global [Decimal] is bound to. *)
Definition connect (B : Builtins) (_connect_ : ConnectArgs -> result Native)
    (D : decimal_binding) (dsn user password host database : option string)
    : result (Native * World) :=
  match connect_arguments B dsn user password host database with
  | Ok args =>
      match _connect_ args with
      | Ok N =>
          match fst (Connection_init B N [] D) with
          | Ok w => Ok (N, w)
          | Raise e => Raise e
          end
      | Raise e => Raise e
      end
  | Raise e => Raise e
  end.

(** ** Type objects *)

(** Whitespace as [str.split()] of Python 3 sees it on ASCII text
    (Python 2 leaves the separators 28 to 31 alone; no type name of
    the module holds one). *)
Definition is_space (c : ascii) : bool :=
  let n := Ascii.N_of_ascii c in
  ((9 <=? n) && (n <=? 13) || (28 <=? n) && (n <=? 32))%N.

Definition cons_word (w : string) (ws : list string) : list string :=
  match w with
  | EmptyString => ws
  | String _ _ => w :: ws
  end.

(** The word that starts at the head of [s], empty when [s] starts with
    whitespace, and the words after it. *)
Fixpoint split_words (s : string) : string * list string :=
  match s with
  | EmptyString => (EmptyString, [])
  | String c rest =>
      let (w, ws) := split_words rest in
      if is_space c then (EmptyString, cons_word w ws) else (String c w, ws)
  end.

(** [s.split()] *)
Definition py_split (s : string) : list string :=
  let (w, ws) := split_words s in cons_word w ws.

(** [class Type(frozenset)]: a type object is a set of type names.
    [Type.__new__(cls, values)] takes a string of names or any iterable
    of them. *)
Definition Type_new (values : string + list string) : gset string :=
  match values with
  | inl s => list_to_set (py_split s)
  | inr names => list_to_set names
  end.

(** [Type.__eq__(self, other)] for a string or another type object *)
Definition Type_eq (self : gset string) (other : string + gset string) : bool :=
  match other with
  | inl name => bool_decide (name ∈ self)
  | inr t => bool_decide (self = t)
  end.

(** [Type.__ne__(self, other)] *)
Definition Type_ne (self : gset string) (other : string + gset string) : bool :=
  match other with
  | inl name => bool_decide (name ∉ self)
  | inr t => bool_decide (self <> t)
  end.

(** The mandatory type objects of the DB-API 2 *)
Definition STRING : gset string := Type_new (inl "char bpchar name text varchar").
Definition BINARY : gset string := Type_new (inl "bytea").
Definition NUMBER : gset string :=
  Type_new (inl "int2 int4 serial int8 float4 float8 numeric money").
Definition DATETIME : gset string :=
  Type_new (inl ("date time timetz timestamp timestamptz datetime abstime"
                 +:+ " interval tinterval timespan reltime")).
Definition ROWID : gset string := Type_new (inl "oid oid8").

(** The more specific type objects *)
Definition BOOL : gset string := Type_new (inl "bool").
Definition SMALLINT : gset string := Type_new (inl "int2").
Definition INTEGER : gset string := Type_new (inl "int2 int4 int8 serial").
Definition LONG : gset string := Type_new (inl "int8").
Definition FLOAT : gset string := Type_new (inl "float4 float8").
Definition NUMERIC : gset string := Type_new (inl "numeric").
Definition MONEY : gset string := Type_new (inl "money").
Definition DATE : gset string := Type_new (inl "date").
Definition TIME : gset string := Type_new (inl "time timetz").
Definition TIMESTAMP : gset string :=
  Type_new (inl "timestamp timestamptz datetime abstime").
Definition INTERVAL : gset string :=
  Type_new (inl "interval tinterval timespan reltime").

(** ** Vocabulary of the further properties *)

(** The event of [src.fetch(n)] after history [t]. *)
Definition fetch_event (N : Native) (src : nat) (n : Z) (t : list event) : event :=
  ev_fetch src n (nat_fetch N t src n).

(** What the fetch methods raise when the native fetch fails with
    [err]. *)
Definition fetch_failure (err : exn) : exn :=
  if is_DatabaseError err then err
  else if is_Error err then _db_error (exn_msg err) DatabaseError
  else err.

(** Values whose quoting needs no call into the native layer, with the
    text they are rendered as inside a sequence. *)
Definition literal_of (v : pyval) : option string :=
  match v with
  | PyNone => Some "NULL"
  | PyInt z => Some (pretty z)
  | PyBool b => Some (if b then "True" else "False")
  | _ => None
  end.

(** The loop of [_quote] over the items of a list or tuple. *)
Definition quote_all (B : Builtins) (N : Native) (l : list pyval)
    : M World (list string) :=
  (fix quote_all (l : list pyval) : M World (list string) :=
     match l with
     | [] => ret []
     | v :: l' =>
         let* q := _quote B N v in
         let* qs := quote_all l' in
         ret (py_str B q :: qs)
     end) l.

(** Every conversion of the pieces names a key. *)
Definition keyed_only (pieces : list fmt_piece) : bool :=
  forallb (fun piece => match piece with
                        | FmtMapping _ => false
                        | _ => true
                        end) pieces.

(** The characters [_cast_money] keeps. *)
Definition money_char (c : ascii) : bool :=
  bool_decide (c ∈ String.list_ascii_of_string "0123456789.-").

Definition money_chars (s : string) : bool :=
  forallb money_char (String.list_ascii_of_string s).

Definition no_money_chars (s : string) : bool :=
  forallb (fun c => negb (money_char c)) (String.list_ascii_of_string s).

(** The cursor after a [close] that went through. *)
Definition closed_cursor (c : Cursor) : Cursor :=
  set_lastrowid None (set_rowcount (-1) (set_coltypes None
    (set_colnames None (set_description None c)))).

(** A [with] block left without an exception. *)
Definition clean_exit (et ev tb : option exc_info) : bool :=
  match et, ev, tb with
  | None, None, None => true
  | _, _, _ => false
  end.

(** [sep] does not occur in [s]. *)
Definition free_of (sep : ascii) (s : string) : bool :=
  forallb (fun c => negb (Ascii.eqb c sep)) (String.list_ascii_of_string s).

(** A type name: not empty, and made of visible ASCII characters. *)
Definition graphic (c : ascii) : bool :=
  let n := Ascii.N_of_ascii c in ((33 <=? n) && (n <=? 126))%N.

Definition type_name_like (w : string) : bool :=
  negb (String.eqb w EmptyString) && forallb graphic (String.list_ascii_of_string w).

(** The type objects by group, and how many of a group compare equal
    to a type name. *)
Definition mandatory_types : list (gset string) :=
  [STRING; BINARY; NUMBER; DATETIME; ROWID].

Definition number_types : list (gset string) := [INTEGER; FLOAT; NUMERIC; MONEY].

Definition datetime_types : list (gset string) := [DATE; TIME; TIMESTAMP; INTERVAL].

Definition matching (name : string) (types : list (gset string)) : nat :=
  length (List.filter (fun t => Type_eq t (inl name)) types).

(** [typ in _cast] *)
Definition has_cast (B : Builtins) (D : decimal_binding) (typ : string) : bool :=
  match _cast B D typ with
  | Some _ => true
  | None => false
  end.

(** ** More of the concrete server *)

Module DemoMore.

(** A cursor class whose [row_factory] hands out the list of values. *)
Definition rows_as_lists (c : Cursor) (values : list pyval) : result (list pyval) :=
  Ok values.

(** A query on the one table of the server, and the cursor and the
    world after it. *)
Definition select : string := "SELECT a FROM t".

Definition selected : result returned * CState :=
  Eval vm_compute in
    execute Demo.py (Demo.native []) select (ValParams PyNone)
      (Demo.fresh_cursor, Demo.cursor_world).

Definition select_events : list event :=
  [ev_source (Ok tt);
   ev_execute 3 "BEGIN" (Ok (Some (-1)));
   ev_execute 2 "SELECT a FROM t" (Ok None);
   ev_resulttype 2 (Ok 4);
   ev_ntuples 2 (Ok 1);
   ev_listinfo 2 (Ok [(0, "a", 23)]);
   ev_execute 0 "SELECT typname, typlen FROM pg_type WHERE oid=23" (Ok None);
   ev_fetch 0 1 (Ok [[Some "int4"; Some "4"]])].

(** The same server once the result has been read to its end. *)
Definition drained : Native :=
  {| nat_source := nat_source (Demo.native []);
     nat_cnx_close := nat_cnx_close (Demo.native []);
     nat_escape_string := nat_escape_string (Demo.native []);
     nat_escape_bytea := nat_escape_bytea (Demo.native []);
     nat_execute := nat_execute (Demo.native []);
     nat_fetch := fun _ _ _ => Ok [];
     nat_resulttype := nat_resulttype (Demo.native []);
     nat_ntuples := nat_ntuples (Demo.native []);
     nat_listinfo := nat_listinfo (Demo.native []);
     nat_oidstatus := nat_oidstatus (Demo.native []);
     nat_src_close := nat_src_close (Demo.native []);
     RESULT_DQL := RESULT_DQL (Demo.native []) |}.

(** The same server sending a text that is no integer for the column. *)
Definition garbled : Native :=
  {| nat_source := nat_source (Demo.native []);
     nat_cnx_close := nat_cnx_close (Demo.native []);
     nat_escape_string := nat_escape_string (Demo.native []);
     nat_escape_bytea := nat_escape_bytea (Demo.native []);
     nat_execute := nat_execute (Demo.native []);
     nat_fetch := fun _ _ _ => Ok [[Some "one"]];
     nat_resulttype := nat_resulttype (Demo.native []);
     nat_ntuples := nat_ntuples (Demo.native []);
     nat_listinfo := nat_listinfo (Demo.native []);
     nat_oidstatus := nat_oidstatus (Demo.native []);
     nat_src_close := nat_src_close (Demo.native []);
     RESULT_DQL := RESULT_DQL (Demo.native []) |}.

(** A parameter that cannot be quoted, and what [_quote] says of it. *)
Definition unquotable : paramset := ValParams (PyTuple [PyObject "dict" None]).

Definition unquotable_error : exn :=
  {| exn_cls := InterfaceError;
     exn_msg := "do not know how to handle type <class 'dict'>";
     sqlstate := None |}.

(** Mapping parameters, without and with an entry the template does
    not use. *)
Definition by_name : gmap string pyval := {[ "x" := PyInt 1 ]}.

Definition by_name_and_more : gmap string pyval :=
  <[ "y" := PyObject "dict" None ]> by_name.

(** [_pg.connect] of a machine that runs the server. *)
Definition open_server (args : ConnectArgs) : result Native := Ok (Demo.native []).

Definition dsn_parts : list string := ["localhost"; "test"; "me"; "secret"].

Definition dsn_arguments : ConnectArgs :=
  {| dbbase := "test"; dbhost := Some "localhost"; dbport := -1;
     dbopt := EmptyString; dbuser := Some "me"; dbpasswd := "secret" |}.

Definition keyword_arguments : ConnectArgs :=
  {| dbbase := "test"; dbhost := Some "example.org"; dbport := 5433;
     dbopt := EmptyString; dbuser := Some "admin"; dbpasswd := "secret" |}.

End DemoMore.


(** * Properties *)

Section Proofs.

Context (B : Builtins) (N : Native).

(** ** Reasoning about computations *)

Lemma bind_inv {S A C} (m : M S A) (k : A -> M S C) s r s' :
  bind m k s = (r, s') ->
  (exists a s1, m s = (Ok a, s1) /\ k a s1 = (r, s')) \/
  (exists e, m s = (Raise e, s') /\ r = Raise e).
Proof.
  unfold bind. destruct (m s) as [[a|e] s1]; intros H.
  - left. eauto.
  - right. injection H as <- <-. eauto.
Qed.

Lemma lift_inv {T S A} (m : M S A) (t : T) s r t' s' :
  lift m (t, s) = (r, (t', s')) -> t' = t /\ m s = (r, s').
Proof.
  unfold lift; simpl. destruct (m s) as [r1 s1]. by intros [= <- <- <-].
Qed.

Lemma try_except_inv {S A} (m : M S A) h s r s' :
  try_except m h s = (r, s') ->
  (exists a, m s = (Ok a, s') /\ r = Ok a) \/
  (exists e s1, m s = (Raise e, s1) /\ h e s1 = (r, s')).
Proof.
  unfold try_except. destruct (m s) as [[a|e] s1]; intros H.
  - left. injection H as <- <-. eauto.
  - right. eauto.
Qed.

Lemma grows_refl P w : grows P w w.
Proof.
  repeat split; try done. exists []. by rewrite app_nil_r.
Qed.

Lemma grows_trans P w1 w2 w3 : grows P w1 w2 -> grows P w2 w3 -> grows P w1 w3.
Proof.
  intros (HD1 & Hc1 & Ht1 & Hy1 & Hs1 & Hi1 & n1 & Hn1 & HP1)
         (HD2 & Hc2 & Ht2 & Hy2 & Hs2 & Hi2 & n2 & Hn2 & HP2).
  repeat split; try congruence.
  - by etrans.
  - exists (n1 ++ n2). split.
    + by rewrite Hn2, Hn1, app_assoc.
    + by apply Forall_app.
Qed.

Lemma grows_mono (P Q : event -> Prop) w w' :
  (forall ev, P ev -> Q ev) -> grows P w w' -> grows Q w w'.
Proof.
  intros HPQ (HD & Hc & Ht & Hy & Hs & Hi & new & Hn & HP).
  repeat split; try done. exists new. split; [done|].
  eapply Forall_impl; eauto.
Qed.

Lemma grows_new P w w' new :
  grows P w w' -> trace w' = trace w ++ new -> Forall P new.
Proof.
  intros (_ & _ & _ & _ & _ & _ & new' & Hn & HP) Hnew.
  rewrite Hn in Hnew. by apply app_inv_head in Hnew as <-.
Qed.

Lemma frames_ret {A} P (a : A) : frames P (ret a).
Proof. intros w. apply grows_refl. Qed.

Lemma frames_raise {A} P e : frames P (@raise World A e).
Proof. intros w. apply grows_refl. Qed.

Lemma frames_gets {A} P (f : World -> A) : frames P (gets f).
Proof. intros w. apply grows_refl. Qed.

Lemma frames_lift_result {A} P (r : result A) : frames P (lift_result r).
Proof. intros w. apply grows_refl. Qed.

Lemma frames_bind {A C} P (m : M World A) (k : A -> M World C) :
  frames P m -> (forall a, frames P (k a)) -> frames P (bind m k).
Proof.
  intros Hm Hk w. unfold bind. specialize (Hm w).
  destruct (m w) as [[a|e] w1]; simpl in *; [|done].
  eapply grows_trans; [done|apply Hk].
Qed.

Lemma frames_try_except {A} P (m : M World A) h :
  frames P m -> (forall e, frames P (h e)) -> frames P (try_except m h).
Proof.
  intros Hm Hh w. unfold try_except. specialize (Hm w).
  destruct (m w) as [[a|e] w1]; simpl in *; [done|].
  eapply grows_trans; [done|apply Hh].
Qed.

Lemma frames_call_native {A} (P : event -> Prop) ask (ev : result A -> event) :
  (forall r, P (ev r)) -> frames P (call_native ask ev).
Proof.
  intros HP w. unfold call_native; simpl.
  repeat split; try done. eexists. split; [done|]. by constructor.
Qed.

Lemma frames_map_m {A C} P (f : A -> M World C) l :
  (forall a, frames P (f a)) -> frames P (map_m f l).
Proof.
  intros Hf. induction l as [|x l IH]; simpl.
  - apply frames_ret.
  - apply frames_bind; [done|]. intros y.
    apply frames_bind; [done|]. intros ys. apply frames_ret.
Qed.

Lemma frames_mono {A} (P Q : event -> Prop) (m : M World A) :
  (forall ev, P ev -> Q ev) -> frames P m -> frames Q m.
Proof. intros HPQ Hm w. eapply grows_mono; eauto. Qed.

(** Induction on values, through the lists they nest. *)
Lemma pyval_nested_ind (P : pyval -> Prop) :
  P PyNone ->
  (forall b, P (PyBool b)) ->
  (forall z, P (PyInt z)) ->
  (forall f, P (PyFloat f)) ->
  (forall s, P (PyText s)) ->
  (forall b, P (PyBinary b)) ->
  (forall b, P (PyBytes b)) ->
  (forall s, P (PyDateTime s)) ->
  (forall d, P (PyDecimal d)) ->
  (forall l, Forall P l -> P (PyList l)) ->
  (forall l, Forall P l -> P (PyTuple l)) ->
  (forall cls r, P (PyObject cls r)) ->
  forall v, P v.
Proof.
  intros Hnone Hbool Hint Hfloat Htext Hbin Hbytes Hdt Hdec Hlist Htuple Hobj.
  fix IH 1. intros [| | | | | | | | |l|l|].
  - apply Hnone.
  - apply Hbool.
  - apply Hint.
  - apply Hfloat.
  - apply Htext.
  - apply Hbin.
  - apply Hbytes.
  - apply Hdt.
  - apply Hdec.
  - apply Hlist. revert l. fix IHl 1. intros [|x l]; constructor; [apply IH|apply IHl].
  - apply Htuple. revert l. fix IHl 1. intros [|x l]; constructor; [apply IH|apply IHl].
  - apply Hobj.
Qed.

Lemma quote_frames val : frames escape_event (_quote B N val).
Proof.
  induction val as [| | | | | | | | |l IH|l IH|cls r] using pyval_nested_ind;
    try (simpl; apply frames_ret).
  - intros w. simpl. destruct (isinf f); [apply grows_refl|].
    destruct (isnan f); apply grows_refl.
  - simpl. apply frames_bind; [by apply frames_call_native|]. intros; apply frames_ret.
  - simpl. apply frames_bind; [by apply frames_call_native|]. intros v.
    apply frames_bind; [|intros; apply frames_ret].
    destruct (bytes_is_str B); [apply frames_ret|apply frames_lift_result].
  - simpl. apply frames_bind; [by apply frames_call_native|]. intros; apply frames_ret.
  - simpl. apply frames_bind; [by apply frames_call_native|]. intros; apply frames_ret.
  - simpl. apply frames_bind; [apply frames_gets|]. intros D.
    destruct (is_Decimal D _); [apply frames_ret|apply frames_raise].
  - simpl. apply frames_bind; [|intros; apply frames_ret].
    induction IH as [|v l Hv Hl IHl]; [apply frames_ret|].
    apply frames_bind; [done|]. intros q.
    apply frames_bind; [done|]. intros qs. apply frames_ret.
  - simpl. apply frames_bind; [|intros; apply frames_ret].
    induction IH as [|v l Hv Hl IHl]; [apply frames_ret|].
    apply frames_bind; [done|]. intros q.
    apply frames_bind; [done|]. intros qs. apply frames_ret.
  - simpl. apply frames_bind; [apply frames_gets|]. intros D.
    destruct (is_Decimal D _); [apply frames_ret|].
    destruct r as [[v|e]|]; [apply frames_ret|apply frames_raise..].
Qed.

Lemma quoteparams_frames template parameters :
  frames escape_event (_quoteparams B N template parameters).
Proof.
  destruct parameters as [d|v]; simpl.
  - induction (format_scan B template) as [|[s|key render|render|e] rest IH]; simpl.
    + apply frames_ret.
    + apply frames_bind; [done|]. intros; apply frames_ret.
    + apply frames_bind.
      * unfold quotedict_getitem. destruct (d !! key); [apply quote_frames|apply frames_raise].
      * intros v. apply frames_bind; [apply frames_lift_result|]. intros s.
        apply frames_bind; [done|]. intros; apply frames_ret.
    + apply frames_bind; [apply frames_lift_result|]. intros s.
      apply frames_bind; [done|]. intros; apply frames_ret.
    + apply frames_raise.
  - apply frames_bind; [apply frames_lift_result|]. intros items.
    apply frames_bind; [apply frames_map_m, quote_frames|]. intros.
    apply frames_lift_result.
Qed.

(** ** Transaction commands *)

Lemma control_command_run sql w :
  control_command N sql w =
    (control_result N sql (trace w),
     set_trace (trace w ++ control_events N sql (trace w)) w).
Proof.
  unfold control_command, control_result, control_events, new_source,
    call_native, bind, gets, ret; simpl.
  destruct (nat_source N (trace w)) as [[]|e]; simpl.
  - destruct (nat_execute N _ _ sql) as [rows|e]; simpl;
      unfold set_trace; simpl; by rewrite <- app_assoc.
  - done.
Qed.

(** ** Closed connections *)

(** C6: once [close()] has succeeded the native handle is released, and
    from then on [cursor()], [commit()], [rollback()] and [close()] all
    raise an OperationalError, without touching the connection. *)
Theorem closed_connection_raises w w' :
  Connection_close N w = (Ok tt, w') ->
  _cnx (dbcnx w') = None /\
  (exists e, cursor N w' = (Raise e, w') /\ exn_cls e = OperationalError) /\
  (exists e, commit N w' = (Raise e, w') /\ exn_cls e = OperationalError) /\
  (exists e, rollback N w' = (Raise e, w') /\ exn_cls e = OperationalError) /\
  (exists e, Connection_close N w' = (Raise e, w') /\ exn_cls e = OperationalError).
Proof.
  intros Hclose.
  assert (Hnone : _cnx (dbcnx w') = None).
  { revert Hclose. unfold Connection_close, bind, gets, modify, ret, raise, try_except.
    simpl. destruct (_cnx (dbcnx w)); [|discriminate].
    destruct (_tnx (dbcnx w)).
    - destruct (rollback N w) as [[[]|e] w1]; simpl.
      + unfold call_native. destruct (nat_cnx_close N (trace w1)); simpl; [|discriminate].
        intros [= <-]. done.
      + destruct (is_DatabaseError e); simpl; [|discriminate].
        unfold call_native. destruct (nat_cnx_close N (trace w1)); simpl; [|discriminate].
        intros [= <-]. done.
    - simpl. unfold call_native. destruct (nat_cnx_close N (trace w)); simpl; [|discriminate].
      intros [= <-]. done. }
  split; [done|].
  unfold cursor, commit, rollback, Connection_close, bind, gets, raise; simpl.
  rewrite Hnone. repeat split; eexists; (split; [reflexivity|done]).
Qed.

(** ** Ending a transaction *)

Lemma control_failure_is_DatabaseError msg err :
  is_DatabaseError (control_failure msg err) = true.
Proof. unfold control_failure. by destruct (is_DatabaseError err) eqn:E. Qed.

Lemma rollback_open w h :
  _cnx (dbcnx w) = Some h -> _tnx (dbcnx w) = true ->
  rollback N w =
    (end_transaction_result N "ROLLBACK" "can't rollback" (trace w),
     set_trace (trace w ++ control_events N "ROLLBACK" (trace w))
       (set_dbcnx (set_tnx false (dbcnx w)) w)).
Proof.
  intros Hc Ht.
  unfold rollback, bind, gets, modify, try_except, end_transaction_result; simpl.
  rewrite Hc, Ht, control_command_run; simpl.
  destruct (control_result N "ROLLBACK" (trace w)) as [[]|e]; simpl; [done|].
  unfold control_failure. by destruct (is_DatabaseError e).
Qed.

Lemma commit_open w h :
  _cnx (dbcnx w) = Some h -> _tnx (dbcnx w) = true ->
  commit N w =
    (end_transaction_result N "COMMIT" "can't commit" (trace w),
     set_trace (trace w ++ control_events N "COMMIT" (trace w))
       (set_dbcnx (set_tnx false (dbcnx w)) w)).
Proof.
  intros Hc Ht.
  unfold commit, bind, gets, modify, try_except, end_transaction_result; simpl.
  rewrite Hc, Ht, control_command_run; simpl.
  destruct (control_result N "COMMIT" (trace w)) as [[]|e]; simpl; [done|].
  unfold control_failure. by destruct (is_DatabaseError e).
Qed.

Lemma commit_idle w h :
  _cnx (dbcnx w) = Some h -> _tnx (dbcnx w) = false -> commit N w = (Ok tt, w).
Proof.
  intros Hc Ht. unfold commit, bind, gets; simpl. by rewrite Hc, Ht.
Qed.

Lemma rollback_idle w h :
  _cnx (dbcnx w) = Some h -> _tnx (dbcnx w) = false -> rollback N w = (Ok tt, w).
Proof.
  intros Hc Ht. unfold rollback, bind, gets; simpl. by rewrite Hc, Ht.
Qed.

(** C7: [close()] on an open connection with a transaction in progress
    attempts the rollback (a [source()] call and, when that gave a
    source, [ROLLBACK] on it), then calls the native [close()].  What
    [close()] gives back is what the native [close()] gave, whatever the
    outcome of the rollback attempt; when the native [close()] succeeded
    the handle is released. *)
Theorem close_suppresses_rollback_error w h :
  _cnx (dbcnx w) = Some h -> _tnx (dbcnx w) = true ->
  let attempt := control_events N "ROLLBACK" (trace w) in
  let released := nat_cnx_close N (trace w ++ attempt) in
  exists w',
    Connection_close N w = (released, w') /\
    trace w' = trace w ++ attempt ++ [ev_cnx_close released] /\
    _tnx (dbcnx w') = false /\
    (released = Ok tt -> _cnx (dbcnx w') = None) /\
    (forall e, released = Raise e -> _cnx (dbcnx w') = Some h).
Proof.
  intros Hc Ht attempt released.
  unfold Connection_close, bind, gets, try_except; simpl.
  rewrite Hc, Ht, (rollback_open w h Hc Ht).
  unfold end_transaction_result.
  destruct (control_result N "ROLLBACK" (trace w)) as [[]|e]; simpl;
    rewrite ?control_failure_is_DatabaseError;
    unfold ret, call_native, modify; simpl; fold attempt; fold released;
    destruct released as [[]|e'] eqn:Hrel; simpl;
    (eexists; split; [reflexivity|]); simpl; rewrite <- app_assoc;
    repeat split; done.
Qed.

(** ** Quoting and casting *)

(** C2: a value of none of the kinds [_quote] knows (date and time
    values, text, [Binary], integers, floats, None, lists and tuples,
    the class bound to [Decimal], objects with [__pg_repr__]) is not
    rendered: [_quote] raises an InterfaceError and calls nothing. *)
Theorem quote_rejects_unsupported val w :
  supported_kind (Decimal w) val = false ->
  exists e,
    _quote B N val w = (Raise e, w) /\
    exn_cls e = InterfaceError /\
    exn_msg e = "do not know how to handle type " +:+ type_name B val.
Proof.
  destruct val as [| | | | | | | | | | |cls [r|]]; try discriminate.
  intros Hkind. simpl in Hkind.
  unfold _quote, bind, gets, raise; simpl. rewrite Hkind.
  eexists; split; [reflexivity|done].
Qed.

Lemma cast_float_special value f :
  float_of_text B value = None \/ float_of_text B value = Some f ->
  (float_of_text B value = None -> _cast_float B value = Ok f) ->
  _cast_float B value = Ok f.
Proof.
  intros [Hnone|Hsome] Hfallback; [by apply Hfallback|].
  unfold _cast_float. by rewrite Hsome.
Qed.

Lemma cast_float_specials :
  reads_specials B ->
  _cast_float B "NaN" = Ok nan /\
  _cast_float B "Infinity" = Ok inf /\
  _cast_float B "-Infinity" = Ok (SFopp inf).
Proof.
  intros (Hnan & Hinf & Hninf).
  repeat split; (eapply cast_float_special; [eassumption|]);
    intros Hnone; unfold _cast_float; by rewrite Hnone.
Qed.

Lemma typecast_float typ D text :
  typ = "float4" \/ typ = "float8" ->
  typecast B D typ (Some text) =
    match _cast_float B text with
    | Ok f => Ok (PyFloat f)
    | Raise e => Raise e
    end.
Proof. intros [-> | ->]; reflexivity. Qed.

(** C3: the three special floats are quoted as ['Infinity'],
    ['-Infinity'] and ['NaN']; the texts [Infinity], [-Infinity] and
    [NaN] of a float column are cast to these floats, so that casting
    the text inside the quotes gives the float back; and a text that
    [float] rejects and that is none of the three raises ValueError. *)
Theorem float_specials_round_trip w D :
  reads_specials B ->
  (_quote B N (PyFloat inf) w = (Ok (PyText "'Infinity'"), w) /\
   _quote B N (PyFloat (SFopp inf)) w = (Ok (PyText "'-Infinity'"), w) /\
   _quote B N (PyFloat nan) w = (Ok (PyText "'NaN'"), w)) /\
  (forall typ, typ = "float4" \/ typ = "float8" ->
     typecast B D typ (Some "Infinity") = Ok (PyFloat inf) /\
     typecast B D typ (Some "-Infinity") = Ok (PyFloat (SFopp inf)) /\
     typecast B D typ (Some "NaN") = Ok (PyFloat nan)) /\
  (forall f, isinf f || isnan f = true ->
     exists text,
       _quote B N (PyFloat f) w = (Ok (PyText ("'" +:+ text +:+ "'")), w) /\
       typecast B D "float8" (Some text) = Ok (PyFloat f)) /\
  (forall text,
     float_of_text B text = None ->
     text <> "NaN" -> text <> "Infinity" -> text <> "-Infinity" ->
     exists e, _cast_float B text = Raise e /\ exn_cls e = Builtin "ValueError").
Proof.
  intros Hreads. destruct (cast_float_specials Hreads) as (Hnan & Hinf & Hninf).
  split; [by repeat split|]. split.
  { intros typ Htyp. rewrite !(typecast_float typ D _ Htyp).
    by rewrite Hnan, Hinf, Hninf. }
  split.
  { intros f Hf. destruct f as [s|[|]| |s m e]; try discriminate.
    - exists "-Infinity". split; [reflexivity|].
      rewrite (typecast_float "float8"); [|by right]. by rewrite Hninf.
    - exists "Infinity". split; [reflexivity|].
      rewrite (typecast_float "float8"); [|by right]. by rewrite Hinf.
    - exists "NaN". split; [reflexivity|].
      rewrite (typecast_float "float8"); [|by right]. by rewrite Hnan. }
  intros text Hnone H1 H2 H3. unfold _cast_float. rewrite Hnone.
  apply String.eqb_neq in H1, H2, H3. rewrite H1, H2, H3.
  eexists; split; [reflexivity|done].
Qed.

(** ** Running statements *)

Lemma cursor_open w h :
  _cnx (dbcnx w) = Some h ->
  cursor N w =
    (match nat_source N (trace w) with
     | Ok _ =>
         Ok {| _src := length (trace w); description := None; colnames := None;
               coltypes := None;
               row_factory := if overrides_row_factory (cursor_type (dbcnx w))
                              then Some ClassFactory else None;
               build_row_factory := negb (overrides_row_factory (cursor_type (dbcnx w)));
               rowcount := -1; arraysize := 1; lastrowid := None |}
     | Raise _ => Raise (_op_error "invalid connection")
     end,
     set_trace (trace w ++ [ev_source (nat_source N (trace w))]) w).
Proof.
  intros Hopen.
  unfold cursor, bind, gets, try_except, Cursor_init. simpl. rewrite Hopen.
  unfold bind, new_source, gets, call_native, bind, ret. simpl. rewrite ?Hopen.
  by destruct (nat_source N (trace w)).
Qed.

Lemma cursor_closed w :
  _cnx (dbcnx w) = None ->
  cursor N w = (Raise (_op_error "connection has been closed"), w).
Proof. intros Hclosed. unfold cursor, bind, gets. simpl. by rewrite Hclosed. Qed.

Lemma cursor_fresh w0 c w :
  cursor N w0 = (Ok c, w) ->
  trace w = trace w0 ++ [ev_source (Ok tt)] /\
  dbcnx w = dbcnx w0 /\
  rowcount c = -1 /\
  description c = None /\ colnames c = None /\ coltypes c = None /\
  lastrowid c = None /\
  _src c = length (trace w0).
Proof.
  unfold cursor, Cursor_init, new_source, call_native, try_except,
    bind, gets, ret, raise.
  destruct (_cnx (dbcnx w0)) eqn:Hc; simpl; rewrite ?Hc; [|discriminate].
  destruct (nat_source N (trace w0)) as [[]|e]; simpl; [|discriminate].
  intros [= <- <-]. by repeat split.
Qed.

(** A connection made by [Connection.__init__] has its type cache
    source in the history, and so has every cursor it gives out: the
    premise [cursor_of] of the properties below. *)
Lemma Connection_init_fresh t D w :
  fst (Connection_init B N t D) = Ok w ->
  (cache_src (_type_cache (dbcnx w)) < length (trace w))%nat /\
  _tnx (dbcnx w) = false /\
  cache_items (_type_cache (dbcnx w)) = ∅.
Proof.
  unfold Connection_init.
  destruct (nat_source N t) as [[]|e]; simpl; [|discriminate].
  destruct (nat_source N (t ++ [ev_source (Ok ())])) as [[]|e]; simpl; [|discriminate].
  intros [= <-]. simpl. rewrite !length_app. simpl. repeat split. lia.
Qed.

Lemma cursor_is_cursor_of w0 c w :
  (cache_src (_type_cache (dbcnx w0)) < length (trace w0))%nat ->
  cursor N w0 = (Ok c, w) ->
  cursor_of c w.
Proof.
  intros Hcache Hnew.
  destruct (cursor_fresh _ _ _ Hnew) as (Ht & Hd & _ & _ & _ & _ & _ & Hs).
  unfold cursor_of. rewrite Ht, Hd, Hs, length_app. simpl.
  repeat split; lia.
Qed.

(** C8: [executemany] with an empty sequence of parameter sets gives
    back None and changes nothing: no native call is made, the
    transaction flag, the description, the column names and types and
    the row count are as before; on a cursor fresh from [cursor()] the
    row count is still -1. *)
Theorem executemany_empty_is_noop operation c w :
  executemany B N operation [] (c, w) = (Ok ReturnsNone, (c, w)) /\
  (forall r c' w', executemany B N operation [] (c, w) = (r, (c', w')) ->
     trace w' = trace w /\
     _tnx (dbcnx w') = _tnx (dbcnx w) /\
     description c' = description c /\
     colnames c' = colnames c /\
     coltypes c' = coltypes c /\
     rowcount c' = rowcount c /\
     (forall w0, cursor N w0 = (Ok c, w) -> rowcount c' = -1)).
Proof.
  split; [reflexivity|].
  intros r c' w' Heq.
  change (executemany B N operation [] (c, w)) with (Ok ReturnsNone, (c, w)) in Heq.
  injection Heq as <- <- <-. repeat split.
  intros w0 Hnew. by destruct (cursor_fresh _ _ _ Hnew) as (_ & _ & -> & _).
Qed.

(** ** The type cache *)

Lemma append_inv_head (p x y : string) : p +:+ x = p +:+ y -> x = y.
Proof. induction p as [|c p IH]; simpl; [done|]. intros [= H]. by apply IH. Qed.

Lemma lookup_query_inj oid oid' : lookup_query oid = lookup_query oid' -> oid = oid'.
Proof.
  unfold lookup_query. intros H%append_inv_head. by apply (inj pretty) in H.
Qed.

Lemma getdescr_hit oid w d :
  cache_items (_type_cache (dbcnx w)) !! oid = Some d ->
  getdescr B N oid w = (Ok d, w).
Proof. intros H. unfold getdescr, bind, gets; simpl. by rewrite H. Qed.

Lemma getdescr_miss oid w r w' :
  cache_items (_type_cache (dbcnx w)) !! oid = None ->
  getdescr B N oid w = (r, w') ->
  let cache := cache_src (_type_cache (dbcnx w)) in
  trace w' = trace w ++ lookup_events N cache oid (trace w) /\
  grows (lookup_event cache) w w' /\
  match r with
  | Ok d =>
      cache_items (_type_cache (dbcnx w')) =
        <[oid := d]> (cache_items (_type_cache (dbcnx w)))
  | Raise _ => dbcnx w' = dbcnx w
  end.
Proof.
  intros Hmiss Hrun cache. revert Hrun.
  unfold getdescr, lookup_events, bind, gets, call_native, lift_result, modify, ret;
    simpl. rewrite Hmiss. fold cache.
  assert (Hgrow : forall new (c : Connection),
    _cnx c = _cnx (dbcnx w) -> _tnx c = _tnx (dbcnx w) ->
    cursor_type c = cursor_type (dbcnx w) ->
    cache_src (_type_cache c) = cache ->
    cache_items (_type_cache (dbcnx w)) ⊆ cache_items (_type_cache c) ->
    Forall (lookup_event cache) new ->
    grows (lookup_event cache) w
      {| trace := trace w ++ new; Decimal := Decimal w; dbcnx := c |}).
  { intros new c ? ? ? ? ? ?. repeat split; try done. by exists new. }
  destruct (nat_execute N (trace w) cache (lookup_query oid)) as [rows|e]; simpl.
  2: { intros [= <- <-]. simpl. split; [done|]. split; [|done].
       destruct w as [t D c]; simpl in *. apply Hgrow; try done.
       by repeat constructor. }
  set (t1 := trace w ++ [ev_execute cache (lookup_query oid) (Ok rows)]).
  assert (Happ : forall ev, t1 ++ [ev] =
    trace w ++ [ev_execute cache (lookup_query oid) (Ok rows); ev]).
  { intros ev. unfold t1. by rewrite <- app_assoc. }
  assert (Hfail : forall e,
    (Raise e : result type_descr,
     set_trace (t1 ++ [ev_fetch cache 1 (nat_fetch N t1 cache 1)])
       (set_trace t1 w)) = (r, w') ->
    trace w' = trace w ++ [ev_execute cache (lookup_query oid) (Ok rows);
                           ev_fetch cache 1 (nat_fetch N t1 cache 1)] /\
    grows (lookup_event cache) w w' /\
    match r with
    | Ok d => cache_items (_type_cache (dbcnx w')) =
                <[oid := d]> (cache_items (_type_cache (dbcnx w)))
    | Raise _ => dbcnx w' = dbcnx w
    end).
  { intros e [= <- <-]. simpl. rewrite Happ. split; [done|]. split; [|done].
    destruct w as [t D c]; simpl in *. apply Hgrow; try done.
    by repeat constructor. }
  destruct (nat_fetch N t1 cache 1) as [fetched|e] eqn:Hfetch; simpl;
    [|apply Hfail].
  destruct (index fetched 0) as [row|e]; simpl; [|apply Hfail].
  destruct (index row 0) as [typname|e]; simpl; [|apply Hfail].
  destruct (index row 1) as [typlen|e]; simpl; [|apply Hfail].
  destruct (int_of_column B typlen) as [len|e]; simpl; [|apply Hfail].
  intros [= <- <-]. simpl. rewrite Happ. split; [done|]. split; [|done].
  repeat split; simpl; try done.
  - by apply insert_subseteq.
  - eexists. split; [done|]. by repeat constructor.
Qed.

Lemma getdescr_grows oid w :
  grows (lookup_event (cache_src (_type_cache (dbcnx w)))) w
    (snd (getdescr B N oid w)).
Proof.
  destruct (cache_items (_type_cache (dbcnx w)) !! oid) as [d|] eqn:Hc.
  - rewrite (getdescr_hit _ _ _ Hc). apply grows_refl.
  - destruct (getdescr B N oid w) as [r w'] eqn:Hrun.
    by destruct (getdescr_miss _ _ _ _ Hc Hrun) as (_ & ? & _).
Qed.

Lemma lookups_app src oid evs1 evs2 :
  lookups src oid (evs1 ++ evs2) = (lookups src oid evs1 + lookups src oid evs2)%nat.
Proof. unfold lookups. by rewrite List.filter_app, length_app. Qed.

Lemma lookups_lookup_events cache oid oid' t :
  lookups cache oid (lookup_events N cache oid' t) = if decide (oid = oid') then 1%nat else 0%nat.
Proof.
  unfold lookups, lookup_events.
  assert (Hq : bool_decide (Some (cache, lookup_query oid') = Some (cache, lookup_query oid))
               = if decide (oid = oid') then true else false).
  { destruct (decide (oid = oid')) as [->|Hne].
    - by apply bool_decide_eq_true.
    - apply bool_decide_eq_false. intros H. apply Hne. symmetry.
      apply lookup_query_inj. congruence. }
  destruct (nat_execute N t cache (lookup_query oid')); simpl; rewrite Hq;
    by destruct (decide (oid = oid')).
Qed.

(** ** The statement loop *)

Lemma lift2_run {A} (m : M World A) (l : Locals) (c : Cursor) w :
  lift (lift m) (l, (c, w)) = (fst (m w), (l, (c, snd (m w)))).
Proof. unfold lift; simpl. by destruct (m w). Qed.

Lemma statement_replies_app src evs1 evs2 :
  statement_replies src (evs1 ++ evs2) =
  statement_replies src evs1 ++ statement_replies src evs2.
Proof. unfold statement_replies. apply omap_app. Qed.

Lemma statement_replies_escape src evs :
  Forall escape_event evs -> statement_replies src evs = [].
Proof.
  unfold statement_replies.
  induction 1 as [|ev evs Hev _ IH]; [done|].
  destruct ev; simpl in *; done.
Qed.

Lemma affected_rows_app rs1 rs2 :
  affected_rows (rs1 ++ rs2) = affected_rows rs1 + affected_rows rs2.
Proof.
  induction rs1 as [|[[n|]|e] rs1 IH]; simpl; rewrite ?IH; lia.
Qed.

Lemma statement_text_spec operation parameters (l : Locals) (c : Cursor) w rs s1 :
  (if params_truthy B parameters
   then lift (lift (_quoteparams B N operation parameters))
   else ret operation) (l, (c, w)) = (rs, s1) ->
  exists w1, s1 = (l, (c, w1)) /\ grows escape_event w w1.
Proof.
  destruct (params_truthy B parameters).
  - rewrite lift2_run. intros [= <- <-]. eexists. split; [done|].
    apply quoteparams_frames.
  - intros [= <- <-]. eexists. split; [done|]. apply grows_refl.
Qed.

Lemma grows_snoc (P Q : event -> Prop) w w1 ev :
  (forall e, P e -> Q e) -> Q ev ->
  grows P w w1 -> grows Q w (set_trace (trace w1 ++ [ev]) w1).
Proof.
  intros HPQ Hev Hg. eapply grows_trans.
  - eapply grows_mono; eauto.
  - repeat split; try done. exists [ev]. split; [done|]. by constructor.
Qed.

Lemma escape_is_statement src ev : escape_event ev -> statement_event src ev.
Proof. by destruct ev. Qed.

Lemma execute_one_spec operation parameters l c w r l' c' w' :
  execute_one B N operation parameters (l, (c, w)) = (r, (l', (c', w'))) ->
  _src c' = _src c /\
  grows (statement_event (_src c)) w w' /\
  exists esc,
    Forall escape_event esc /\
    match r with
    | Ok _ =>
        exists sql rows,
          trace w' = trace w ++ esc ++ [ev_execute (_src c) sql (Ok rows)] /\
          local_rowcount l' = local_rowcount l + affected_rows [Ok rows]
    | Raise e =>
        trace w' = trace w ++ esc \/
        exists sql,
          trace w' = trace w ++ esc ++ [ev_execute (_src c) sql (Raise e)] /\
          local_sql l' = sql
    end.
Proof.
  unfold execute_one. intros Hrun.
  apply bind_inv in Hrun as [(sql & s1 & Hsql & Hrun)|(e & Hsql & ->)].
  2: { apply statement_text_spec in Hsql as (w1 & [= <- <- <-] & Hg).
       split; [done|]. split; [eapply grows_mono; [apply escape_is_statement|done]|].
       destruct Hg as (_ & _ & _ & _ & _ & _ & esc & Hesc & Hescs).
       exists esc. split; [done|]. by left. }
  apply statement_text_spec in Hsql as (w1 & -> & Hg).
  destruct Hg as (HD & Hc & Ht & Hy & Hs & Hi & esc & Hesc & Hescs).
  assert (Hg : grows escape_event w w1).
  { repeat split; try done. by exists esc. }
  revert Hrun. unfold bind, local_set, modify, gets; simpl.
  destruct (nat_execute N (trace w1) (_src c) sql) as [rows|e] eqn:Hexec; simpl.
  - destruct (rows_truthy rows) eqn:Htruthy; simpl; intros [= <- <- <- <-];
      (split; [done|]);
      (split; [apply (grows_snoc escape_event); auto using escape_is_statement; done|]);
      exists esc; (split; [done|]); exists sql, rows; simpl;
      rewrite Hesc, <- app_assoc; (split; [done|]).
    + destruct rows as [n|]; simpl; lia.
    + destruct rows as [n|]; simpl in *; [|lia].
      destruct (n =? 0) eqn:Hn; [|done]. apply Z.eqb_eq in Hn. lia.
  - intros [= <- <- <- <-]. split; [done|].
    split; [apply (grows_snoc escape_event); auto using escape_is_statement; done|].
    exists esc. split; [done|]. right. exists sql. simpl.
    by rewrite Hesc, <- app_assoc.
Qed.

Lemma statement_replies_one src esc sql rr :
  Forall escape_event esc ->
  statement_replies src (esc ++ [ev_execute src sql rr]) = [rr].
Proof.
  intros Hesc. rewrite statement_replies_app, (statement_replies_escape _ _ Hesc).
  unfold statement_replies; simpl. by rewrite Nat.eqb_refl.
Qed.

Lemma escape_not_execute esc src sql rr :
  Forall escape_event esc -> ~ In (ev_execute src sql rr) esc.
Proof.
  intros Hesc Hin. rewrite Forall_forall in Hesc.
  apply list_elem_of_In, Hesc in Hin. done.
Qed.

Lemma statement_loop_spec operation seq : forall l c w r l' c' w',
  for_each seq (execute_one B N operation) (l, (c, w)) = (r, (l', (c', w'))) ->
  _src c' = _src c /\
  grows (statement_event (_src c)) w w' /\
  exists new,
    trace w' = trace w ++ new /\
    match r with
    | Ok _ =>
        exists rows : list (option Z),
          statement_replies (_src c) new = map Ok rows /\
          length rows = length seq /\
          local_rowcount l' =
            local_rowcount l + affected_rows (statement_replies (_src c) new)
    | Raise e =>
        forall sql e0,
          In (ev_execute (_src c) sql (Raise e0)) new ->
          e0 = e /\ local_sql l' = sql /\
          last new = Some (ev_execute (_src c) sql (Raise e0))
    end.
Proof.
  induction seq as [|p seq IH]; intros l c w r l' c' w' Hrun.
  - injection Hrun as <- <- <- <-. split; [done|]. split; [apply grows_refl|].
    exists []. rewrite app_nil_r. split; [done|]. exists [].
    split; [done|]. split; [done|]. simpl. lia.
  - simpl in Hrun.
    apply bind_inv in Hrun as [([] & [l1 [c1 w1]] & Hone & Hrest)|(e & Hone & ->)].
    + apply execute_one_spec in Hone as (Hs1 & Hg1 & esc & Hesc & sql & rows & Ht1 & Hr1).
      apply IH in Hrest as (Hs2 & Hg2 & new2 & Ht2 & Hpost).
      rewrite Hs1 in *.
      split; [done|]. split; [by eapply grows_trans|].
      exists ((esc ++ [ev_execute (_src c) sql (Ok rows)]) ++ new2).
      split; [by rewrite Ht2, Ht1, <- !app_assoc|].
      destruct r as [[]|e].
      * destruct Hpost as (rows2 & Hrep & Hlen & Hcount).
        exists (rows :: rows2).
        rewrite statement_replies_app, statement_replies_one, Hrep by done.
        split; [done|]. split; [simpl; lia|].
        rewrite Hcount, Hr1, Hrep. destruct rows; simpl; lia.
      * intros sql0 e0 Hin. apply in_app_or in Hin as [Hin|Hin].
        -- apply in_app_or in Hin as [Hin|Hin].
           ++ by apply escape_not_execute in Hin.
           ++ destruct Hin as [[=]|[]].
        -- destruct (Hpost _ _ Hin) as (? & ? & Hlast).
           repeat split; try done. by rewrite last_app, Hlast.
    + apply execute_one_spec in Hone as (Hs1 & Hg1 & esc & Hesc & Hcase).
      split; [done|]. split; [done|].
      destruct Hcase as [Ht|(sql & Ht & Hsql)].
      * exists esc. split; [done|]. intros sql0 e0 Hin.
        by apply escape_not_execute in Hin.
      * eexists. split; [done|]. intros sql0 e0 Hin.
        apply in_app_or in Hin as [Hin|Hin].
        -- by apply escape_not_execute in Hin.
        -- destruct Hin as [[= <- <-]|[]]. by rewrite last_snoc.
Qed.

Lemma statement_failure_control msg sql err :
  statement_failure sql (control_failure msg err) = control_failure msg err.
Proof.
  unfold statement_failure. by rewrite control_failure_is_DatabaseError.
Qed.

Lemma begin_transaction_spec (l : Locals) (c : Cursor) w :
  local_sql l = "BEGIN" ->
  begin_transaction N (l, (c, w)) =
    (if _tnx (dbcnx w) then Ok tt
     else match control_result N "BEGIN" (trace w) with
          | Ok _ => Ok tt
          | Raise e => Raise (control_failure "can't start transaction" e)
          end,
     (l, (c, after_begin N w))).
Proof.
  intros Hsql. unfold begin_transaction, after_begin, began, begin_events.
  unfold bind at 1, gets at 1; simpl.
  destruct (_tnx (dbcnx w)) eqn:Ht; simpl.
  - unfold ret. rewrite app_nil_r. destruct w as [t D [cnx tnx tc ct]]; simpl in *.
    by subst.
  - unfold bind at 1, try_except, bind at 1, gets at 1; simpl.
    rewrite lift2_run, Hsql, control_command_run; simpl.
    destruct (control_result N "BEGIN" (trace w)) as [[]|e]; simpl.
    + unfold lift, modify; simpl. done.
    + unfold control_failure, raise.
      destruct w as [t D [cnx tnx tc ct]]; simpl in *. subst.
      by destruct (is_DatabaseError e).
Qed.

Lemma run_statements_spec operation seq l0 c w r l' c' w' :
  local_sql l0 = "BEGIN" ->
  run_statements B N operation seq (l0, (c, w)) = (r, (l', (c', w'))) ->
  _src c' = _src c /\
  grows (statement_event (_src c)) (after_begin N w) w' /\
  (began N w = false -> w' = after_begin N w /\ exists e, r = Raise e) /\
  exists stmts,
    trace w' = trace (after_begin N w) ++ stmts /\
    match r with
    | Ok _ =>
        began N w = true /\
        exists rows : list (option Z),
          statement_replies (_src c) stmts = map Ok rows /\
          length rows = length seq /\
          local_rowcount l' = local_rowcount l0 + affected_rows (map Ok rows)
    | Raise e =>
        forall sql e0,
          In (ev_execute (_src c) sql (Raise e0)) stmts ->
          e = statement_failure sql e0 /\
          last stmts = Some (ev_execute (_src c) sql (Raise e0))
    end.
Proof.
  intros Hsql Hrun. unfold run_statements in Hrun.
  assert (Hhandler : forall err l1 (s1 : CState),
    (let* sql := gets (fun s : Locals * CState => local_sql (fst s)) in
     if is_DatabaseError err then raise err
     else if is_Error err then
       raise (_db_error ("error in '" +:+ sql +:+ "': '"
                         +:+ exn_msg err +:+ "' ") DatabaseError)
     else
       raise (_op_error ("internal error in '" +:+ sql +:+ "': "
                         +:+ exn_msg err))) (l1, s1)
    = (Raise (statement_failure (local_sql l1) err) : result unit, (l1, s1))).
  { intros err l1 s1. unfold bind, gets, raise, statement_failure; simpl.
    destruct (is_DatabaseError err); [done|]. by destruct (is_Error err). }
  apply try_except_inv in Hrun as [([] & Hbody & ->)|(e & [l1 s1] & Hbody & Hh)].
  - apply bind_inv in Hbody as [([] & s1 & Hbegin & Hloop)|(e & _ & [=])].
    rewrite begin_transaction_spec in Hbegin by done.
    injection Hbegin as Hres <-.
    assert (Hbegan : began N w = true).
    { unfold began. destruct (_tnx (dbcnx w)); [done|].
      by destruct (control_result N "BEGIN" (trace w)). }
    apply statement_loop_spec in Hloop as (Hs & Hg & stmts & Ht & rows & Hrep & Hlen & Hcount).
    split; [done|]. split; [done|]. split; [congruence|].
    exists stmts. split; [done|]. split; [done|]. exists rows.
    by rewrite <- Hrep.
  - rewrite Hhandler in Hh. destruct s1 as [c1 w1]. injection Hh as <- <- <- <-.
    apply bind_inv in Hbody as [([] & s2 & Hbegin & Hloop)|(e' & Hbegin & [= <-])].
    + rewrite begin_transaction_spec in Hbegin by done.
      injection Hbegin as Hres <-.
      assert (Hbegan : began N w = true).
      { unfold began. destruct (_tnx (dbcnx w)); [done|].
        by destruct (control_result N "BEGIN" (trace w)). }
      apply statement_loop_spec in Hloop as (Hs & Hg & stmts & Ht & Hraise).
      split; [done|]. split; [done|]. split; [congruence|].
      exists stmts. split; [done|].
      intros sql e0 Hin. destruct (Hraise sql e0 Hin) as (-> & -> & Hlast). done.
    + rewrite begin_transaction_spec in Hbegin by done.
      injection Hbegin as Hres <- <- <-.
      assert (Hbegan : began N w = false /\
                       exists e0, e = control_failure "can't start transaction" e0).
      { unfold began. destruct (_tnx (dbcnx w)); [done|].
        destruct (control_result N "BEGIN" (trace w)) as [|e0]; [done|].
        injection Hres as <-. eauto. }
      destruct Hbegan as [Hbegan [e0 ->]].
      split; [done|]. split; [apply grows_refl|].
      rewrite statement_failure_control.
      split; [eauto|].
      exists []. rewrite app_nil_r. split; [done|]. intros sql e1 [].
Qed.

(** ** The description of the result *)

Lemma frames3_ret {A} src I P (a : A) : frames3 src I P (ret a).
Proof. intros l c w Hs Hc. split; [done|apply grows_refl]. Qed.

Lemma frames3_gets {A} src I P (f : Locals * CState -> A) :
  frames3 src I P (gets f).
Proof. intros l c w Hs Hc. split; [done|apply grows_refl]. Qed.

Lemma frames3_lift_result {A} src I P (r : result A) :
  frames3 src I P (lift_result r).
Proof. intros l c w Hs Hc. split; [done|apply grows_refl]. Qed.

Lemma frames3_bind {A C} src (I : World -> Prop) P (m : M (Locals * CState) A)
    (k : A -> M (Locals * CState) C) :
  (forall w w', I w -> grows P w w' -> I w') ->
  frames3 src I P m -> (forall a, frames3 src I P (k a)) ->
  frames3 src I P (bind m k).
Proof.
  intros Hstable Hm Hk l c w Hs Hc. unfold bind. specialize (Hm l c w Hs Hc).
  destruct (m (l, (c, w))) as [[a|e] [l1 [c1 w1]]]; simpl in *; [|done].
  destruct Hm as [Hs1 Hg1].
  destruct (Hk a l1 c1 w1 Hs1 (Hstable _ _ Hc Hg1)) as [Hs2 Hg2].
  split; [done|]. by eapply grows_trans.
Qed.

Lemma frames3_lift2 {A} src (I : World -> Prop) P (m : M World A) :
  (forall w, I w -> grows P w (snd (m w))) ->
  frames3 src I P (lift (lift m)).
Proof.
  intros Hm l c w Hs Hc. rewrite lift2_run. simpl. split; [done|]. by apply Hm.
Qed.

Lemma frames3_self_set src I P (f : Cursor -> Cursor) :
  (forall c, _src (f c) = _src c) ->
  frames3 src I P (lift (self_set f)).
Proof.
  intros Hf l c w Hs Hc. simpl. split; [by rewrite Hf|apply grows_refl].
Qed.

Lemma caches_stable cache entry P w w' :
  caches cache entry w -> grows P w w' -> caches cache entry w'.
Proof.
  intros [Hsrc Hentry] (_ & _ & _ & _ & Hs & Hsub & _). split; [congruence|].
  destruct entry as [[oid d]|]; [|done]. by eapply lookup_weaken.
Qed.

Lemma grows_and (P Q : event -> Prop) w w' :
  grows P w w' ->
  (forall new, trace w' = trace w ++ new -> Forall Q new) ->
  grows (fun ev => P ev /\ Q ev) w w'.
Proof.
  intros (HD & Hc & Ht & Hy & Hs & Hi & new & Hn & HP) HQ.
  repeat split; try done. exists new. split; [done|].
  specialize (HQ new Hn). rewrite Forall_forall in *. auto.
Qed.

Lemma lookup_events_not_lookup cache entry oid t w :
  caches cache entry w ->
  cache_items (_type_cache (dbcnx w)) !! oid = None ->
  Forall (not_lookup cache entry) (lookup_events N cache oid t).
Proof.
  intros [_ Hentry] Hmiss.
  assert (Hq : forall r, not_lookup cache entry (ev_execute cache (lookup_query oid) r)).
  { intros r. destruct entry as [[oid' d]|]; [|done]. simpl.
    intros Heq. assert (oid = oid') as -> by (apply lookup_query_inj; congruence).
    congruence. }
  assert (Hf : forall r, not_lookup cache entry (ev_fetch cache 1 r)).
  { intros r. by destruct entry as [[oid' d]|]. }
  unfold lookup_events.
  destruct (nat_execute N t cache (lookup_query oid)); repeat constructor; auto.
Qed.

(** A resolution in a world where an entry is cached makes no lookup for
    the oid of that entry. *)
Lemma getdescr_quiet cache entry oid w :
  caches cache entry w ->
  grows (fun ev => lookup_event cache ev /\ not_lookup cache entry ev) w
    (snd (getdescr B N oid w)).
Proof.
  intros Hcaches. pose proof Hcaches as [Hsrc _].
  destruct (cache_items (_type_cache (dbcnx w)) !! oid) as [d|] eqn:Hc.
  - rewrite (getdescr_hit _ _ _ Hc). apply grows_refl.
  - destruct (getdescr B N oid w) as [r w'] eqn:Hrun.
    destruct (getdescr_miss _ _ _ _ Hc Hrun) as (Ht & Hg & _). simpl.
    rewrite Hsrc in Ht, Hg. apply grows_and; [done|].
    intros new Hnew. rewrite Ht in Hnew. apply app_inv_head in Hnew as <-.
    by eapply lookup_events_not_lookup.
Qed.

Lemma describe_column_quiet cache entry info w :
  caches cache entry w ->
  grows (fun ev => lookup_event cache ev /\ not_lookup cache entry ev) w
    (snd (describe_column B N info w)).
Proof.
  intros Hcaches. unfold describe_column, bind, ret.
  pose proof (getdescr_quiet cache entry (snd info) w Hcaches) as Hg.
  by destruct (getdescr B N (snd info) w) as [[d|e] w1].
Qed.

Lemma describe_columns_quiet cache entry infos : forall w,
  caches cache entry w ->
  grows (fun ev => lookup_event cache ev /\ not_lookup cache entry ev) w
    (snd (map_m (describe_column B N) infos w)).
Proof.
  induction infos as [|info infos IH]; intros w Hcaches; simpl.
  - apply grows_refl.
  - unfold bind at 1. pose proof (describe_column_quiet cache entry info w Hcaches) as Hg.
    destruct (describe_column B N info w) as [[d|e] w1]; simpl in *; [|done].
    unfold bind at 1. specialize (IH w1 (caches_stable _ _ _ _ _ Hcaches Hg)).
    destruct (map_m (describe_column B N) infos w1) as [[ds|e] w2]; simpl in *;
      by eapply grows_trans.
Qed.

Lemma lookup_is_describe src cache ev : lookup_event cache ev -> describe_event src cache ev.
Proof. by destruct ev. Qed.

Lemma describe_rows_frames src cache entry :
  frames3 src (caches cache entry)
    (fun ev => describe_event src cache ev /\ not_lookup cache entry ev)
    (describe_rows B N src).
Proof.
  set (P := fun ev => describe_event src cache ev /\ not_lookup cache entry ev).
  assert (Hstable : forall w w', caches cache entry w -> grows P w w' ->
                                 caches cache entry w').
  { intros w w'. apply caches_stable. }
  assert (Hcall : forall A ask (ev : result A -> event),
    (forall r, describe_event src cache (ev r)) ->
    (forall r, ev_execute_of (ev r) = None) ->
    frames3 src (caches cache entry) P (lift (lift (call_native ask ev)))).
  { intros A ask ev Hev Hnone. apply frames3_lift2. intros w _.
    apply frames_call_native. intros r. split; [done|].
    destruct entry as [[oid d]|]; [|done]. simpl. by rewrite Hnone. }
  unfold describe_rows.
  apply frames3_bind; [done|by apply Hcall|]. intros n.
  apply frames3_bind; [done|by apply frames3_self_set|]. intros _.
  apply frames3_bind; [done|by apply Hcall|]. intros infos.
  apply frames3_bind; [done| |].
  { apply frames3_lift2. intros w Hcaches. eapply grows_mono;
      [|by apply describe_columns_quiet].
    intros ev [Hev Hnot]. split; [by apply lookup_is_describe|done]. }
  intros ds.
  repeat (apply frames3_bind; [done|by apply frames3_self_set|]; intros _).
  apply frames3_bind; [done|apply frames3_gets|]. intros dynamic.
  destruct dynamic; [|apply frames3_ret].
  apply frames3_bind; [done|apply frames3_gets|]. intros build.
  apply frames3_bind; [done|apply frames3_gets|]. intros names.
  apply frames3_bind; [done|apply frames3_lift_result|]. intros factory.
  by apply frames3_self_set.
Qed.

Lemma count_rows_run src (l : Locals) (c : Cursor) w :
  count_rows N src (l, (c, w)) =
    let oid := nat_oidstatus N (trace w) src in
    (match oid with Ok _ => Ok tt | Raise e => Raise e end,
     (l, (match oid with
          | Ok v => set_lastrowid v (set_rowcount (local_rowcount l) c)
          | Raise _ => set_rowcount (local_rowcount l) c
          end,
          set_trace (trace w ++ [ev_oidstatus src oid]) w))).
Proof.
  unfold count_rows, bind, gets, call_native; simpl.
  by destruct (nat_oidstatus N (trace w) src).
Qed.

Lemma no_execute_not_lookup cache entry ev :
  ev_execute_of ev = None -> not_lookup cache entry ev.
Proof. intros H. destruct entry as [[oid d]|]; [|done]. simpl. by rewrite H. Qed.

Lemma describe_result_spec l c w r l' c' w' :
  describe_result B N (l, (c, w)) = (r, (l', (c', w'))) ->
  let rt := nat_resulttype N (trace w) (_src c) in
  let cache := cache_src (_type_cache (dbcnx w)) in
  _src c' = _src c /\
  grows (describe_event (_src c) cache) w w' /\
  (forall entry new,
     caches cache entry w -> trace w' = trace w ++ new ->
     Forall (not_lookup cache entry) new) /\
  exists rest,
    trace w' = trace w ++ ev_resulttype (_src c) rt :: rest /\
    (r = Ok tt -> is_ok rt = true) /\
    (forall t, rt = Ok t -> t <> RESULT_DQL N -> r = Ok tt ->
       exists oid, rest = [ev_oidstatus (_src c) (Ok oid)] /\
                   rowcount c' = local_rowcount l /\
                   lastrowid c' = oid).
Proof.
  intros Hrun rt cache. unfold describe_result in Hrun.
  unfold bind at 1, gets at 1 in Hrun. simpl in Hrun.
  unfold describe_result_of in Hrun.
  unfold bind at 1 in Hrun. rewrite lift2_run in Hrun.
  unfold call_native in Hrun. simpl in Hrun. fold rt in Hrun.
  set (w1 := set_trace (trace w ++ [ev_resulttype (_src c) rt]) w) in *.
  assert (Hg1 : grows (describe_event (_src c) cache) w w1).
  { repeat split; try done. eexists. split; [done|]. by repeat constructor. }
  assert (Hshort : forall evs,
    trace w' = trace w ++ evs ->
    Forall (fun ev => ev_execute_of ev = None) evs ->
    forall entry new, caches cache entry w -> trace w' = trace w ++ new ->
                      Forall (not_lookup cache entry) new).
  { intros evs Ht Hevs entry new _ Hnew. rewrite Ht in Hnew.
    apply app_inv_head in Hnew as <-.
    eapply Forall_impl; [done|]. apply no_execute_not_lookup. }
  destruct rt as [t|e] eqn:Hrt.
  - destruct (t =? RESULT_DQL N) eqn:Hdql.
    + assert (Hrows : forall entry, caches cache entry w ->
        grows (fun ev => describe_event (_src c) cache ev /\ not_lookup cache entry ev)
          w1 w').
      { intros entry Hcaches.
        pose proof (describe_rows_frames (_src c) cache entry l c w1 eq_refl Hcaches)
          as [_ Hg].
        by rewrite Hrun in Hg. }
      pose proof (describe_rows_frames (_src c) cache None l c w1 eq_refl
                    (conj eq_refl I)) as [Hs _].
      rewrite Hrun in Hs. simpl in Hs.
      assert (Hg : grows (describe_event (_src c) cache) w1 w').
      { eapply grows_mono; [|apply (Hrows None (conj eq_refl I))]. by intros ev [? _]. }
      split; [done|]. split; [by eapply grows_trans|].
      split.
      { intros entry new Hcaches Hnew.
        destruct (Hrows entry Hcaches) as (_ & _ & _ & _ & _ & _ & rest & Ht & Hrest).
        simpl in Ht. rewrite Ht, <- app_assoc in Hnew.
        apply app_inv_head in Hnew as <-.
        constructor; [by apply no_execute_not_lookup|].
        eapply Forall_impl; [done|]. by intros ev [_ ?]. }
      destruct Hg as (_ & _ & _ & _ & _ & _ & rest & Ht & _).
      exists rest. split; [by rewrite Ht; unfold w1; simpl; rewrite <- app_assoc|].
      split; [done|].
      intros t' [= <-] Hne. apply Z.eqb_eq in Hdql. done.
    + rewrite count_rows_run in Hrun. simpl in Hrun.
      destruct (nat_oidstatus N (trace w ++ [ev_resulttype (_src c) (Ok t)]) (_src c))
        as [oid|e] eqn:Hoid; injection Hrun as <- <- <- <-.
      * split; [done|]. split.
        { eapply grows_trans; [done|]. repeat split; try done.
          eexists. split; [done|]. by repeat constructor. }
        split.
        { eapply Hshort; [simpl; by rewrite <- app_assoc|]. by repeat constructor. }
        eexists. split; [simpl; by rewrite <- app_assoc|].
        split; [done|].
        intros t' _ _ _. eauto.
      * split; [done|]. split.
        { eapply grows_trans; [done|]. repeat split; try done.
          eexists. split; [done|]. by repeat constructor. }
        split.
        { eapply Hshort; [simpl; by rewrite <- app_assoc|]. by repeat constructor. }
        eexists. split; [simpl; by rewrite <- app_assoc|].
        split; [done|].
        intros t' _ _ [=].
  - injection Hrun as <- <- <- <-. split; [done|]. split; [done|].
    split. { eapply Hshort; [done|]. by repeat constructor. }
    exists []. split; [done|]. split; [done|]. intros t [=].
Qed.

(** ** [executemany] as a whole *)

Lemma with_locals_inv {S A} l (m : M (Locals * S) A) s r s' :
  with_locals l m s = (r, s') -> exists l', m (l, s) = (r, (l', s')).
Proof.
  unfold with_locals. destruct (m (l, s)) as [r1 [l1 s1]]. simpl.
  intros [= <- <-]. eauto.
Qed.

Lemma executemany_unfold operation seq c w r c' w' :
  seq <> [] ->
  executemany B N operation seq (c, w) = (r, (c', w')) ->
  exists l' rr,
    (run_statements B N operation seq ;;; describe_result B N)
      ({| local_sql := "BEGIN"; local_rowcount := 0 |}, (reset_result c, w))
      = (rr, (l', (c', w'))) /\
    r = match rr with Ok _ => Ok ReturnsSelf | Raise e => Raise e end.
Proof.
  intros Hseq Hrun. destruct seq as [|p ps]; [done|].
  unfold executemany in Hrun.
  apply bind_inv in Hrun as [([] & s0 & Hreset & Hrun)|(e & [=] & _)].
  injection Hreset as <-.
  apply bind_inv in Hrun as [([] & s1 & Hbody & Hret)|(e & Hbody & ->)].
  - injection Hret as <- <-.
    apply with_locals_inv in Hbody as [l' Hbody]. by exists l', (Ok tt).
  - apply with_locals_inv in Hbody as [l' Hbody]. by exists l', (Raise e).
Qed.

Lemma executemany_spec operation seq c w r c' w' :
  seq <> [] ->
  executemany B N operation seq (c, w) = (r, (c', w')) ->
  _src c' = _src c /\
  grows (fun _ => True) (after_begin N w) w' /\
  exists stmts tail,
    trace w' = trace w ++ begin_events N w ++ stmts ++ tail /\
    Forall (statement_event (_src c)) stmts /\
    Forall (describe_event (_src c) (cache_src (_type_cache (dbcnx w)))) tail /\
    (began N w = false -> stmts = [] /\ tail = [] /\ exists e, r = Raise e) /\
    (forall sql e0,
       In (ev_execute (_src c) sql (Raise e0)) stmts ->
       r = Raise (statement_failure sql e0) /\ tail = [] /\
       last stmts = Some (ev_execute (_src c) sql (Raise e0))) /\
    (forall ret, r = Ok ret ->
       began N w = true /\
       exists rows rt rest,
         statement_replies (_src c) stmts = map Ok rows /\
         length rows = length seq /\
         tail = ev_resulttype (_src c) (Ok rt) :: rest /\
         (rt <> RESULT_DQL N ->
            exists oid,
              rest = [ev_oidstatus (_src c) (Ok oid)] /\
              rowcount c' = affected_rows (map Ok rows) /\
              lastrowid c' = oid)) /\
    (forall entry,
       caches (cache_src (_type_cache (dbcnx w))) entry w ->
       Forall (not_lookup (cache_src (_type_cache (dbcnx w))) entry) tail).
Proof.
  intros Hseq Hrun.
  destruct (executemany_unfold _ _ _ _ _ _ _ Hseq Hrun) as (l' & rr & Hbody & ->).
  clear Hrun.
  assert (Hany : forall (P : event -> Prop) ev, P ev -> (fun _ : event => True) ev) by done.
  assert (Hcache : cache_src (_type_cache (dbcnx (after_begin N w)))
                   = cache_src (_type_cache (dbcnx w))) by done.
  apply bind_inv in Hbody as [([] & [l1 [c1 w1]] & Hstmts & Hdescr)|(e & Hstmts & ->)].
  - apply run_statements_spec in Hstmts
      as (Hs1 & Hg1 & _ & stmts & Ht1 & Hbegan & rows & Hrep & Hlen & Hcount); [|done].
    change (_src (reset_result c)) with (_src c) in *. simpl in Hcount.
    assert (Hc1 : cache_src (_type_cache (dbcnx w1)) = cache_src (_type_cache (dbcnx w))).
    { destruct Hg1 as (_ & _ & _ & _ & -> & _). done. }
    apply describe_result_spec in Hdescr as (Hs2 & Hg2 & Hquiet & rest & Ht2 & Hok & Hplain).
    rewrite Hs1, Hc1 in *.
    split; [done|].
    split. { eapply grows_trans; eapply grows_mono; eauto. }
    exists stmts, (ev_resulttype (_src c) (nat_resulttype N (trace w1) (_src c)) :: rest).
    split. { rewrite Ht2, Ht1. simpl. by rewrite <- !app_assoc. }
    split. { eapply grows_new; eauto. }
    split. { eapply grows_new; eauto. }
    split; [congruence|].
    split.
    { intros sql e0 Hin. exfalso.
      assert (Hin' : In (Raise e0) (statement_replies (_src c) stmts)).
      { unfold statement_replies. apply list_elem_of_In, list_elem_of_omap.
        exists (ev_execute (_src c) sql (Raise e0)). split; [by apply list_elem_of_In|].
        simpl. by rewrite Nat.eqb_refl. }
      rewrite Hrep in Hin'. apply in_map_iff in Hin' as (x & [=] & _). }
    split.
    { intros ret Hret. split; [done|].
      destruct rr as [[]|e]; [|done].
      destruct (nat_resulttype N (trace w1) (_src c)) as [rt|e] eqn:Hrt.
      + exists rows, rt, rest. repeat split; try done.
        intros Hne. destruct (Hplain rt eq_refl Hne eq_refl) as (oid & -> & Hrc & Hoid).
        exists oid. repeat split; try done. rewrite Hrc, Hcount. lia.
      + by specialize (Hok eq_refl). }
    intros entry Hcaches. apply (Hquiet entry); [|done].
    eapply caches_stable; [|exact Hg1].
    destruct Hcaches as [? ?]. split; done.
  - apply run_statements_spec in Hstmts
      as (Hs1 & Hg1 & Hnot & stmts & Ht1 & Hraise); [|done].
    change (_src (reset_result c)) with (_src c) in *.
    split; [done|]. split; [eapply grows_mono; eauto|].
    exists stmts, []. rewrite app_nil_r.
    split. { rewrite Ht1. simpl. by rewrite <- app_assoc. }
    split. { eapply grows_new; eauto. }
    split; [done|].
    split.
    { intros Hb. destruct (Hnot Hb) as [-> Hr]. split; [|split; [done|eauto]].
      apply (app_inv_head (trace (after_begin N w))). by rewrite app_nil_r. }
    split; [|split; [done|by intros; constructor]].
    intros sql e0 Hin. destruct (Hraise sql e0 Hin) as [-> Hlast]. done.
Qed.

Lemma control_commands_app base evs1 evs2 :
  control_commands base (evs1 ++ evs2) =
  control_commands base evs1 ++ control_commands base evs2.
Proof. unfold control_commands. apply omap_app. Qed.

Lemma sources_created_app evs1 evs2 :
  sources_created (evs1 ++ evs2) = (sources_created evs1 + sources_created evs2)%nat.
Proof. unfold sources_created. by rewrite List.filter_app, length_app. Qed.

Lemma session_events_quiet base src cache evs :
  (src < base)%nat -> (cache < base)%nat ->
  Forall (session_event src cache) evs ->
  control_commands base evs = [] /\ sources_created evs = 0%nat.
Proof.
  intros Hsrc Hcache. unfold control_commands, sources_created.
  induction 1 as [|ev evs Hev _ [IH1 IH2]]; [done|].
  destruct ev as [r|r|s r|b r|s sql r|s n r|s r|s r|s r|s r|s r]; simpl; try done;
    destruct Hev as [Hev|Hev]; simpl in Hev; try done;
    (destruct (Nat.leb_spec base s); [lia|done]).
Qed.

Lemma statement_replies_describe src cache evs :
  src <> cache ->
  Forall (describe_event src cache) evs -> statement_replies src evs = [].
Proof.
  intros Hne. unfold statement_replies.
  induction 1 as [|ev evs Hev _ IH]; [done|].
  destruct ev as [r|r|s r|b r|s sql r|s n r|s r|s r|s r|s r|s r];
    simpl in *; try done.
  destruct (Nat.eqb_spec s src); [congruence|done].
Qed.

Lemma control_events_shape sql t :
  control_commands (length t) (control_events N sql t) =
    (if is_ok (nat_source N t) then [sql] else []) /\
  sources_created (control_events N sql t) = 1%nat /\
  (forall src, (src < length t)%nat ->
     statement_replies src (control_events N sql t) = []) /\
  (is_ok (control_result N sql t) = true ->
     exists reply,
       control_events N sql t =
         [ev_source (Ok tt); ev_execute (length t) sql (Ok reply)]).
Proof.
  unfold control_events, control_result, control_commands, sources_created,
    statement_replies.
  destruct (nat_source N t) as [[]|e]; simpl.
  - rewrite Nat.leb_refl. repeat split; try done.
    + intros src Hsrc. destruct (Nat.eqb_spec (length t) src); [lia|done].
    + destruct (nat_execute N _ _ sql) as [reply|e]; [eauto|done].
  - repeat split; done.
Qed.

Lemma begin_events_shape w :
  control_commands (length (trace w)) (begin_events N w) =
    (if _tnx (dbcnx w) then []
     else if is_ok (nat_source N (trace w)) then ["BEGIN"] else []) /\
  sources_created (begin_events N w) = (if _tnx (dbcnx w) then 0%nat else 1%nat) /\
  (forall src, (src < length (trace w))%nat ->
     statement_replies src (begin_events N w) = []).
Proof.
  unfold begin_events. destruct (_tnx (dbcnx w)); [done|].
  by destruct (control_events_shape "BEGIN" (trace w)) as (? & ? & ? & _).
Qed.

Lemma execute_as_executemany operation parameters :
  exists seq, seq <> [] /\
    execute B N operation parameters = executemany B N operation seq.
Proof.
  unfold execute.
  destruct parameters as [d|[| | | | | | | | |[|[] rest]| |]];
    (eexists; split; [|reflexivity]; done).
Qed.

Lemma call_grows call c w r c' w' :
  run_call B N call (c, w) = (r, (c', w')) ->
  (exists operation, call = CallExecutemany operation [] /\ r = Ok ReturnsNone /\
                     c' = c /\ w' = w) \/
  (exists operation seq, seq <> [] /\
     executemany B N operation seq (c, w) = (r, (c', w'))).
Proof.
  destruct call as [operation parameters|operation [|p ps]]; simpl.
  - destruct (execute_as_executemany operation parameters) as (seq & Hseq & ->).
    right. eauto.
  - intros [= <- <- <-]. left. eauto.
  - right. exists operation, (p :: ps). done.
Qed.

(** A statement call made while a transaction is open. *)
Lemma call_in_transaction call c w r c' w' :
  cursor_of c w -> _tnx (dbcnx w) = true ->
  run_call B N call (c, w) = (r, (c', w')) ->
  cursor_of c' w' /\ _tnx (dbcnx w') = true /\
  _src c' = _src c /\
  exists new,
    trace w' = trace w ++ new /\
    Forall (session_event (_src c) (cache_src (_type_cache (dbcnx w)))) new.
Proof.
  intros (Hsrc & Hcache & Hne) Htnx Hrun.
  apply call_grows in Hrun as [(op & _ & _ & -> & ->)|(op & seq & Hseq & Hrun)].
  { repeat split; try done. exists []. by rewrite app_nil_r. }
  apply executemany_spec in Hrun
    as (Hs & Hg & stmts & tail & Ht & Hstmts & Htail & _); [|done].
  assert (Hbegin : begin_events N w = []) by (unfold begin_events; by rewrite Htnx).
  assert (Hbegan : began N w = true) by (unfold began; by rewrite Htnx).
  rewrite Hbegin in Ht. simpl in Ht.
  destruct Hg as (_ & _ & Htnx' & _ & Hcs & _).
  simpl in Htnx', Hcs. rewrite Hbegan in Htnx'.
  split.
  { unfold cursor_of. rewrite Hs, Hcs, Ht, !length_app. repeat split; [lia|lia|done]. }
  split; [done|]. split; [done|].
  exists (stmts ++ tail). split; [done|].
  apply Forall_app. split; (eapply Forall_impl; [eassumption|]); intros ev Hev;
    [by left|by right].
Qed.

Lemma own_commands_app base cursors evs1 evs2 :
  own_commands base cursors (evs1 ++ evs2) =
  own_commands base cursors evs1 ++ own_commands base cursors evs2.
Proof. unfold own_commands. apply omap_app. Qed.

Lemma own_commands_mono base cursors cursors' evs :
  (forall src, src ∈ _src <$> cursors -> src ∈ _src <$> cursors') ->
  own_commands base cursors evs = [] ->
  own_commands base cursors' evs = [].
Proof.
  intros Hsub. unfold own_commands.
  induction evs as [|ev evs IH]; [done|].
  destruct ev as [r|r|s r|b r|s sql r|s n r|s r|s r|s r|s r|s r]; simpl; try done.
  destruct (base <=? s)%nat; simpl; [|done].
  destruct (decide (s ∈ _src <$> cursors)) as [Hin|Hout].
  - rewrite (bool_decide_eq_true_2 _ Hin), (bool_decide_eq_true_2 _ (Hsub _ Hin)).
    simpl. exact IH.
  - rewrite (bool_decide_eq_false_2 _ Hout). simpl. discriminate.
Qed.

Lemma session_events_own base cursors src cache evs :
  (cache < base)%nat -> src ∈ _src <$> cursors ->
  Forall (session_event src cache) evs ->
  own_commands base cursors evs = [] /\ sources_created evs = 0%nat.
Proof.
  intros Hcache Hin. unfold own_commands, sources_created.
  induction 1 as [|ev evs Hev _ [IH1 IH2]]; [done|].
  destruct ev as [r|r|s r|b r|s sql r|s n r|s r|s r|s r|s r|s r]; simpl; try done;
    destruct Hev as [Hev|Hev]; simpl in Hev; try done; subst s.
  - rewrite (bool_decide_eq_true_2 _ Hin). simpl. by rewrite andb_false_r.
  - destruct (Nat.leb_spec base cache); [lia|done].
Qed.

Lemma cursor_of_later c w w' new :
  cursor_of c w ->
  trace w' = trace w ++ new ->
  cache_src (_type_cache (dbcnx w')) = cache_src (_type_cache (dbcnx w)) ->
  cursor_of c w'.
Proof.
  intros (Hsrc & Hcache & Hne) Ht Hcs. unfold cursor_of.
  rewrite Hcs, Ht, length_app. repeat split; [lia|lia|done].
Qed.

(** What the caller does on the connection while a transaction is
    open: the cursors it holds keep their source objects, the flag
    stays set, and the only native calls besides those of its cursors
    and of the type cache are the source objects of the new cursors. *)
Lemma connection_in_transaction base steps : forall cursors w,
  (cache_src (_type_cache (dbcnx w)) < base)%nat ->
  (base <= length (trace w))%nat ->
  _tnx (dbcnx w) = true ->
  Forall (fun c => cursor_of c w) cursors ->
  _tnx (dbcnx (snd (run_connection B N steps (cursors, w)))) = true /\
  (forall src, src ∈ _src <$> cursors ->
               src ∈ _src <$> fst (run_connection B N steps (cursors, w))) /\
  exists later,
    trace (snd (run_connection B N steps (cursors, w))) = trace w ++ later /\
    own_commands base (fst (run_connection B N steps (cursors, w))) later = [] /\
    (sources_created later <= cursor_steps steps)%nat.
Proof.
  induction steps as [|step steps IH]; intros cursors w Hcache Hbase Htnx Hall.
  { simpl. split; [done|]. split; [done|]. exists []. rewrite app_nil_r.
    split; [done|]. split; [done|]. unfold sources_created, cursor_steps. simpl. lia. }
  assert (Hstep : exists cursors1 w1 new,
    run_connection_step B N step (cursors, w) = (cursors1, w1) /\
    trace w1 = trace w ++ new /\
    cache_src (_type_cache (dbcnx w1)) = cache_src (_type_cache (dbcnx w)) /\
    _tnx (dbcnx w1) = true /\
    Forall (fun c => cursor_of c w1) cursors1 /\
    (forall src, src ∈ _src <$> cursors -> src ∈ _src <$> cursors1) /\
    own_commands base cursors1 new = [] /\
    (sources_created new <= cursor_steps [step])%nat).
  { destruct step as [|i call]; simpl.
    - destruct (_cnx (dbcnx w)) as [h|] eqn:Hopen.
      + rewrite (cursor_open w h Hopen).
        set (new := [ev_source (nat_source N (trace w))]).
        assert (Hold : Forall (fun c => cursor_of c (set_trace (trace w ++ new) w))
                         cursors).
        { eapply Forall_impl; [exact Hall|]. intros c Hof.
          by apply (cursor_of_later c w _ new). }
        destruct (nat_source N (trace w)) as [u|e]; simpl.
        * eexists _, _, new. split; [reflexivity|]. split; [done|]. split; [done|].
          split; [done|]. split.
          { apply Forall_app. split; [exact Hold|]. apply Forall_singleton.
            unfold cursor_of. simpl. rewrite length_app. simpl.
            repeat split; lia. }
          split; [intros src Hin; rewrite fmap_app; apply elem_of_app; by left|].
          split; [done|]. unfold sources_created, cursor_steps. simpl. lia.
        * eexists _, _, new. split; [reflexivity|]. split; [done|]. split; [done|].
          split; [done|]. split; [exact Hold|]. split; [done|].
          split; [done|]. unfold sources_created, cursor_steps. simpl. lia.
      + rewrite (cursor_closed w Hopen).
        exists cursors, w, []. rewrite app_nil_r. split; [reflexivity|].
        split; [done|]. split; [done|]. split; [done|]. split; [done|].
        split; [done|]. split; [done|]. unfold sources_created, cursor_steps.
        simpl. lia.
    - destruct (cursors !! i) as [c|] eqn:Hi.
      2: { exists cursors, w, []. rewrite app_nil_r. split; [reflexivity|].
           split; [done|]. split; [done|]. split; [done|]. split; [done|].
           split; [done|]. split; [done|]. unfold sources_created, cursor_steps.
           simpl. lia. }
      pose proof (Forall_lookup_1 _ _ _ _ Hall Hi) as Hof.
      destruct (run_call B N call (c, w)) as [r [c1 w1]] eqn:Hrun. simpl.
      destruct (call_in_transaction _ _ _ _ _ _ Hof Htnx Hrun)
        as (Hof1 & Htnx1 & Hs1 & new & Ht1 & Hnew).
      assert (Hcs : cache_src (_type_cache (dbcnx w1))
                    = cache_src (_type_cache (dbcnx w))).
      { apply call_grows in Hrun as [(op & _ & _ & -> & ->)|(op & seq & Hseq & Hrun)];
          [done|].
        apply executemany_spec in Hrun as (_ & Hg & _); [|done].
        by destruct Hg as (_ & _ & _ & _ & ? & _). }
      assert (Hsrcs : _src <$> <[i := c1]> cursors = _src <$> cursors).
      { rewrite list_fmap_insert, Hs1. apply list_insert_id.
        by rewrite list_lookup_fmap, Hi. }
      assert (Hin : _src c ∈ _src <$> cursors).
      { apply list_elem_of_fmap. exists c. split; [done|].
        by apply list_elem_of_lookup_2 in Hi. }
      assert (Hin1 : _src c ∈ _src <$> <[i := c1]> cursors) by (by rewrite Hsrcs).
      destruct (session_events_own base (<[i := c1]> cursors) (_src c) _ new
                  Hcache Hin1 Hnew) as [Hown Hsc].
      exists (<[i := c1]> cursors), w1, new. split; [reflexivity|].
      split; [done|]. split; [done|]. split; [done|].
      split.
      { apply Forall_insert; [|done].
        eapply Forall_impl; [exact Hall|]. intros c2 Hof2.
        by apply (cursor_of_later c2 w _ new). }
      split; [by rewrite Hsrcs|]. split; [done|]. rewrite Hsc. lia. }
  destruct Hstep as (cursors1 & w1 & new & Hrun & Ht1 & Hcs & Htnx1 & Hall1 & Hsub1
                     & Hown1 & Hsc1).
  cbn [run_connection]. rewrite Hrun.
  destruct (IH cursors1 w1) as (Htnx2 & Hsub2 & later & Ht2 & Hown2 & Hsc2).
  - by rewrite Hcs.
  - rewrite Ht1, length_app. lia.
  - exact Htnx1.
  - exact Hall1.
  - split; [done|]. split; [by intros src Hin; apply Hsub2, Hsub1|].
    exists (new ++ later). split; [by rewrite Ht2, Ht1, app_assoc|].
    split.
    + rewrite own_commands_app, Hown2, app_nil_r.
      by apply (own_commands_mono base cursors1).
    + rewrite sources_created_app.
      change (step :: steps) with ([step] ++ steps).
      unfold cursor_steps in *. rewrite List.filter_app, length_app. lia.
Qed.

(** C1: a call that has a statement to run, made on a cursor of the
    connection while the transaction flag is not set, starts with the
    native calls of one [BEGIN], on a source object of its own, before
    anything runs on the cursor; nothing else in the call creates a
    source object or issues a command of its own, so exactly one
    [BEGIN] is issued (none when no source object could be created);
    the flag is set afterwards exactly when the [BEGIN] succeeded, and
    when it failed nothing follows it and the call raises.  Once the
    flag is set, whatever the caller then does on the connection short
    of [commit], [rollback] and [close] (creating cursors, making
    [execute] and [executemany] calls on whichever cursors it has, old
    or new), the flag stays set, no command is issued on a source
    object that is no cursor's, and no source object is created except
    by the [cursor()] calls. *)
Theorem implicit_begin_once call c w r c1 w1 :
  cursor_of c w ->
  _tnx (dbcnx w) = false ->
  (forall operation, call <> CallExecutemany operation []) ->
  run_call B N call (c, w) = (r, (c1, w1)) ->
  let base := length (trace w) in
  let begin := control_events N "BEGIN" (trace w) in
  exists rest,
    trace w1 = trace w ++ begin ++ rest /\
    statement_replies (_src c) begin = [] /\
    sources_created (begin ++ rest) = 1%nat /\
    control_commands base (begin ++ rest) =
      (if is_ok (nat_source N (trace w)) then ["BEGIN"] else []) /\
    _tnx (dbcnx w1) = is_ok (control_result N "BEGIN" (trace w)) /\
    (is_ok (control_result N "BEGIN" (trace w)) = false ->
     rest = [] /\ exists e, r = Raise e) /\
    (is_ok (control_result N "BEGIN" (trace w)) = true ->
     (exists reply,
        begin = [ev_source (Ok tt); ev_execute base "BEGIN" (Ok reply)]) /\
     forall cursors steps,
       Forall (fun c' => cursor_of c' w) cursors ->
       let s2 := run_connection B N steps (cursors, w1) in
       _tnx (dbcnx (snd s2)) = true /\
       exists later,
         trace (snd s2) = trace w1 ++ later /\
         own_commands base (fst s2) later = [] /\
         (sources_created later <= cursor_steps steps)%nat).
Proof.
  intros Hof Htnx Hcall Hrun base begin. subst begin.
  set (begin := control_events N "BEGIN" (trace w)).
  pose proof Hof as (Hsrc & Hcache & Hne).
  apply call_grows in Hrun as [(op & -> & _)|(op & seq & Hseq & Hrun)].
  { by destruct (Hcall op). }
  apply executemany_spec in Hrun
    as (Hs & Hg & stmts & tail & Ht & Hstmts & Htail & Hnot & _); [|done].
  assert (Hbegin : begin_events N w = begin).
  { unfold begin_events. by rewrite Htnx. }
  assert (Hbegan : began N w = is_ok (control_result N "BEGIN" (trace w))).
  { unfold began. by rewrite Htnx. }
  rewrite Hbegin in Ht.
  assert (Hquiet : Forall (session_event (_src c) (cache_src (_type_cache (dbcnx w))))
                     (stmts ++ tail)).
  { apply Forall_app. split; (eapply Forall_impl; [eassumption|]); intros ev Hev;
      [by left|by right]. }
  destruct (session_events_quiet base _ _ _ Hsrc Hcache Hquiet) as [Hcc Hsc].
  destruct (control_events_shape "BEGIN" (trace w)) as (Hbcc & Hbsc & Hbrep & Hbok).
  fold begin in Hbcc, Hbsc, Hbrep, Hbok. fold base in Hbcc.
  destruct Hg as (_ & _ & Htnx1 & _ & Hcs & _). simpl in Htnx1, Hcs.
  exists (stmts ++ tail).
  split; [exact Ht|]. split; [exact (Hbrep _ Hsrc)|].
  split; [by rewrite sources_created_app, Hsc, Hbsc|].
  split; [by rewrite control_commands_app, Hcc, app_nil_r|].
  split; [by rewrite Htnx1|].
  split.
  { intros Hfail. rewrite Hfail in Hbegan.
    destruct (Hnot Hbegan) as (-> & -> & He). by split. }
  intros Hok. split; [exact (Hbok Hok)|].
  intros cursors steps Hcursors s2.
  destruct (connection_in_transaction base steps cursors w1)
    as (Htnx2 & _ & Hlater).
  - by rewrite Hcs.
  - rewrite Ht, length_app. unfold base. lia.
  - by rewrite Htnx1, Hbegan.
  - eapply Forall_impl; [exact Hcursors|]. intros c2 Hof2.
    by apply (cursor_of_later c2 w _ (begin ++ stmts ++ tail)).
  - by split.
Qed.

Lemma statement_replies_new c w stmts tail :
  cursor_of c w ->
  Forall (statement_event (_src c)) stmts ->
  Forall (describe_event (_src c) (cache_src (_type_cache (dbcnx w)))) tail ->
  statement_replies (_src c) (begin_events N w ++ stmts ++ tail) =
  statement_replies (_src c) stmts.
Proof.
  intros (Hsrc & Hcache & Hne) Hstmts Htail.
  destruct (begin_events_shape w) as (_ & _ & Hrep).
  rewrite !statement_replies_app, (Hrep _ Hsrc).
  rewrite (statement_replies_describe _ _ _ Hne Htail). by rewrite app_nil_r.
Qed.

(** C4: when [executemany] has run a non-empty batch with success and
    the result type read from the cursor's source is not [RESULT_DQL],
    the server has answered one statement per parameter set, [rowcount]
    is the sum of the numeric affected-row counts among these answers,
    and [lastrowid] is what [oidstatus()] gave as the last native call;
    three answers of one row each give [rowcount] 3. *)
Theorem executemany_rowcount_sums operation seq c w ret c' w' new :
  cursor_of c w ->
  seq <> [] ->
  executemany B N operation seq (c, w) = (Ok ret, (c', w')) ->
  trace w' = trace w ++ new ->
  (forall rt, In (ev_resulttype (_src c) (Ok rt)) new -> rt <> RESULT_DQL N) ->
  length (statement_replies (_src c) new) = length seq /\
  rowcount c' = affected_rows (statement_replies (_src c) new) /\
  (exists before oid,
     new = before ++ [ev_oidstatus (_src c) (Ok oid)] /\ lastrowid c' = oid) /\
  (statement_replies (_src c) new = [Ok (Some 1); Ok (Some 1); Ok (Some 1)] ->
   rowcount c' = 3).
Proof.
  intros Hof Hseq Hrun Hnew Hplain.
  apply executemany_spec in Hrun
    as (Hs & Hg & stmts & tail & Ht & Hstmts & Htail & _ & _ & Hok & _); [|done].
  rewrite Ht in Hnew. apply app_inv_head in Hnew as <-.
  destruct (Hok ret eq_refl) as (_ & rows & rt & rest & Hrep & Hlen & -> & Hcmd).
  assert (Hrt : rt <> RESULT_DQL N).
  { apply Hplain. apply in_or_app. right. apply in_or_app. right. by left. }
  destruct (Hcmd Hrt) as (oid & -> & Hrc & Hoid).
  rewrite (statement_replies_new c w stmts _ Hof Hstmts Htail), Hrep.
  split; [by rewrite length_map|]. split; [done|]. split.
  - exists (begin_events N w ++ stmts ++ [ev_resulttype (_src c) (Ok rt)]), oid.
    split; [by rewrite <- !app_assoc|done].
  - intros Hthree. by rewrite Hrc, Hthree.
Qed.

(** C5: once [executemany] has sent a statement of the batch to the
    server, whatever happens then (the server rejects this or a later
    statement, a parameter cannot be quoted, the result cannot be read)
    the transaction flag is set when the call ends and the only command
    the call has issued on its own is the [BEGIN], if the transaction
    was not open yet: no [ROLLBACK].  When the server rejects a
    statement, the call raises (the error of the server itself when it
    is a DatabaseError, otherwise an error that carries the statement)
    and the rejected statement is its last native call. *)
Theorem failed_statement_keeps_transaction operation seq c w r c' w' new :
  cursor_of c w ->
  executemany B N operation seq (c, w) = (r, (c', w')) ->
  trace w' = trace w ++ new ->
  (exists sql reply, In (ev_execute (_src c) sql reply) new) ->
  let base := length (trace w) in
  _tnx (dbcnx w') = true /\
  control_commands base new = (if _tnx (dbcnx w) then [] else ["BEGIN"]) /\
  ~ In "ROLLBACK" (control_commands base new) /\
  (forall sql err,
     In (ev_execute (_src c) sql (Raise err)) new ->
     r = Raise (statement_failure sql err) /\
     (is_DatabaseError err = true -> r = Raise err) /\
     last new = Some (ev_execute (_src c) sql (Raise err))).
Proof.
  intros Hof Hrun Hnew (sql0 & reply0 & Hsent) base.
  pose proof Hof as (Hsrc & Hcache & Hne).
  destruct seq as [|p ps].
  { injection Hrun as <- <- <-. rewrite <- (app_nil_r (trace w)) in Hnew at 1.
    apply app_inv_head in Hnew as <-. destruct Hsent. }
  apply executemany_spec in Hrun
    as (Hs & Hg & stmts & tail & Ht & Hstmts & Htail & Hnot & Hfail & _); [|done].
  rewrite Ht in Hnew. apply app_inv_head in Hnew as <-.
  (* a statement on the cursor's source is one of the statements of the batch *)
  assert (Hmine : forall sql reply,
    In (ev_execute (_src c) sql reply) (begin_events N w ++ stmts ++ tail) ->
    In (ev_execute (_src c) sql reply) stmts).
  { intros sql reply Hin. apply in_app_or in Hin as [Hin|Hin].
    - exfalso. destruct (begin_events_shape w) as (_ & _ & Hrep).
      specialize (Hrep _ Hsrc).
      assert (Hel : reply ∈ statement_replies (_src c) (begin_events N w)).
      { unfold statement_replies. apply list_elem_of_omap.
        eexists. split; [by apply list_elem_of_In|]. simpl. by rewrite Nat.eqb_refl. }
      rewrite Hrep in Hel. inversion Hel.
    - apply in_app_or in Hin as [Hin|Hin]; [done|].
      exfalso. rewrite Forall_forall in Htail.
      apply list_elem_of_In, Htail in Hin. simpl in Hin. done. }
  apply Hmine in Hsent.
  assert (Hbegan : began N w = true).
  { destruct (began N w) eqn:Hb; [done|].
    destruct (Hnot eq_refl) as (-> & _). destruct Hsent. }
  assert (Hquiet : Forall (session_event (_src c) (cache_src (_type_cache (dbcnx w))))
                     (stmts ++ tail)).
  { apply Forall_app. split; (eapply Forall_impl; [eassumption|]); intros ev Hev;
      [by left|by right]. }
  destruct (session_events_quiet base _ _ _ Hsrc Hcache Hquiet) as [Hcc _].
  destruct (begin_events_shape w) as (Hbc & _ & _). fold base in Hbc.
  assert (Hcmds : control_commands base (begin_events N w ++ stmts ++ tail) =
                  if _tnx (dbcnx w) then [] else ["BEGIN"]).
  { rewrite control_commands_app, Hcc, app_nil_r, Hbc.
    destruct (_tnx (dbcnx w)) eqn:Htnx; [done|].
    unfold began in Hbegan. rewrite Htnx in Hbegan. simpl in Hbegan.
    unfold control_result in Hbegan. by destruct (nat_source N (trace w)). }
  split.
  { destruct Hg as (_ & _ & Htnx1 & _). simpl in Htnx1. congruence. }
  split; [done|]. split.
  { rewrite Hcmds. destruct (_tnx (dbcnx w)); [by intros []|]. intros [[=]|[]]. }
  intros sql err Hin. apply Hmine in Hin.
  destruct (Hfail _ _ Hin) as (-> & -> & Hlast).
  split; [done|]. split.
  { intros Hdb. unfold statement_failure. by rewrite Hdb. }
  by rewrite app_nil_r, last_app, Hlast.
Qed.

Lemma call_begins call c w :
  _tnx (dbcnx w) = false ->
  (forall operation, call <> CallExecutemany operation []) ->
  exists rest,
    trace (snd (snd (run_call B N call (c, w)))) =
      trace w ++ control_events N "BEGIN" (trace w) ++ rest.
Proof.
  intros Htnx Hcall.
  destruct (run_call B N call (c, w)) as [r [c' w']] eqn:Hrun. simpl.
  apply call_grows in Hrun as [(op & -> & _)|(op & seq & Hseq & Hrun)].
  { by destruct (Hcall op). }
  apply executemany_spec in Hrun as (_ & _ & stmts & tail & Ht & _); [|done].
  exists (stmts ++ tail). rewrite Ht. unfold begin_events. by rewrite Htnx.
Qed.

Lemma left_idle_intro r w' h err :
  r = Raise err ->
  _cnx (dbcnx w') = Some h -> _tnx (dbcnx w') = false ->
  left_idle B N r w' err.
Proof.
  intros Hr Hc Ht. split; [done|]. split; [done|].
  split; [by eapply commit_idle|]. split; [by eapply rollback_idle|].
  intros call c Hcall. by apply call_begins.
Qed.

(** C10: [commit()] and [rollback()] on an open connection with a
    transaction in progress clear the flag whatever the native command
    answers, success or failure: afterwards no transaction is open, the
    connection is still open, and a [commit()] or [rollback()] right
    after makes no native call.  When the command fails, the error is
    raised (wrapped as an OperationalError unless it is a
    DatabaseError), and the next statement starts with a [BEGIN] of its
    own. *)
Theorem failed_commit_leaves_idle w h :
  _cnx (dbcnx w) = Some h -> _tnx (dbcnx w) = true ->
  (forall e, control_result N "COMMIT" (trace w) = Raise e ->
     left_idle B N (fst (commit N w)) (snd (commit N w))
       (control_failure "can't commit" e)) /\
  (forall e, control_result N "ROLLBACK" (trace w) = Raise e ->
     left_idle B N (fst (rollback N w)) (snd (rollback N w))
       (control_failure "can't rollback" e)) /\
  trace (snd (commit N w)) = trace w ++ control_events N "COMMIT" (trace w) /\
  trace (snd (rollback N w)) = trace w ++ control_events N "ROLLBACK" (trace w) /\
  (let w' := snd (commit N w) in
   _tnx (dbcnx w') = false /\ _cnx (dbcnx w') = Some h /\
   fst (commit N w) = end_transaction_result N "COMMIT" "can't commit" (trace w) /\
   commit N w' = (Ok tt, w') /\ rollback N w' = (Ok tt, w')) /\
  (let w' := snd (rollback N w) in
   _tnx (dbcnx w') = false /\ _cnx (dbcnx w') = Some h /\
   fst (rollback N w) = end_transaction_result N "ROLLBACK" "can't rollback" (trace w) /\
   commit N w' = (Ok tt, w') /\ rollback N w' = (Ok tt, w')).
Proof.
  intros Hc Ht.
  rewrite (commit_open w h Hc Ht), (rollback_open w h Hc Ht). simpl.
  split; [|split; [|split; [done|split; [done|]]]].
  - intros e He; apply (left_idle_intro _ _ h); try done.
    unfold end_transaction_result; by rewrite He.
  - intros e He; apply (left_idle_intro _ _ h); try done.
    unfold end_transaction_result; by rewrite He.
  - split; (split; [done|]; split; [done|]; split; [done|]; split;
            [by apply (commit_idle _ h)|by apply (rollback_idle _ h)]).
Qed.

(** ** The type cache over the life of a connection *)

Lemma lookups_none cache oid d evs :
  Forall (not_lookup cache (Some (oid, d))) evs -> lookups cache oid evs = 0%nat.
Proof.
  unfold lookups. induction 1 as [|ev evs Hev _ IH]; [done|]. simpl.
  rewrite bool_decide_eq_false_2; done.
Qed.

Lemma cursor_of_grows P c w w' :
  cursor_of c w -> grows P w w' -> cursor_of c w'.
Proof.
  intros (Hsrc & Hcache & Hne) (_ & _ & _ & _ & Hs & _ & new & Ht & _).
  unfold cursor_of. rewrite Hs, Ht, length_app. repeat split; [lia|lia|done].
Qed.

Lemma control_events_not_lookup cache entry sql t :
  (cache < length t)%nat ->
  Forall (not_lookup cache entry) (control_events N sql t).
Proof.
  intros Hcache. unfold control_events.
  assert (Hexec : forall r, not_lookup cache entry (ev_execute (length t) sql r)).
  { intros r. destruct entry as [[oid d]|]; [|done]. simpl. intros [= Heq _]. lia. }
  destruct (nat_source N t); repeat constructor;
    auto using no_execute_not_lookup.
Qed.

Lemma statement_events_not_lookup src cache entry evs :
  src <> cache ->
  Forall (statement_event src) evs -> Forall (not_lookup cache entry) evs.
Proof.
  intros Hne Hevs. eapply Forall_impl; [done|].
  intros ev Hev. destruct entry as [[oid d]|]; [|done].
  destruct ev; simpl in *; try done. intros [= -> _]. done.
Qed.

(** Ending a transaction leaves the type cache alone. *)
Lemma end_transaction_quiet (finish : M World unit) cache entry c w :
  finish = commit N \/ finish = rollback N ->
  cursor_of c w -> caches cache entry w ->
  cursor_of c (snd (finish w)) /\ caches cache entry (snd (finish w)) /\
  exists new, trace (snd (finish w)) = trace w ++ new /\
              Forall (not_lookup cache entry) new.
Proof.
  intros Hfinish Hof Hcaches.
  assert (Hidle : cursor_of c w /\ caches cache entry w /\
                  exists new, trace w = trace w ++ new /\
                              Forall (not_lookup cache entry) new).
  { split; [done|]. split; [done|]. exists []. by rewrite app_nil_r. }
  pose proof Hof as (Hsrc & Hcache & Hne). pose proof Hcaches as [Hcs Hentry].
  assert (Hbusy : forall sql,
    let w' := set_trace (trace w ++ control_events N sql (trace w))
                (set_dbcnx (set_tnx false (dbcnx w)) w) in
    cursor_of c w' /\ caches cache entry w' /\
    exists new, trace w' = trace w ++ new /\ Forall (not_lookup cache entry) new).
  { intros sql w'. split.
    { unfold cursor_of, w'; simpl. rewrite length_app. repeat split; [lia|lia|done]. }
    split; [done|]. eexists. split; [done|].
    apply control_events_not_lookup. by rewrite <- Hcs. }
  destruct (_cnx (dbcnx w)) as [h|] eqn:Hc, (_tnx (dbcnx w)) eqn:Ht, Hfinish as [-> | ->].
  - rewrite (commit_open w h Hc Ht). apply Hbusy.
  - rewrite (rollback_open w h Hc Ht). apply Hbusy.
  - by rewrite (commit_idle w h Hc Ht).
  - by rewrite (rollback_idle w h Hc Ht).
  - unfold commit, bind, gets, raise; simpl. by rewrite Hc.
  - unfold rollback, bind, gets, raise; simpl. by rewrite Hc.
  - unfold commit, bind, gets, raise; simpl. by rewrite Hc.
  - unfold rollback, bind, gets, raise; simpl. by rewrite Hc.
Qed.

(** A statement call leaves a cached entry in place and looks nothing up
    for it. *)
Lemma call_quiet call cache entry c w :
  cursor_of c w -> caches cache entry w ->
  cursor_of (fst (snd (run_call B N call (c, w)))) (snd (snd (run_call B N call (c, w)))) /\
  caches cache entry (snd (snd (run_call B N call (c, w)))) /\
  exists new,
    trace (snd (snd (run_call B N call (c, w)))) = trace w ++ new /\
    Forall (not_lookup cache entry) new.
Proof.
  intros Hof Hcaches.
  destruct (run_call B N call (c, w)) as [r [c' w']] eqn:Hrun. simpl.
  apply call_grows in Hrun as [(op & _ & _ & -> & ->)|(op & seq & Hseq & Hrun)].
  { split; [done|]. split; [done|]. exists []. by rewrite app_nil_r. }
  pose proof Hof as (Hsrc & Hcache & Hne). pose proof Hcaches as [Hcs Hentry].
  apply executemany_spec in Hrun
    as (Hs & Hg & stmts & tail & Ht & Hstmts & _ & _ & _ & _ & Htail); [|done].
  assert (Hof0 : cursor_of c (after_begin N w)).
  { unfold cursor_of, after_begin; simpl. rewrite length_app.
    repeat split; [lia|lia|done]. }
  split.
  { destruct (cursor_of_grows _ _ _ _ Hof0 Hg) as (? & ? & ?).
    unfold cursor_of. by rewrite Hs. }
  split.
  { eapply caches_stable; [|exact Hg]. split; done. }
  eexists. split; [done|].
  apply Forall_app. split.
  { unfold begin_events. destruct (_tnx (dbcnx w)); [constructor|].
    apply control_events_not_lookup. by rewrite <- Hcs. }
  apply Forall_app. split.
  { eapply statement_events_not_lookup; [|done]. by rewrite <- Hcs. }
  rewrite <- Hcs. apply Htail. by rewrite Hcs.
Qed.

Lemma step_quiet step cache entry c w :
  cursor_of c w -> caches cache entry w ->
  cursor_of (fst (run_step B N step (c, w))) (snd (run_step B N step (c, w))) /\
  caches cache entry (snd (run_step B N step (c, w))) /\
  exists new,
    trace (snd (run_step B N step (c, w))) = trace w ++ new /\
    Forall (not_lookup cache entry) new.
Proof.
  intros Hof Hcaches. destruct step as [oid|call| |]; simpl.
  - pose proof (getdescr_quiet cache entry oid w Hcaches) as Hg.
    split; [by eapply cursor_of_grows|]. split; [by eapply caches_stable|].
    destruct Hg as (_ & _ & _ & _ & _ & _ & new & Ht & Hnew).
    exists new. split; [done|]. eapply Forall_impl; [done|]. by intros ev [_ ?].
  - by apply call_quiet.
  - apply (end_transaction_quiet (commit N)); auto.
  - apply (end_transaction_quiet (rollback N)); auto.
Qed.

Lemma session_quiet steps cache entry : forall c w,
  cursor_of c w -> caches cache entry w ->
  caches cache entry (snd (run_session B N steps (c, w))) /\
  exists later,
    trace (snd (run_session B N steps (c, w))) = trace w ++ later /\
    Forall (not_lookup cache entry) later.
Proof.
  induction steps as [|step steps IH]; intros c w Hof Hcaches; simpl.
  - split; [done|]. exists []. by rewrite app_nil_r.
  - destruct (step_quiet step cache entry c w Hof Hcaches)
      as (Hof1 & Hcaches1 & new & Ht1 & Hnew).
    destruct (run_step B N step (c, w)) as [c1 w1]. simpl in *.
    destruct (IH c1 w1 Hof1 Hcaches1) as (Hcaches2 & later & Ht2 & Hlater).
    split; [done|]. exists (new ++ later).
    split; [by rewrite Ht2, Ht1, app_assoc|]. by apply Forall_app.
Qed.

(** C9: when a resolution of [oid] gives a descriptor, a catalog lookup
    for [oid] was issued in that resolution exactly when the oid was not
    cached yet, and then exactly once; the descriptor is cached and a
    second resolution gives it back without any native call; and
    whatever resolutions, statement calls, commits and rollbacks follow
    on the connection, the entry stays, no further lookup for [oid] is
    issued, and resolving [oid] again still gives the same descriptor
    without any native call.  When a resolution raises, the oid was not
    cached, the lookup was issued once, nothing is cached, and the next
    resolution of [oid] issues the lookup again. *)
Theorem type_cache_looks_up_once oid w r w1 :
  getdescr B N oid w = (r, w1) ->
  let cache := cache_src (_type_cache (dbcnx w)) in
  match r with
  | Raise _ =>
      cache_items (_type_cache (dbcnx w)) !! oid = None /\
      dbcnx w1 = dbcnx w /\
      trace w1 = trace w ++ lookup_events N cache oid (trace w) /\
      lookups cache oid (lookup_events N cache oid (trace w)) = 1%nat /\
      trace (snd (getdescr B N oid w1))
        = trace w1 ++ lookup_events N cache oid (trace w1) /\
      lookups cache oid (lookup_events N cache oid (trace w1)) = 1%nat
  | Ok d =>
  (exists new,
     trace w1 = trace w ++ new /\
     lookups cache oid new =
       match cache_items (_type_cache (dbcnx w)) !! oid with
       | Some _ => 0%nat
       | None => 1%nat
       end) /\
  cache_items (_type_cache (dbcnx w1)) !! oid = Some d /\
  getdescr B N oid w1 = (Ok d, w1) /\
  (forall c steps,
     cursor_of c w1 ->
     let w2 := snd (run_session B N steps (c, w1)) in
     cache_items (_type_cache (dbcnx w2)) !! oid = Some d /\
     getdescr B N oid w2 = (Ok d, w2) /\
     exists later,
       trace w2 = trace w1 ++ later /\ lookups cache oid later = 0%nat)
  end.
Proof.
  intros Hrun cache. destruct r as [d|e].
  2: { destruct (cache_items (_type_cache (dbcnx w)) !! oid) as [d'|] eqn:Hc.
       { by rewrite (getdescr_hit _ _ _ Hc) in Hrun. }
       destruct (getdescr_miss _ _ _ _ Hc Hrun) as (Ht & _ & Hsame).
       assert (Hone : forall t, lookups cache oid (lookup_events N cache oid t) = 1%nat).
       { intros t. rewrite lookups_lookup_events. by destruct (decide (oid = oid)). }
       split; [done|]. split; [exact Hsame|]. split; [exact Ht|].
       split; [apply Hone|]. split; [|apply Hone].
       destruct (getdescr B N oid w1) as [r2 w2] eqn:Hagain.
       assert (Hc1 : cache_items (_type_cache (dbcnx w1)) !! oid = None)
         by (by rewrite Hsame).
       destruct (getdescr_miss _ _ _ _ Hc1 Hagain) as (Ht2 & _).
       simpl. rewrite Ht2. unfold cache. by rewrite Hsame. }
  assert (Hcached : cache_items (_type_cache (dbcnx w1)) !! oid = Some d /\
                    cache_src (_type_cache (dbcnx w1)) = cache).
  { destruct (cache_items (_type_cache (dbcnx w)) !! oid) as [d'|] eqn:Hc.
    - rewrite (getdescr_hit _ _ _ Hc) in Hrun. by injection Hrun as <- <-.
    - destruct (getdescr_miss _ _ _ _ Hc Hrun) as (_ & Hg & Hitems).
      split; [by rewrite Hitems, lookup_insert_eq|].
      by destruct Hg as (_ & _ & _ & _ & ? & _). }
  destruct Hcached as [Hcached Hsrc].
  split; [|split; [done|split; [by apply getdescr_hit|]]].
  - destruct (cache_items (_type_cache (dbcnx w)) !! oid) as [d'|] eqn:Hc.
    + rewrite (getdescr_hit _ _ _ Hc) in Hrun. injection Hrun as <- <-.
      exists []. by rewrite app_nil_r.
    + destruct (getdescr_miss _ _ _ _ Hc Hrun) as (Ht & _ & _).
      eexists. split; [done|]. rewrite lookups_lookup_events.
      by destruct (decide (oid = oid)).
  - intros c steps Hof w2.
    destruct (session_quiet steps cache (Some (oid, d)) c w1 Hof (conj Hsrc Hcached))
      as ([_ Hc2] & later & Ht & Hlater).
    split; [done|]. split; [by apply getdescr_hit|].
    exists later. split; [done|]. by eapply lookups_none.
Qed.

End Proofs.

(** ** The properties at work on the concrete server *)

Lemma demo_cursor_of : cursor_of Demo.fresh_cursor Demo.cursor_world.
Proof. unfold cursor_of; simpl. repeat split; [lia|lia|done]. Qed.

Lemma demo_world_reachable :
  fst (Connection_init Demo.py (Demo.native []) [] DecimalStd) = Ok Demo.fresh_world /\
  cursor (Demo.native []) Demo.fresh_world = (Ok Demo.fresh_cursor, Demo.cursor_world).
Proof. split; reflexivity. Qed.

Lemma demo_second_cursor :
  cursor (Demo.native []) Demo.cursor_world = (Ok Demo.second_cursor, Demo.shared_world) /\
  cursor_of Demo.fresh_cursor Demo.shared_world /\
  cursor_of Demo.second_cursor Demo.shared_world.
Proof.
  split; [reflexivity|].
  unfold cursor_of; simpl. repeat split; try lia; done.
Qed.

Lemma implicit_begin_once_witness :
  let call := CallExecutemany Demo.insert Demo.insert_batch in
  let w1 := snd (snd Demo.shared_insert) in
  let cursors := [Demo.fresh_cursor; Demo.second_cursor] in
  let steps := [OnCursor 1 call; NewCursor; OnCursor 2 call; OnCursor 0 call] in
  let s2 := run_connection Demo.py (Demo.native []) steps (cursors, w1) in
  run_call Demo.py (Demo.native []) call (Demo.fresh_cursor, Demo.shared_world)
    = (Ok ReturnsSelf, (fst (snd Demo.shared_insert), w1)) /\
  cursor_of Demo.fresh_cursor Demo.shared_world /\
  _tnx (dbcnx Demo.shared_world) = false /\
  (exists rest,
     trace w1 = trace Demo.shared_world ++
                [ev_source (Ok tt); ev_execute 4 "BEGIN" (Ok (Some (-1)))] ++ rest /\
     sources_created
       ([ev_source (Ok tt); ev_execute 4 "BEGIN" (Ok (Some (-1)))] ++ rest) = 1%nat /\
     control_commands 4
       ([ev_source (Ok tt); ev_execute 4 "BEGIN" (Ok (Some (-1)))] ++ rest)
       = ["BEGIN"]) /\
  _tnx (dbcnx w1) = true /\
  _tnx (dbcnx (snd s2)) = true /\
  exists later,
    trace (snd s2) = trace w1 ++ later /\
    own_commands 4 (fst s2) later = [] /\
    (sources_created later <= 1)%nat.
Proof.
  intros call w1 cursors steps s2.
  assert (Hrun : run_call Demo.py (Demo.native []) call
                   (Demo.fresh_cursor, Demo.shared_world)
                 = (Ok ReturnsSelf, (fst (snd Demo.shared_insert), w1)))
    by (vm_compute; reflexivity).
  destruct demo_second_cursor as (_ & Hfirst & Hsecond).
  assert (Hcall : forall operation, call <> CallExecutemany operation [])
    by (intros operation; discriminate).
  destruct (implicit_begin_once Demo.py (Demo.native []) call
              Demo.fresh_cursor Demo.shared_world (Ok ReturnsSelf)
              (fst (snd Demo.shared_insert)) w1 Hfirst eq_refl Hcall Hrun)
    as (rest & Ht & _ & Hsc & Hcc & Htnx & _ & Hok).
  destruct (Hok eq_refl) as (_ & Hlater).
  assert (Hcursors : Forall (fun c => cursor_of c Demo.shared_world) cursors).
  { apply Forall_cons. split; [exact Hfirst|].
    apply Forall_cons. split; [exact Hsecond|apply Forall_nil_2]. }
  destruct (Hlater cursors steps Hcursors) as (Htnx2 & Hquiet).
  split; [exact Hrun|]. split; [exact Hfirst|]. split; [reflexivity|].
  split; [exists rest; split; [exact Ht|split; [exact Hsc|exact Hcc]]|].
  split; [exact Htnx|]. split; [exact Htnx2|exact Hquiet].
Defined.

Lemma quote_rejects_unsupported_witness :
  supported_kind (Decimal Demo.fresh_world) (PyObject "dict" None) = false /\
  exists e,
    _quote Demo.py (Demo.native []) (PyObject "dict" None) Demo.fresh_world
      = (Raise e, Demo.fresh_world) /\
    exn_cls e = InterfaceError.
Proof.
  split; [reflexivity|].
  destruct (quote_rejects_unsupported Demo.py (Demo.native [])
              (PyObject "dict" None) Demo.fresh_world eq_refl) as (e & He & Hcls & _).
  by exists e.
Defined.

Lemma demo_reads_specials : reads_specials Demo.py.
Proof. unfold reads_specials. repeat split; by right. Qed.

Lemma numerals_only_reads_specials :
  reads_specials (Demo.builtins Demo.float_numerals_only).
Proof. unfold reads_specials. repeat split; by left. Qed.

Lemma float_specials_round_trip_witness :
  reads_specials Demo.py /\
  _quote Demo.py (Demo.native []) (PyFloat inf) Demo.fresh_world
    = (Ok (PyText "'Infinity'"), Demo.fresh_world) /\
  typecast Demo.py DecimalStd "float8" (Some "Infinity") = Ok (PyFloat inf) /\
  typecast (Demo.builtins Demo.float_numerals_only) DecimalStd "float4"
    (Some "-Infinity") = Ok (PyFloat (SFopp inf)).
Proof.
  split; [apply demo_reads_specials|].
  destruct (float_specials_round_trip Demo.py (Demo.native []) Demo.fresh_world
              DecimalStd demo_reads_specials) as ((Hq & _) & Hcast & _).
  destruct (Hcast "float8" (or_intror eq_refl)) as (Hinf & _).
  destruct (float_specials_round_trip (Demo.builtins Demo.float_numerals_only)
              (Demo.native []) Demo.fresh_world DecimalStd
              numerals_only_reads_specials) as (_ & Hcast' & _).
  destruct (Hcast' "float4" (or_introl eq_refl)) as (_ & Hninf & _).
  done.
Defined.

Lemma executemany_rowcount_sums_witness :
  let c' := fst (snd Demo.inserted) in
  let w' := snd (snd Demo.inserted) in
  executemany Demo.py (Demo.native []) Demo.insert Demo.insert_batch
    (Demo.fresh_cursor, Demo.cursor_world) = (Ok ReturnsSelf, (c', w')) /\
  trace w' = trace Demo.cursor_world ++ Demo.insert_events /\
  statement_replies (_src Demo.fresh_cursor) Demo.insert_events
    = [Ok (Some 1); Ok (Some 1); Ok (Some 1)] /\
  rowcount c' = 3 /\
  exists before oid,
    Demo.insert_events = before ++ [ev_oidstatus (_src Demo.fresh_cursor) (Ok oid)] /\
    lastrowid c' = oid.
Proof.
  intros c' w'.
  assert (Hrun : executemany Demo.py (Demo.native []) Demo.insert Demo.insert_batch
                   (Demo.fresh_cursor, Demo.cursor_world)
                 = (Ok ReturnsSelf, (c', w'))) by (vm_compute; reflexivity).
  assert (Hnew : trace w' = trace Demo.cursor_world ++ Demo.insert_events)
    by (vm_compute; reflexivity).
  assert (Hplain : forall rt,
            In (ev_resulttype (_src Demo.fresh_cursor) (Ok rt)) Demo.insert_events ->
            rt <> RESULT_DQL (Demo.native [])).
  { intros rt Hin.
    destruct Hin as [Hin|[Hin|[Hin|[Hin|[Hin|[Hin|[Hin|[]]]]]]]]; try discriminate Hin.
    injection Hin as <-. discriminate. }
  assert (Hseq : Demo.insert_batch <> []) by discriminate.
  assert (Hreplies : statement_replies (_src Demo.fresh_cursor) Demo.insert_events
                     = [Ok (Some 1); Ok (Some 1); Ok (Some 1)]) by reflexivity.
  destruct (executemany_rowcount_sums Demo.py (Demo.native []) Demo.insert
              Demo.insert_batch Demo.fresh_cursor Demo.cursor_world ReturnsSelf c' w'
              Demo.insert_events demo_cursor_of Hseq Hrun Hnew Hplain)
    as (_ & _ & Hlast & Hthree).
  split; [exact Hrun|]. split; [exact Hnew|]. split; [exact Hreplies|].
  split; [exact (Hthree Hreplies)|exact Hlast].
Defined.

Lemma failed_statement_keeps_transaction_witness :
  let s := Demo.rejected in
  executemany Demo.py Demo.rejecting Demo.insert Demo.insert_batch
    (Demo.fresh_cursor, Demo.cursor_world) = (fst s, (fst (snd s), snd (snd s))) /\
  trace (snd (snd s)) = trace Demo.cursor_world ++ Demo.rejected_events /\
  fst s = Raise Demo.syntax_error /\
  _tnx (dbcnx (snd (snd s))) = true /\
  control_commands (length (trace Demo.cursor_world)) Demo.rejected_events = ["BEGIN"].
Proof.
  intros s.
  assert (Hrun : executemany Demo.py Demo.rejecting Demo.insert Demo.insert_batch
                   (Demo.fresh_cursor, Demo.cursor_world)
                 = (fst s, (fst (snd s), snd (snd s)))) by (vm_compute; reflexivity).
  assert (Hnew : trace (snd (snd s)) = trace Demo.cursor_world ++ Demo.rejected_events)
    by (vm_compute; reflexivity).
  assert (Hin : In (ev_execute (_src Demo.fresh_cursor) "INSERT INTO t VALUES(2)"
                      (Raise Demo.syntax_error)) Demo.rejected_events).
  { right. right. right. left. reflexivity. }
  assert (Hsent : exists sql reply,
            In (ev_execute (_src Demo.fresh_cursor) sql reply) Demo.rejected_events).
  { exists "INSERT INTO t VALUES(2)", (Raise Demo.syntax_error). exact Hin. }
  destruct (failed_statement_keeps_transaction Demo.py Demo.rejecting Demo.insert
              Demo.insert_batch Demo.fresh_cursor Demo.cursor_world
              (fst s) (fst (snd s)) (snd (snd s)) Demo.rejected_events
              demo_cursor_of Hrun Hnew Hsent)
    as (Htnx & Hcc & _ & Hrejected).
  destruct (Hrejected _ _ Hin) as (_ & Hr & _).
  split; [exact Hrun|]. split; [exact Hnew|]. split; [exact (Hr eq_refl)|].
  split; [exact Htnx|exact Hcc].
Defined.

Lemma closed_connection_raises_witness :
  let w' := snd (Connection_close (Demo.native []) Demo.cursor_world) in
  Connection_close (Demo.native []) Demo.cursor_world = (Ok tt, w') /\
  _cnx (dbcnx w') = None /\
  fst (cursor (Demo.native []) w') = Raise (_op_error "connection has been closed") /\
  fst (Connection_close (Demo.native []) w')
    = Raise (_op_error "connection has been closed").
Proof.
  intros w'.
  assert (Hclose : Connection_close (Demo.native []) Demo.cursor_world = (Ok tt, w'))
    by reflexivity.
  destruct (closed_connection_raises (Demo.native []) Demo.cursor_world w' Hclose)
    as (Hnone & _).
  repeat split; done.
Defined.

Lemma close_suppresses_rollback_error_witness :
  _cnx (dbcnx Demo.busy_world) = Some the_pgcnx /\
  _tnx (dbcnx Demo.busy_world) = true /\
  control_result Demo.unreachable "ROLLBACK" (trace Demo.busy_world)
    = Raise Demo.connection_lost /\
  fst (Connection_close Demo.unreachable Demo.busy_world) = Ok tt /\
  _cnx (dbcnx (snd (Connection_close Demo.unreachable Demo.busy_world))) = None.
Proof.
  destruct (close_suppresses_rollback_error Demo.unreachable Demo.busy_world
              the_pgcnx eq_refl eq_refl) as (w' & Hclose & _ & _ & Hreleased & _).
  rewrite Hclose. simpl. repeat split; try done. by apply Hreleased.
Defined.

Lemma executemany_empty_is_noop_witness :
  cursor (Demo.native []) Demo.fresh_world = (Ok Demo.fresh_cursor, Demo.cursor_world) /\
  executemany Demo.py (Demo.native []) Demo.insert []
    (Demo.fresh_cursor, Demo.cursor_world)
    = (Ok ReturnsNone, (Demo.fresh_cursor, Demo.cursor_world)) /\
  rowcount Demo.fresh_cursor = -1.
Proof.
  destruct (executemany_empty_is_noop Demo.py (Demo.native []) Demo.insert
              Demo.fresh_cursor Demo.cursor_world) as [Hnoop Hsame].
  destruct (Hsame _ _ _ Hnoop) as (_ & _ & _ & _ & _ & _ & Hfresh).
  split; [reflexivity|]. split; [done|]. by apply (Hfresh Demo.fresh_world).
Defined.

Lemma type_cache_looks_up_once_witness :
  let w1 := snd (getdescr Demo.py (Demo.native []) 23 Demo.cursor_world) in
  let d := {| td_name := Some "int4"; td_display_size := None;
              td_internal_size := 4; td_precision := None;
              td_scale := None; td_null_ok := None |} in
  let steps := [Resolve 23; Statement (CallExecute "SELECT a FROM t" (ValParams PyNone));
                Commit; Resolve 23] in
  getdescr Demo.py (Demo.native []) 23 Demo.cursor_world = (Ok d, w1) /\
  cursor_of Demo.fresh_cursor w1 /\
  cache_items (_type_cache (dbcnx w1)) !! 23 = Some d /\
  exists later,
    trace (snd (run_session Demo.py (Demo.native []) steps (Demo.fresh_cursor, w1)))
      = trace w1 ++ later /\
    lookups 0 23 later = 0%nat.
Proof.
  intros w1 d steps.
  assert (Hrun : getdescr Demo.py (Demo.native []) 23 Demo.cursor_world = (Ok d, w1))
    by (vm_compute; reflexivity).
  assert (Hof : cursor_of Demo.fresh_cursor w1).
  { unfold cursor_of. vm_compute. repeat split; [lia|lia|discriminate]. }
  destruct (type_cache_looks_up_once Demo.py (Demo.native []) 23 Demo.cursor_world
              (Ok d) w1 Hrun) as (_ & Hcached & _ & Hlater).
  destruct (Hlater Demo.fresh_cursor steps Hof) as (_ & _ & Hquiet).
  split; [exact Hrun|]. split; [exact Hof|]. split; [exact Hcached|exact Hquiet].
Defined.

(** C9 as the claim has it, one lookup per identifier over the life of
    the connection, does not hold when a lookup gives no descriptor:
    on a server that returns no row for the catalog query, resolving
    oid 23 raises an IndexError and caches nothing, so resolving it
    again issues the lookup again: two lookups for the one oid. *)
Lemma type_cache_looks_up_once_counterexample :
  let first := getdescr Demo.py DemoMore.drained 23 Demo.cursor_world in
  let second := getdescr Demo.py DemoMore.drained 23 (snd first) in
  fst first = Raise (builtin_error "IndexError" "list index out of range") /\
  cache_items (_type_cache (dbcnx (snd first))) !! 23 = None /\
  fst second = Raise (builtin_error "IndexError" "list index out of range") /\
  cache_items (_type_cache (dbcnx (snd second))) !! 23 = None /\
  exists new,
    trace (snd second) = trace Demo.cursor_world ++ new /\
    new = [ev_execute 0 (lookup_query 23) (Ok None); ev_fetch 0 1 (Ok []);
           ev_execute 0 (lookup_query 23) (Ok None); ev_fetch 0 1 (Ok [])] /\
    lookups 0 23 new = 2%nat.
Proof.
  intros first second.
  split; [vm_compute; reflexivity|]. split; [vm_compute; reflexivity|].
  split; [vm_compute; reflexivity|]. split; [vm_compute; reflexivity|].
  eexists. split; [vm_compute; reflexivity|].
  split; [vm_compute; reflexivity|]. vm_compute. reflexivity.
Qed.

Lemma failed_commit_leaves_idle_witness :
  _cnx (dbcnx Demo.busy_world) = Some the_pgcnx /\
  _tnx (dbcnx Demo.busy_world) = true /\
  fst (commit Demo.unreachable Demo.busy_world) = Raise (_op_error "can't commit") /\
  _tnx (dbcnx (snd (commit Demo.unreachable Demo.busy_world))) = false /\
  rollback Demo.unreachable (snd (commit Demo.unreachable Demo.busy_world))
    = (Ok tt, snd (commit Demo.unreachable Demo.busy_world)) /\
  fst (commit (Demo.native []) Demo.busy_world) = Ok tt /\
  _tnx (dbcnx (snd (commit (Demo.native []) Demo.busy_world))) = false /\
  _tnx (dbcnx (snd (rollback (Demo.native []) Demo.busy_world))) = false.
Proof.
  destruct (failed_commit_leaves_idle Demo.py Demo.unreachable Demo.busy_world
              the_pgcnx eq_refl eq_refl) as (Hcommit & _).
  destruct (Hcommit Demo.connection_lost eq_refl) as (Hr & Htnx & _ & Hroll & _).
  destruct (failed_commit_leaves_idle Demo.py (Demo.native []) Demo.busy_world
              the_pgcnx eq_refl eq_refl)
    as (_ & _ & _ & _ & (Hdone & _ & Hok & _) & (Hback & _)).
  split; [reflexivity|]. split; [reflexivity|]. split; [exact Hr|].
  split; [exact Htnx|]. split; [exact Hroll|]. split; [exact Hok|].
  split; [exact Hdone|exact Hback].
Defined.

(** ** Some runs of the model *)

Example quote_sequence :
  fst (_quote Demo.py (Demo.native [])
         (PyTuple [PyInt 1; PyText "O'Brien"; PyNone; PyFloat nan]) Demo.fresh_world)
  = Ok (PyText "(1,'O''Brien',NULL,'NaN')").
Proof. vm_compute. reflexivity. Qed.

Example select_with_mapping :
  trace (snd (snd (executemany Demo.py (Demo.native []) "SELECT %(x)s"
                     [MapParams {[ "x" := PyText "O'Brien" ]}]
                     (Demo.fresh_cursor, Demo.busy_world))))
  = trace Demo.busy_world ++
    [ev_escape_string "O'Brien" (Ok "O''Brien");
     ev_execute 2 "SELECT 'O''Brien'" (Ok None);
     ev_resulttype 2 (Ok 4);
     ev_ntuples 2 (Ok 1);
     ev_listinfo 2 (Ok [(0, "a", 23)]);
     ev_execute 0 "SELECT typname, typlen FROM pg_type WHERE oid=23" (Ok None);
     ev_fetch 0 1 (Ok [[Some "int4"; Some "4"]])].
Proof. vm_compute. reflexivity. Qed.

Example quote_error_names_previous_statement :
  fst (executemany Demo.py (Demo.native []) "INSERT INTO t VALUES(%s)"
         [ValParams (PyTuple [PyObject "dict" None])]
         (Demo.fresh_cursor, Demo.cursor_world))
  = Raise (_db_error "error in 'BEGIN': 'do not know how to handle type <class 'dict'>' "
             DatabaseError).
Proof. vm_compute. reflexivity. Qed.

Example cast_specials_without_float_support :
  _cast_float (Demo.builtins Demo.float_numerals_only) "Infinity" = Ok inf /\
  _cast_float (Demo.builtins Demo.float_numerals_only) "12" = _cast_float Demo.py "12" /\
  is_ok (_cast_float Demo.py "twelve") = false.
Proof. repeat split; vm_compute; reflexivity. Qed.

(** * Further properties *)

(** ** Fetching rows *)

Section FetchProofs.
Context (B : Builtins) (N : Native) {R : Type}
  (class_row_factory : Cursor -> list pyval -> result R).

Lemma fetchmany_run size keep c w :
  fetchmany B N class_row_factory size keep (c, w) =
    (let n := default (arraysize c) size in
     let c1 := if keep then set_arraysize n c else c in
     (match nat_fetch N (trace w) (_src c) n with
      | Ok rows => make_rows B class_row_factory (Decimal w) c1 rows
      | Raise e => Raise (fetch_failure e)
      end,
      (c1, set_trace (trace w ++ [fetch_event N (_src c) n (trace w)]) w))).
Proof.
  unfold fetchmany, fetch_event, fetch_failure, bind, gets, ret, try_except, lift,
    call_native, self_set, modify, lift_result, raise.
  destruct size as [n|], keep; simpl;
    (destruct (nat_fetch N (trace w) (_src c) _) as [rows|e]; simpl;
     [reflexivity|]);
    destruct (is_DatabaseError e), (is_Error e); reflexivity.
Qed.

Lemma fetchone_run c w :
  fetchone B N class_row_factory (c, w) =
    (match fst (fetchmany B N class_row_factory (Some 1) false (c, w)) with
     | Ok (row :: _) => Ok (Some row)
     | Ok [] => Ok None
     | Raise e => Raise e
     end,
     (c, set_trace (trace w ++ [fetch_event N (_src c) 1 (trace w)]) w)).
Proof.
  unfold fetchone, bind. rewrite fetchmany_run. simpl.
  destruct (nat_fetch N (trace w) (_src c) 1) as [rows|e]; [|reflexivity].
  destruct (make_rows B class_row_factory (Decimal w) c rows) as [[|row out]|e];
    reflexivity.
Qed.

Lemma map_result_Forall2 {X Y} (f : X -> result Y) (l : list X) (ys : list Y) :
  map_result f l = Ok ys <-> Forall2 (fun x y => f x = Ok y) l ys.
Proof.
  revert ys. induction l as [|x l IH]; intros ys; simpl.
  - split.
    + intros [= <-]. constructor.
    + intros H. inversion H. reflexivity.
  - split.
    + destruct (f x) as [y|e] eqn:Hx; [|discriminate].
      destruct (map_result f l) as [ys'|e] eqn:Hl; [|discriminate].
      intros [= <-]. constructor; [exact Hx|]. by apply IH.
    + intros H. inversion H as [|x' y l' ys' Hx Hl]; subst.
      rewrite Hx. apply IH in Hl. rewrite Hl. reflexivity.
Qed.

Lemma typecast_column_null D typ : typecast_column B D typ None = Ok PyNone.
Proof. by destruct typ. Qed.

(** X1: each of [fetchmany], [fetchone], [fetchall] and [__next__]
    makes exactly one call into the native layer, [fetch] on the source
    object of the cursor, whether it returns or raises; it changes
    neither the connection nor the cursor, except that [fetchmany] with
    [keep] stores the size as [arraysize] (also when the fetch fails),
    and a later [fetchmany()] without a size asks for that many rows. *)
Theorem fetch_makes_one_native_call size keep c w :
  let after n := set_trace (trace w ++ [fetch_event N (_src c) n (trace w)]) w in
  let n := default (arraysize c) size in
  snd (fetchmany B N class_row_factory size keep (c, w))
    = (if keep then set_arraysize n c else c, after n) /\
  snd (fetchone B N class_row_factory (c, w)) = (c, after 1) /\
  snd (fetchall B N class_row_factory (c, w)) = (c, after (-1)) /\
  snd (Cursor_next B N class_row_factory (c, w)) = (c, after 1) /\
  forall m,
    trace (snd (snd (fetchmany B N class_row_factory None false
                       (snd (fetchmany B N class_row_factory (Some m) true (c, w))))))
    = trace w ++ [fetch_event N (_src c) m (trace w);
                  fetch_event N (_src c) m
                    (trace w ++ [fetch_event N (_src c) m (trace w)])].
Proof.
  intros after n.
  split; [by rewrite fetchmany_run|].
  split; [by rewrite fetchone_run|].
  split; [unfold fetchall; by rewrite fetchmany_run|].
  split.
  - unfold Cursor_next, bind. rewrite fetchone_run.
    by destruct (fst (fetchmany B N class_row_factory (Some 1) false (c, w)))
      as [[|row out]|e].
  - intros m. rewrite fetchmany_run. simpl. rewrite fetchmany_run. simpl.
    by rewrite <- app_assoc.
Qed.

(** X2: when [fetchmany] returns on a cursor whose row factory was built
    for named tuples, the native fetch has succeeded and the result has
    one row per fetched row, in order: the named tuple of the cursor's
    fields whose values are the casts of the columns by the cursor's
    column types, NULL columns being None. *)
Theorem fetchmany_gives_named_rows size keep c w out s' fields :
  fetchmany B N class_row_factory size keep (c, w) = (Ok out, s') ->
  row_factory c = Some (BuiltFactory fields) ->
  exists rows typs,
    nat_fetch N (trace w) (_src c) (default (arraysize c) size) = Ok rows /\
    (rows <> [] -> coltypes c = Some typs) /\
    Forall2
      (fun raw row =>
         exists values,
           row = NamedRow fields values /\
           length values = length fields /\
           Forall2 (fun tv v => typecast_column B (Decimal w) (fst tv) (snd tv) = Ok v)
             (zip typs raw) values /\
           forall i, (i < length typs)%nat -> raw !! i = Some None ->
                     values !! i = Some PyNone)
      rows out.
Proof.
  intros Hrun Hfactory. rewrite fetchmany_run in Hrun. simpl in Hrun.
  destruct (nat_fetch N (trace w) (_src c) (default (arraysize c) size))
    as [rows|e]; [|discriminate].
  injection Hrun as Hout _.
  set (c1 := if keep then set_arraysize _ c else c) in Hout.
  assert (Hf1 : row_factory c1 = Some (BuiltFactory fields)) by (by destruct keep).
  assert (Ht1 : coltypes c1 = coltypes c) by (by destruct keep).
  unfold make_rows in Hout. rewrite Ht1 in Hout.
  apply map_result_Forall2 in Hout.
  exists rows, (default [] (coltypes c)). split; [reflexivity|].
  split.
  { intros Hne. destruct Hout as [|raw row rows' out' Hrow _]; [done|].
    destruct (coltypes c) as [typs|]; [reflexivity|discriminate]. }
  eapply Forall2_impl; [exact Hout|].
  intros raw row Hrow. simpl in Hrow.
  destruct (coltypes c) as [typs|]; [|discriminate]. simpl in *.
  destruct (map_result _ (zip typs raw)) as [values|e] eqn:Hcast; [|discriminate].
  unfold make_row in Hrow. rewrite Hf1 in Hrow.
  case_bool_decide as Hlen; [|discriminate]. injection Hrow as <-.
  apply map_result_Forall2 in Hcast.
  exists values. split; [reflexivity|]. split; [exact Hlen|]. split; [exact Hcast|].
  intros i Hi Hnull.
  destruct (lookup_lt_is_Some_2 typs i Hi) as [typ Htyp].
  assert (Hz : zip typs raw !! i = Some (typ, None)).
  { rewrite lookup_zip_with. rewrite Htyp. simpl. rewrite Hnull. reflexivity. }
  destruct (Forall2_lookup_l _ _ _ _ _ Hcast Hz) as (v & Hv & Hcastv).
  simpl in Hcastv. rewrite typecast_column_null in Hcastv. injection Hcastv as <-.
  exact Hv.
Qed.

(** X3: when the native fetch fails, [fetchmany] raises an exception
    with the same message: the exception itself when it is a
    [DatabaseError] or no DB-API error at all, and a [DatabaseError]
    in place of any other DB-API error. *)
Theorem fetch_failure_classes size keep c w err :
  nat_fetch N (trace w) (_src c) (default (arraysize c) size) = Raise err ->
  exists e,
    fst (fetchmany B N class_row_factory size keep (c, w)) = Raise e /\
    exn_msg e = exn_msg err /\
    (is_Error err = true -> is_DatabaseError e = true) /\
    (is_DatabaseError err = true \/ is_Error err = false -> e = err).
Proof.
  intros Hfetch. rewrite fetchmany_run. simpl. rewrite Hfetch.
  exists (fetch_failure err). split; [reflexivity|]. unfold fetch_failure.
  destruct (is_DatabaseError err) eqn:Hdb; [by repeat split|].
  destruct (is_Error err) eqn:Herr.
  - repeat split. intros [?|?]; discriminate.
  - repeat split; done.
Qed.

(** X4: when the native fetch gives no row, [fetchmany] and [fetchall]
    return the empty list, [fetchone] returns None and [__next__]
    raises [StopIteration], whatever state the cursor is in. *)
Theorem fetch_exhausted c w :
  (forall size keep,
     nat_fetch N (trace w) (_src c) (default (arraysize c) size) = Ok [] ->
     fst (fetchmany B N class_row_factory size keep (c, w)) = Ok []) /\
  (nat_fetch N (trace w) (_src c) (-1) = Ok [] ->
   fst (fetchall B N class_row_factory (c, w)) = Ok []) /\
  (nat_fetch N (trace w) (_src c) 1 = Ok [] ->
   fst (fetchone B N class_row_factory (c, w)) = Ok None /\
   exists e, fst (Cursor_next B N class_row_factory (c, w)) = Raise e /\
             exn_cls e = Builtin "StopIteration").
Proof.
  split; [|split].
  - intros size keep Hfetch. rewrite fetchmany_run. simpl. by rewrite Hfetch.
  - intros Hfetch. unfold fetchall. rewrite fetchmany_run. simpl. by rewrite Hfetch.
  - intros Hfetch.
    assert (Hone : fetchone B N class_row_factory (c, w)
                   = (Ok None,
                      (c, set_trace (trace w ++ [fetch_event N (_src c) 1 (trace w)]) w))).
    { rewrite fetchone_run, fetchmany_run. simpl. by rewrite Hfetch. }
    split; [by rewrite Hone|].
    unfold Cursor_next, bind. rewrite Hone. by eexists.
Qed.

Lemma map_result_app_raise {X Y} (f : X -> result Y) (pre : list X) x post e :
  Forall (fun x => is_ok (f x) = true) pre ->
  f x = Raise e ->
  map_result f (pre ++ x :: post) = Raise e.
Proof.
  intros Hpre Hx. induction Hpre as [|y pre Hy _ IH]; simpl.
  - by rewrite Hx.
  - destruct (f y); [|discriminate]. by rewrite IH.
Qed.

Lemma map_result_one {X Y} (f : X -> result Y) (x : X) :
  (is_ok (map_result f [x]) = true -> is_ok (f x) = true) /\
  (forall e, map_result f [x] = Raise e -> f x = Raise e).
Proof.
  simpl. destruct (f x) as [y|e0]; split; try done.
  intros e [= <-]. reflexivity.
Qed.

(** X24: an exception raised while casting a column, or by the row
    factory, is not wrapped: when the native fetch succeeds and the
    first row that cannot be made raises [e], [fetchmany] raises [e]
    itself, after the one native call. *)
Theorem fetch_cast_error_is_not_wrapped (size : option Z) (keep : bool) (c : Cursor)
    (w : World) (before : list raw_row) (raw : raw_row) (after : list raw_row)
    (e : exn) :
  let n := default (arraysize c) size in
  let c1 := if keep then set_arraysize n c else c in
  nat_fetch N (trace w) (_src c) n = Ok (before ++ raw :: after) ->
  Forall (fun row => is_ok (make_rows B class_row_factory (Decimal w) c1 [row]) = true)
    before ->
  make_rows B class_row_factory (Decimal w) c1 [raw] = Raise e ->
  fetchmany B N class_row_factory size keep (c, w)
    = (Raise e, (c1, set_trace (trace w ++ [fetch_event N (_src c) n (trace w)]) w)).
Proof.
  intros n c1 Hfetch Hbefore Hraw. rewrite fetchmany_run. cbv zeta.
  fold n. fold c1. rewrite Hfetch. f_equal.
  unfold make_rows in *.
  apply map_result_app_raise.
  - eapply Forall_impl; [exact Hbefore|]. intros row Hrow.
    by apply map_result_one in Hrow.
  - by apply map_result_one in Hraw.
Qed.

End FetchProofs.

(** ** Statements without parameters, and parameters that cannot be quoted *)

Section QuoteProofs.
Context (B : Builtins) (N : Native).

(** X9: with a mapping as parameters and a template whose conversions
    all name a key, only the values the template refers to are quoted:
    two mappings that agree on the keys of the template give the same
    statement, the same native calls and the same error, whatever else
    they hold.  (A conversion without a key renders the whole mapping,
    and then every entry counts.) *)
Theorem mapping_quotes_referenced_keys_only template d d' w :
  keyed_only (format_scan B template) = true ->
  (forall key render,
     FmtKey key render ∈ format_scan B template -> d !! key = d' !! key) ->
  _quoteparams B N template (MapParams d) w
    = _quoteparams B N template (MapParams d') w.
Proof.
  simpl. generalize (format_scan B template) as pieces. intros pieces.
  induction pieces as [|piece pieces IH] in w |- *; intros Hkeyed Hagree;
    [reflexivity|].
  assert (Hrest : forall key render,
            FmtKey key render ∈ pieces -> d !! key = d' !! key).
  { intros key render Hin. apply (Hagree key render). by right. }
  destruct piece as [s|key render|render|e]; simpl in Hkeyed |- *.
  - unfold bind. rewrite (IH _ Hkeyed Hrest). reflexivity.
  - unfold bind, quotedict_getitem. rewrite (Hagree key render) by left.
    destruct (d' !! key) as [v|]; [|reflexivity].
    destruct (_quote B N v w) as [[q|e] w1]; [|reflexivity].
    unfold lift_result. destruct (render q) as [text|e]; [|reflexivity].
    rewrite (IH _ Hkeyed Hrest). reflexivity.
  - discriminate Hkeyed.
  - reflexivity.
Qed.

Lemma quote_literal v text w :
  literal_of v = Some text ->
  exists q, _quote B N v w = (Ok q, w) /\ py_str B q = text.
Proof.
  destruct v as [| b | z | | | | | | | | |]; try discriminate; intros [= <-]; simpl.
  - by exists (PyText "NULL").
  - by exists (PyBool b).
  - by exists (PyInt z).
Qed.

Lemma quote_sequence_eq l :
  _quote B N (PyList l)
    = (let* parts := quote_all B N l in
       ret (PyText ("(" +:+ String.concat "," parts +:+ ")"))) /\
  _quote B N (PyTuple l)
    = (let* parts := quote_all B N l in
       ret (PyText ("(" +:+ String.concat "," parts +:+ ")"))).
Proof. split; reflexivity. Qed.

Lemma quote_all_cons v l :
  quote_all B N (v :: l)
    = (let* q := _quote B N v in
       let* qs := quote_all B N l in
       ret (py_str B q :: qs)).
Proof. reflexivity. Qed.

Lemma quote_literals l texts w :
  mapM literal_of l = Some texts ->
  quote_all B N l w = (Ok texts, w).
Proof.
  revert texts. induction l as [|v l IH]; intros texts Hall.
  - injection Hall as <-. reflexivity.
  - simpl in Hall. destruct (literal_of v) as [text|] eqn:Hv; [|discriminate].
    simpl in Hall. destruct (mapM literal_of l) as [rest|]; [|discriminate].
    injection Hall as <-.
    destruct (quote_literal v text w Hv) as (q & Hq & Hstr).
    rewrite quote_all_cons. unfold bind. rewrite Hq. rewrite (IH rest eq_refl).
    simpl. by rewrite Hstr.
Qed.

(** X10: a list or tuple of integers, booleans and None is quoted
    without any call into the native layer, as the items, None being
    [NULL], separated by commas and enclosed in parentheses. *)
Theorem quote_sequence_of_literals l texts w :
  mapM literal_of l = Some texts ->
  let text := PyText ("(" +:+ String.concat "," texts +:+ ")") in
  _quote B N (PyList l) w = (Ok text, w) /\
  _quote B N (PyTuple l) w = (Ok text, w).
Proof.
  intros Hall text. destruct (quote_sequence_eq l) as [-> ->].
  unfold bind. by rewrite (quote_literals l texts w Hall).
Qed.

(** X11: quoting the parameters of a statement calls nothing but the
    escape functions of the native connection: it creates no source
    object, runs no statement, and leaves the transaction flag, the
    connection handle and the decimal type as they are. *)
Theorem quoting_only_escapes template parameters w :
  let w' := snd (_quoteparams B N template parameters w) in
  _cnx (dbcnx w') = _cnx (dbcnx w) /\
  _tnx (dbcnx w') = _tnx (dbcnx w) /\
  Decimal w' = Decimal w /\
  exists new,
    trace w' = trace w ++ new /\
    Forall escape_event new /\
    sources_created new = 0%nat /\
    forall src, statement_replies src new = [].
Proof.
  intros w'. destruct (quoteparams_frames B N template parameters w)
    as (HD & Hcnx & Htnx & _ & _ & _ & new & Hnew & Hesc).
  fold w' in HD, Hcnx, Htnx, Hnew.
  split; [exact Hcnx|]. split; [exact Htnx|]. split; [exact HD|].
  exists new. split; [exact Hnew|]. split; [exact Hesc|].
  clear Hnew. induction Hesc as [|ev new Hev _ IH]; [done|].
  destruct IH as [IH1 IH2].
  destruct ev as [r|r|s r|b r|s sql r|s n r|s r|s r|s r|s r|s r]; try done.
Qed.

Lemma run_statements_state operation seq s :
  snd (run_statements B N operation seq s)
    = snd ((begin_transaction N ;;; for_each seq (execute_one B N operation)) s).
Proof.
  unfold run_statements, try_except.
  destruct ((begin_transaction N ;;; for_each seq (execute_one B N operation)) s)
    as [[u|e] s1]; [reflexivity|].
  unfold bind, gets, raise. simpl.
  by destruct (is_DatabaseError e), (is_Error e).
Qed.

Lemma execute_one_verbatim operation parameters l c w :
  params_truthy B parameters = false ->
  trace (snd (snd (snd (execute_one B N operation parameters (l, (c, w))))))
    = trace w ++ [ev_execute (_src c) operation
                    (nat_execute N (trace w) (_src c) operation)].
Proof.
  intros Hfalse. unfold execute_one. rewrite Hfalse.
  unfold bind, ret, local_set, modify, gets, lift, call_native, self_set. simpl.
  destruct (nat_execute N (trace w) (_src c) operation) as [rows|e]; [|reflexivity].
  simpl. by destruct (rows_truthy rows).
Qed.

Lemma falsy_is_single operation parameters :
  params_truthy B parameters = false ->
  execute B N operation parameters = executemany B N operation [parameters].
Proof.
  intros Hfalse. destruct parameters as [d|v]; [reflexivity|].
  destruct v as [| | | | | | | | |[|[] l]| |]; try reflexivity.
  discriminate Hfalse.
Qed.

Lemma single_statement_verbatim operation parameters l c w :
  params_truthy B parameters = false ->
  local_sql l = "BEGIN" ->
  trace (snd (snd (snd (run_statements B N operation [parameters] (l, (c, w))))))
  = trace (after_begin N w) ++
    (if began N w
     then [ev_execute (_src c) operation
             (nat_execute N (trace (after_begin N w)) (_src c) operation)]
     else []).
Proof.
  intros Hfalse Hl. rewrite run_statements_state.
  unfold bind at 1. rewrite (begin_transaction_spec N l c w Hl).
  unfold began.
  assert (Hgo : trace (snd (snd (snd (for_each [parameters]
                                        (execute_one B N operation)
                                        (l, (c, after_begin N w))))))
                = trace (after_begin N w) ++
                  [ev_execute (_src c) operation
                     (nat_execute N (trace (after_begin N w)) (_src c) operation)]).
  { cbn [for_each]. unfold bind at 1.
    pose proof (execute_one_verbatim operation parameters l c (after_begin N w) Hfalse)
      as Hone.
    by destruct (execute_one B N operation parameters (l, (c, after_begin N w)))
      as [[u|e] [l1 [c1 w1]]]. }
  destruct (_tnx (dbcnx w)); simpl; [exact Hgo|].
  destruct (control_result N "BEGIN" (trace w)) as [u|e]; simpl; [exact Hgo|].
  by rewrite app_nil_r.
Qed.

Lemma single_execute_verbatim operation parameters c w :
  params_truthy B parameters = false ->
  exists tail,
    trace (snd (snd (execute B N operation parameters (c, w))))
    = trace w ++ begin_events N w ++
      (if began N w
       then ev_execute (_src c) operation
              (nat_execute N (trace (after_begin N w)) (_src c) operation) :: tail
       else []) /\
    Forall (describe_event (_src c) (cache_src (_type_cache (dbcnx w)))) tail.
Proof.
  intros Hfalse. rewrite (falsy_is_single _ _ Hfalse).
  destruct (executemany B N operation [parameters] (c, w)) as [r [c' w']] eqn:Hrun.
  assert (Hne : [parameters] <> []) by done.
  destruct (executemany_unfold B N _ _ _ _ _ _ _ Hne Hrun)
    as (l' & rr & Hbody & _).
  set (l0 := {| local_sql := "BEGIN"; local_rowcount := 0 |}) in Hbody.
  pose proof (single_statement_verbatim operation parameters l0 (reset_result c) w
                Hfalse eq_refl) as Hstmts.
  change (_src (reset_result c)) with (_src c) in Hstmts.
  change (trace (after_begin N w)) with (trace w ++ begin_events N w) in Hstmts at 1.
  rewrite <- app_assoc in Hstmts.
  apply bind_inv in Hbody as [(u & [l1 [c1 w1]] & Hst & Hdescr)|(e & Hst & _)].
  - rewrite Hst in Hstmts. simpl in Hstmts.
    destruct (run_statements_spec B N _ _ l0 _ _ _ _ _ _ eq_refl Hst)
      as (Hsrc & Hgrows & _ & stmts & _ & Hbegan & _).
    change (_src (reset_result c)) with (_src c) in Hsrc.
    destruct Hgrows as (_ & _ & _ & _ & Hcs & _). simpl in Hcs.
    destruct (describe_result_spec B N _ _ _ _ _ _ _ Hdescr)
      as (_ & (_ & _ & _ & _ & _ & _ & tail & Htail & Hall) & _).
    rewrite Hsrc, Hcs in Hall.
    exists tail. split; [|exact Hall].
    simpl. rewrite Htail, Hstmts, Hbegan, <- !app_assoc. reflexivity.
  - rewrite Hst in Hstmts. simpl in Hstmts. simpl.
    destruct (began N w).
    + exists []. split; [exact Hstmts|constructor].
    + exists []. split; [exact Hstmts|constructor].
Qed.

(** X6: [execute] with parameters that are false (None, an empty list,
    tuple or dict) still runs the operation, verbatim, with no [%]
    formatting, right after the implicit [BEGIN] when one is needed
    and succeeds, and it runs it once: on a cursor of the connection
    no other statement runs on the cursor's source object in the
    call, neither before nor after it. *)
Theorem execute_without_parameters_is_verbatim operation parameters c w :
  params_truthy B parameters = false ->
  exists rest,
    trace (snd (snd (execute B N operation parameters (c, w))))
    = trace w ++ begin_events N w ++
      (if began N w
       then ev_execute (_src c) operation
              (nat_execute N (trace (after_begin N w)) (_src c) operation) :: rest
       else []) /\
    (cursor_of c w ->
     statement_replies (_src c) (begin_events N w) = [] /\
     statement_replies (_src c) rest = []).
Proof.
  intros Hfalse.
  destruct (single_execute_verbatim operation parameters c w Hfalse)
    as (tail & Htrace & Htail).
  exists tail. split; [exact Htrace|].
  intros (Hsrc & _ & Hne). split.
  - by destruct (begin_events_shape N w) as (_ & _ & Hrep); apply Hrep.
  - by apply (statement_replies_describe _ (cache_src (_type_cache (dbcnx w)))).
Qed.

(** X8: [callproc] without parameters (None or an empty sequence) runs
    the statement [select * from "procname"()] as it is, and whenever
    [callproc] returns it returns the parameters it was given. *)
Theorem callproc_without_parameters procname parameters c w :
  proc_arity parameters = 0%nat ->
  let query := "select * from " +:+ dquote +:+ procname +:+ dquote +:+ "()" in
  (exists rest,
     trace (snd (snd (callproc B N procname parameters (c, w))))
     = trace w ++ begin_events N w ++
       (if began N w
        then ev_execute (_src c) query
               (nat_execute N (trace (after_begin N w)) (_src c) query) :: rest
        else [])) /\
  forall r s', callproc B N procname parameters (c, w) = (Ok r, s') -> r = parameters.
Proof.
  intros Harity query.
  assert (Hfalse : params_truthy B (proc_paramset parameters) = false).
  { destruct parameters as [|[|v l]|[|v l]]; try discriminate Harity; reflexivity. }
  split.
  - destruct (single_execute_verbatim
                (callproc_query procname (proc_arity parameters))
                (proc_paramset parameters) c w Hfalse) as (rest & Hrest & _).
    exists rest. unfold callproc, bind.
    destruct (execute B N _ _ (c, w)) as [[ret|e] s1]; simpl in *;
      rewrite Hrest, Harity; reflexivity.
  - intros r s' Hrun. unfold callproc, bind in Hrun.
    destruct (execute B N _ _ (c, w)) as [[ret|e] s1]; [|discriminate].
    by injection Hrun as <- _.
Qed.

(** X7: when the first parameter set of a call cannot be quoted, the
    call raises what it raises for a failure of the statement [BEGIN],
    whose text the message then carries (an [InterfaceError] of
    [_quote] arrives as a [DatabaseError]); nothing has run on the
    cursor's source object, the cursor's result attributes are reset
    and the transaction stays open. *)
Theorem quoting_failure_is_reported_under_begin operation parameters seq c w err w1 :
  params_truthy B parameters = true ->
  began N w = true ->
  _quoteparams B N operation parameters (after_begin N w) = (Raise err, w1) ->
  executemany B N operation (parameters :: seq) (c, w)
    = (Raise (statement_failure "BEGIN" err), (reset_result c, w1)) /\
  _tnx (dbcnx w1) = true /\
  exists esc, trace w1 = trace w ++ begin_events N w ++ esc /\ Forall escape_event esc.
Proof.
  intros Htrue Hbegan Hquote.
  split; [|split].
  - unfold executemany, bind at 1, self_set, modify. simpl.
    unfold bind at 1, with_locals. unfold bind at 1.
    unfold run_statements, try_except. unfold bind at 1.
    rewrite (begin_transaction_spec N {| local_sql := "BEGIN"; local_rowcount := 0 |}
               _ _ eq_refl).
    assert (Hok : (if _tnx (dbcnx w) then Ok tt
                   else match control_result N "BEGIN" (trace w) with
                        | Ok _ => Ok tt
                        | Raise e => Raise (control_failure "can't start transaction" e)
                        end) = Ok tt).
    { unfold began in Hbegan. destruct (_tnx (dbcnx w)); [reflexivity|].
      by destruct (control_result N "BEGIN" (trace w)). }
    rewrite Hok. cbn [for_each]. unfold bind at 1. unfold execute_one.
    rewrite Htrue. unfold bind at 1. unfold lift at 1. unfold lift at 1.
    simpl. rewrite Hquote. simpl.
    unfold statement_failure.
    by destruct (is_DatabaseError err), (is_Error err).
  - destruct (quoteparams_frames B N operation parameters (after_begin N w))
      as (_ & _ & Htnx & _). rewrite Hquote in Htnx. simpl in Htnx.
    rewrite Htnx. exact Hbegan.
  - destruct (quoteparams_frames B N operation parameters (after_begin N w))
      as (_ & _ & _ & _ & _ & _ & esc & Hesc & Hall).
    rewrite Hquote in Hesc. simpl in Hesc.
    exists esc. split; [|exact Hall]. by rewrite Hesc, <- app_assoc.
Qed.

End QuoteProofs.

(** ** The description of a row-returning result *)

Section RowResults.
Context (B : Builtins) (N : Native).

Lemma describe_columns_names infos : forall w descr w',
  map_m (describe_column B N) infos w = (Ok descr, w') ->
  map name descr = map (fun info => snd (fst info)) infos.
Proof.
  induction infos as [|info infos IH]; intros w descr w' Hrun.
  - injection Hrun as <- _. reflexivity.
  - cbn [map_m] in Hrun.
    apply bind_inv in Hrun as [(d & w1 & Hcol & Hrun)|(e & _ & [=])].
    apply bind_inv in Hrun as [(ds & w2 & Hrest & Hrun)|(e & _ & [=])].
    injection Hrun as <- _.
    unfold describe_column in Hcol.
    apply bind_inv in Hcol as [(td & w3 & _ & Hcol)|(e & _ & [=])].
    injection Hcol as <- _. simpl. f_equal. by apply (IH w1 ds w2).
Qed.

Lemma describe_rows_ok src l c w l' c' w' :
  describe_rows B N src (l, (c, w)) = (Ok tt, (l', (c', w'))) ->
  exists n infos descr,
    nat_ntuples N (trace w) src = Ok n /\
    nat_listinfo N (trace w ++ [ev_ntuples src (Ok n)]) src = Ok infos /\
    map_m (describe_column B N) infos
      (set_trace (trace w ++ [ev_ntuples src (Ok n); ev_listinfo src (Ok infos)]) w)
      = (Ok descr, w') /\
    rowcount c' = n /\
    description c' = Some descr /\
    colnames c' = Some (map name descr) /\
    coltypes c' = Some (map type_code descr) /\
    lastrowid c' = None /\
    arraysize c' = arraysize c /\
    (if build_row_factory c
     then build_row_factory_call (cursor_type (dbcnx w')) (Some (map name descr))
          = Ok (row_factory c')
     else row_factory c' = row_factory c).
Proof.
  unfold describe_rows. intros Hrun.
  unfold bind at 1 in Hrun. rewrite lift2_run in Hrun.
  unfold call_native at 1 in Hrun. simpl in Hrun.
  destruct (nat_ntuples N (trace w) src) as [n|e] eqn:Hn; [|discriminate].
  unfold bind at 1 in Hrun. unfold lift at 1, self_set at 1, modify at 1 in Hrun.
  simpl in Hrun.
  unfold bind at 1 in Hrun. rewrite lift2_run in Hrun.
  unfold call_native at 1 in Hrun. simpl in Hrun.
  rewrite <- app_assoc in Hrun. simpl in Hrun.
  destruct (nat_listinfo N (trace w ++ [ev_ntuples src (Ok n)]) src)
    as [infos|e] eqn:Hinfos; [|discriminate].
  unfold bind at 1 in Hrun. rewrite lift2_run in Hrun.
  destruct (map_m (describe_column B N) infos _) as [[descr|e] w2] eqn:Hdescr;
    [|discriminate].
  simpl in Hrun.
  unfold bind, lift, self_set, modify, gets, lift_result, ret in Hrun.
  simpl in Hrun.
  exists n, infos, descr.
  destruct (build_row_factory c) eqn:Hdyn.
  - destruct (build_row_factory_call _ _) as [factory|e] eqn:Hbuild; [|discriminate].
    injection Hrun as _ <- <-. simpl. by repeat split.
  - injection Hrun as _ <- <-. simpl. by repeat split.
Qed.

Lemma set_rowcount_same c : set_rowcount (rowcount c) c = c.
Proof. by destruct c. Qed.

Lemma execute_one_cursor operation parameters l c w :
  exists n,
    fst (snd (snd (execute_one B N operation parameters (l, (c, w)))))
    = set_rowcount n c.
Proof.
  unfold execute_one. unfold bind at 1.
  destruct (params_truthy B parameters).
  - rewrite lift2_run.
    destruct (_quoteparams B N operation parameters w) as [[sql|e] w1]; simpl.
    + unfold bind, local_set, modify, gets, lift, call_native, self_set. simpl.
      destruct (nat_execute N (trace w1) (_src c) sql) as [rows|e]; simpl.
      * destruct (rows_truthy rows); simpl;
          [exists (rowcount c); by rewrite set_rowcount_same|by exists (-1)].
      * exists (rowcount c). by rewrite set_rowcount_same.
    + exists (rowcount c). by rewrite set_rowcount_same.
  - unfold bind, ret, local_set, modify, gets, lift, call_native, self_set. simpl.
    destruct (nat_execute N (trace w) (_src c) operation) as [rows|e]; simpl.
    + destruct (rows_truthy rows); simpl;
        [exists (rowcount c); by rewrite set_rowcount_same|by exists (-1)].
    + exists (rowcount c). by rewrite set_rowcount_same.
Qed.

Lemma statement_loop_cursor operation seq : forall l c w,
  exists n,
    fst (snd (snd (for_each seq (execute_one B N operation) (l, (c, w)))))
    = set_rowcount n c.
Proof.
  induction seq as [|p seq IH]; intros l c w.
  - exists (rowcount c). simpl. by rewrite set_rowcount_same.
  - cbn [for_each]. unfold bind at 1.
    destruct (execute_one_cursor operation p l c w) as [n Hn].
    destruct (execute_one B N operation p (l, (c, w))) as [[u|e] [l1 [c1 w1]]];
      simpl in Hn; subst c1.
    + destruct (IH l1 (set_rowcount n c) w1) as [m Hm]. exists m.
      etransitivity; [exact Hm|]. reflexivity.
    + by exists n.
Qed.

Lemma run_statements_cursor operation seq l c w :
  local_sql l = "BEGIN" ->
  exists n,
    fst (snd (snd (run_statements B N operation seq (l, (c, w)))))
    = set_rowcount n c.
Proof.
  intros Hl. rewrite run_statements_state. unfold bind at 1.
  rewrite (begin_transaction_spec N l c w Hl).
  destruct (if _tnx (dbcnx w) then _ else _) as [u|e].
  - apply statement_loop_cursor.
  - exists (rowcount c). simpl. by rewrite set_rowcount_same.
Qed.

(** X5: when [executemany] has run a non-empty batch with success and
    the result of the last statement is of the row-returning kind, the
    row count is the number of tuples the native layer reports (not a
    sum over the batch), the last row id is None, the description has
    one entry per column the native layer lists, under the column's
    name, [colnames] and [coltypes] are the names and type codes of the
    description, and a cursor of the base class gets a named-tuple row
    factory for these names (none when there is no column). *)
Theorem rows_result_is_described operation seq c w ret c' w' new :
  seq <> [] ->
  executemany B N operation seq (c, w) = (Ok ret, (c', w')) ->
  trace w' = trace w ++ new ->
  (forall rt, In (ev_resulttype (_src c) (Ok rt)) new -> rt = RESULT_DQL N) ->
  exists n infos descr,
    In (ev_ntuples (_src c) (Ok n)) new /\
    In (ev_listinfo (_src c) (Ok infos)) new /\
    rowcount c' = n /\
    lastrowid c' = None /\
    description c' = Some descr /\
    map name descr = map (fun info => snd (fst info)) infos /\
    colnames c' = Some (map name descr) /\
    coltypes c' = Some (map type_code descr) /\
    arraysize c' = arraysize c /\
    (build_row_factory c = true ->
     cursor_type (dbcnx w) = base_cursor_type B ->
     row_factory c' =
       match descr with
       | [] => None
       | _ :: _ => Some (BuiltFactory (namedtuple_fields B (map name descr)))
       end).
Proof.
  intros Hseq Hrun Hnew Hdql.
  destruct (executemany_spec B N _ _ _ _ _ _ _ Hseq Hrun)
    as (_ & Hgrows & _).
  destruct (executemany_unfold B N _ _ _ _ _ _ _ Hseq Hrun)
    as (l' & rr & Hbody & Hr).
  set (l0 := {| local_sql := "BEGIN"; local_rowcount := 0 |}) in Hbody.
  apply bind_inv in Hbody as [(u & [l1 [c1 w1]] & Hst & Hdescr)|(e & _ & ->)];
    [|discriminate].
  destruct (run_statements_spec B N _ _ l0 _ _ _ _ _ _ eq_refl Hst)
    as (Hsrc & _ & _ & stmts & Hstmts & _).
  change (_src (reset_result c)) with (_src c) in Hsrc.
  unfold describe_result in Hdescr. unfold bind at 1 in Hdescr.
  unfold gets at 1 in Hdescr. simpl in Hdescr. rewrite Hsrc in Hdescr.
  unfold describe_result_of in Hdescr.
  unfold bind at 1 in Hdescr. rewrite lift2_run in Hdescr.
  unfold call_native at 1 in Hdescr. simpl in Hdescr.
  destruct (nat_resulttype N (trace w1) (_src c)) as [rt|e] eqn:Hrt;
    [|injection Hdescr as <- _ _ _; discriminate Hr].
  assert (Hafter : exists rest,
            new = begin_events N w ++ stmts ++ ev_resulttype (_src c) (Ok rt) :: rest /\
            trace w' = (trace w1 ++ [ev_resulttype (_src c) (Ok rt)]) ++ rest).
  { assert (Hg : exists rest,
              trace w' = (trace w1 ++ [ev_resulttype (_src c) (Ok rt)]) ++ rest).
    { destruct (rt =? RESULT_DQL N).
      - destruct (describe_rows_frames B N (_src c)
                    (cache_src (_type_cache (dbcnx w1))) None l1 c1
                    (set_trace (trace w1 ++ [ev_resulttype (_src c) (Ok rt)]) w1)
                    Hsrc (conj eq_refl I))
          as (_ & _ & _ & _ & _ & _ & _ & rest & Hrest & _).
        rewrite Hdescr in Hrest. by exists rest.
      - rewrite count_rows_run in Hdescr. injection Hdescr as _ _ _ <-.
        by eexists. }
    destruct Hg as [rest Hrest]. exists rest. split; [|exact Hrest].
    rewrite Hrest, Hstmts in Hnew.
    change (trace (after_begin N w)) with (trace w ++ begin_events N w) in Hnew.
    rewrite <- !app_assoc in Hnew. by apply app_inv_head in Hnew. }
  destruct Hafter as (rest & Hnew' & Hrest).
  assert (Hisdql : rt = RESULT_DQL N).
  { apply Hdql. rewrite Hnew'. apply in_or_app. right. apply in_or_app. right. by left. }
  rewrite Hisdql, Z.eqb_refl in Hdescr.
  destruct rr as [[]|e]; [|subst; discriminate].
  apply describe_rows_ok in Hdescr
    as (n & infos & descr & Hn & Hinfos & Hcols & Hrc & Hd & Hcn & Hct & Hlr & Has & Hrf).
  simpl in Hn, Hinfos, Hcols.
  exists n, infos, descr.
  assert (Hgrow2 : exists lk,
            trace w' = (trace w1 ++ [ev_resulttype (_src c) (Ok rt)]) ++
                       ev_ntuples (_src c) (Ok n) :: ev_listinfo (_src c) (Ok infos) :: lk).
  { pose proof (frames_map_m (fun _ => True) (describe_column B N) infos) as Hf.
    assert (Hcol : forall a, frames (fun _ : event => True) (describe_column B N a)).
    { intros a w0. eapply grows_mono; [|apply (describe_column_quiet B N _ None a w0 (conj eq_refl I))].
      done. }
    match type of Hcols with
    | map_m _ _ ?w0 = _ => pose proof (Hf Hcol w0) as Hf'
    end.
    rewrite Hcols in Hf'.
    destruct Hf' as (_ & _ & _ & _ & _ & _ & lk & Hlk & _).
    simpl in Hlk. exists lk. rewrite Hlk, Hisdql. rewrite <- !app_assoc. reflexivity. }
  destruct Hgrow2 as [lk Hlk].
  assert (Hrest' : rest = ev_ntuples (_src c) (Ok n) :: ev_listinfo (_src c) (Ok infos) :: lk).
  { rewrite Hlk in Hrest. by apply app_inv_head in Hrest. }
  split.
  { rewrite Hnew', Hrest'. apply in_or_app. right. apply in_or_app. right.
    right. by left. }
  split.
  { rewrite Hnew', Hrest'. apply in_or_app. right. apply in_or_app. right.
    right. right. by left. }
  split; [exact Hrc|]. split; [exact Hlr|]. split; [exact Hd|].
  split; [exact (describe_columns_names _ _ _ _ Hcols)|].
  split; [exact Hcn|]. split; [exact Hct|].
  destruct (run_statements_cursor operation seq l0 (reset_result c) w eq_refl)
    as [m Hc1].
  rewrite Hst in Hc1. simpl in Hc1.
  split; [by rewrite Has, Hc1|].
  intros Hdyn Hbase.
  assert (Hdyn1 : build_row_factory c1 = true) by (by rewrite Hc1).
  rewrite Hdyn1 in Hrf.
  assert (Htype : cursor_type (dbcnx w') = base_cursor_type B).
  { destruct Hgrows as (_ & _ & _ & Hct' & _). rewrite Hct'. exact Hbase. }
  rewrite Htype in Hrf. simpl in Hrf.
  destruct descr as [|d descr]; simpl in Hrf; by injection Hrf as <-.
Qed.

End RowResults.

(** ** The decimal type, money, closing a cursor, leaving a context *)

Section ObjectProofs.
Context (B : Builtins) (N : Native).

(** X12: [decimal_type()] reports the current decimal type and changes
    nothing; [decimal_type(D)] makes no call on the native connection
    and leaves the connection object alone, a call without argument
    then reports [D], and [numeric] columns are cast with [D].  After
    [decimal_type(float)] a [decimal.Decimal] parameter is no longer
    quoted but rejected with an [InterfaceError]; with the default it
    is passed through. *)
Theorem decimal_type_rebinds D w :
  decimal_type None w = (Ok (Decimal w), w) /\
  let w' := snd (decimal_type (Some D) w) in
  decimal_type None w' = (Ok D, w') /\
  trace w' = trace w /\ dbcnx w' = dbcnx w /\
  (forall text,
     typecast B (Decimal w') "numeric" (Some text) = decimal_of_text B D text) /\
  (forall d,
     let wd := snd (decimal_type (Some DecimalStd) w) in
     let wf := snd (decimal_type (Some DecimalFloat) w) in
     _quote B N (PyDecimal d) wd = (Ok (PyDecimal d), wd) /\
     exists e, _quote B N (PyDecimal d) wf = (Raise e, wf) /\
               exn_cls e = InterfaceError).
Proof.
  split; [reflexivity|]. intros w'.
  split; [reflexivity|]. split; [reflexivity|]. split; [reflexivity|].
  split; [reflexivity|].
  intros d wd wf. split; [reflexivity|]. by eexists.
Qed.

Lemma list_ascii_app (a b : string) :
  String.list_ascii_of_string (a +:+ b)
    = String.list_ascii_of_string a ++ String.list_ascii_of_string b.
Proof. induction a as [|ch a IH]; simpl; [reflexivity|]. by rewrite IH. Qed.

Lemma filter_none {A} (f : A -> bool) (l : list A) :
  forallb (fun x => negb (f x)) l = true -> List.filter f l = [].
Proof.
  induction l as [|x l IH]; simpl; [done|].
  intros [Hx Hl]%andb_true_iff. apply negb_true_iff in Hx. rewrite Hx. auto.
Qed.

Lemma filter_all {A} (f : A -> bool) (l : list A) :
  forallb f l = true -> List.filter f l = l.
Proof.
  induction l as [|x l IH]; simpl; [done|].
  intros [Hx Hl]%andb_true_iff. rewrite Hx. f_equal. auto.
Qed.

(** X13: [_cast_money] ignores every character that is not a digit, a
    point or a minus sign, wherever it stands (a currency symbol, a
    thousands separator, a blank): the text with such characters and
    the text without them are cast alike, and a text free of them is
    handed to the decimal type unchanged. *)
Theorem cast_money_drops_symbols D (before symbols after : string) :
  no_money_chars symbols = true ->
  _cast_money B D (before +:+ symbols +:+ after) = _cast_money B D (before +:+ after) /\
  (money_chars (before +:+ after) = true ->
   _cast_money B D (before +:+ symbols +:+ after)
     = decimal_of_text B D (before +:+ after)).
Proof.
  intros Hnone. unfold _cast_money, money_chars.
  fold money_char.
  assert (Hdrop : List.filter money_char
                    (String.list_ascii_of_string (before +:+ symbols +:+ after))
                  = List.filter money_char
                      (String.list_ascii_of_string (before +:+ after))).
  { rewrite !list_ascii_app, !List.filter_app.
    by rewrite (filter_none money_char _ Hnone). }
  change (fun v : ascii =>
            bool_decide (v ∈ String.list_ascii_of_string "0123456789.-"))
    with money_char.
  rewrite Hdrop. split; [reflexivity|].
  intros Hall. rewrite (filter_all money_char _ Hall).
  by rewrite String.string_of_list_ascii_of_string.
Qed.

(** X22: [Cursor.close] makes one native call, [close] on the source
    object of the cursor, and touches nothing of the connection: an
    open transaction stays open.  When the call succeeds, description,
    column names and types, row count and last row id are reset (row
    factory and array size are kept); when it raises, the cursor is
    left as it was.  [__exit__] does the same, whatever its
    arguments. *)
Theorem cursor_close_effects c w et ev tb :
  let reply := nat_src_close N (trace w) (_src c) in
  let w' := set_trace (trace w ++ [ev_src_close (_src c) reply]) w in
  Cursor_close N (c, w)
    = (reply, (match reply with Ok _ => closed_cursor c | Raise _ => c end, w')) /\
  Cursor_exit N et ev tb (c, w) = Cursor_close N (c, w) /\
  dbcnx w' = dbcnx w.
Proof.
  intros reply w'. split; [|split; reflexivity].
  unfold Cursor_close, bind, gets, lift, call_native, self_set, modify. simpl.
  fold reply. destruct reply as [[]|e]; reflexivity.
Qed.

(** X23: leaving the connection's context on an open connection ends the
    transaction and keeps the connection open: with a transaction in
    progress it sends [COMMIT] when the block ended cleanly (all three
    arguments None) and [ROLLBACK] otherwise, without one it makes no
    native call; afterwards the transaction flag is clear whatever the
    command answered, the type cache is kept, and leaving again does
    nothing. *)
Theorem connection_exit_ends_transaction et ev tb w h :
  _cnx (dbcnx w) = Some h ->
  let sql := if clean_exit et ev tb then "COMMIT" else "ROLLBACK" in
  let w' := snd (Connection_exit N et ev tb w) in
  _tnx (dbcnx w') = false /\
  _cnx (dbcnx w') = Some h /\
  _type_cache (dbcnx w') = _type_cache (dbcnx w) /\
  trace w' = trace w ++
             (if _tnx (dbcnx w) then control_events N sql (trace w) else []) /\
  (_tnx (dbcnx w) = false -> Connection_exit N et ev tb w = (Ok tt, w)) /\
  Connection_exit N et ev tb w' = (Ok tt, w').
Proof.
  intros Hopen sql w'.
  assert (Hcases :
    Connection_exit N et ev tb w
      = (if clean_exit et ev tb then commit N w else rollback N w)).
  { by destruct et, ev, tb. }
  assert (Hstate :
    w' = if _tnx (dbcnx w)
         then set_trace (trace w ++ control_events N sql (trace w))
                (set_dbcnx (set_tnx false (dbcnx w)) w)
         else w).
  { unfold w', sql. rewrite Hcases.
    destruct (_tnx (dbcnx w)) eqn:Htnx, (clean_exit et ev tb).
    - by rewrite (commit_open N w h Hopen Htnx).
    - by rewrite (rollback_open N w h Hopen Htnx).
    - by rewrite (commit_idle N w h Hopen Htnx).
    - by rewrite (rollback_idle N w h Hopen Htnx). }
  assert (Htnx' : _tnx (dbcnx w') = false).
  { rewrite Hstate. by destruct (_tnx (dbcnx w)) eqn:Htnx. }
  assert (Hcnx' : _cnx (dbcnx w') = Some h).
  { rewrite Hstate. by destruct (_tnx (dbcnx w)). }
  split; [exact Htnx'|]. split; [exact Hcnx'|].
  split; [rewrite Hstate; by destruct (_tnx (dbcnx w))|].
  split; [rewrite Hstate; destruct (_tnx (dbcnx w)); [done|by rewrite app_nil_r]|].
  split.
  - intros Htnx. rewrite Hcases. destruct (clean_exit et ev tb).
    + exact (commit_idle N w h Hopen Htnx).
    + exact (rollback_idle N w h Hopen Htnx).
  - assert (Hagain :
      Connection_exit N et ev tb w'
        = (if clean_exit et ev tb then commit N w' else rollback N w')).
    { by destruct et, ev, tb. }
    rewrite Hagain. destruct (clean_exit et ev tb).
    + exact (commit_idle N w' h Hcnx' Htnx').
    + exact (rollback_idle N w' h Hcnx' Htnx').
Qed.

End ObjectProofs.

(** ** Type objects *)

Lemma existsb_eqb_elem_of (name : string) (l : list string) :
  existsb (String.eqb name) l = bool_decide (name ∈ l).
Proof.
  induction l as [|x l IH].
  - symmetry. apply bool_decide_eq_false_2, not_elem_of_nil.
  - cbn [existsb]. rewrite IH.
    destruct (String.eqb_spec name x) as [Heq|Hne]; simpl.
    + subst x. symmetry. apply bool_decide_eq_true_2. left.
    + apply bool_decide_ext. rewrite elem_of_cons.
      split; [by right|]. intros [Heq|Hin]; [done|exact Hin].
Qed.

Lemma Type_eq_words (s name : string) :
  Type_eq (Type_new (inl s)) (inl name) = existsb (String.eqb name) (py_split s).
Proof.
  rewrite existsb_eqb_elem_of. simpl. apply bool_decide_ext.
  apply elem_of_list_to_set.
Qed.

Lemma Type_ne_negb (t : gset string) (other : string + gset string) :
  Type_ne t other = negb (Type_eq t other).
Proof.
  destruct other as [name|t']; simpl.
  - destruct (decide (name ∈ t)) as [Hin|Hin].
    + rewrite (bool_decide_eq_true_2 _ Hin). apply bool_decide_eq_false. tauto.
    + rewrite (bool_decide_eq_false_2 _ Hin). by apply bool_decide_eq_true.
  - destruct (decide (t = t')) as [Heq|Hne].
    + rewrite (bool_decide_eq_true_2 _ Heq). apply bool_decide_eq_false. tauto.
    + rewrite (bool_decide_eq_false_2 _ Hne). by apply bool_decide_eq_true.
Qed.

Ltac type_names name :=
  unfold STRING, BINARY, NUMBER, DATETIME, ROWID, BOOL, SMALLINT, INTEGER, LONG,
    FLOAT, NUMERIC, MONEY, DATE, TIME, TIMESTAMP, INTERVAL in *;
  rewrite ?Type_eq_words in *;
  repeat match goal with
         | |- context [py_split ?s] =>
             let l := eval vm_compute in (py_split s) in
             change (py_split s) with l
         | H : context [py_split ?s] |- _ =>
             let l := eval vm_compute in (py_split s) in
             change (py_split s) with l in H
         end;
  cbn [existsb] in *.

Ltac split_by_name name :=
  repeat match goal with
         | |- context [String.eqb name ?s] =>
             destruct (String.eqb_spec name s) as [->|?];
             [try (vm_compute; reflexivity); try discriminate|]
         | H : context [String.eqb name ?s] |- _ =>
             destruct (String.eqb_spec name s) as [->|?];
             [try (vm_compute; reflexivity); try discriminate|]
         end.

(** X15: no type name compares equal to two of the mandatory type
    objects [STRING], [BINARY], [NUMBER], [DATETIME] and [ROWID]: when
    one of them is [==] to the name, each of the others is not, and is
    [!=] to it. *)
Theorem mandatory_types_disjoint (i j : nat) (t1 t2 : gset string) (name : string) :
  i <> j ->
  mandatory_types !! i = Some t1 ->
  mandatory_types !! j = Some t2 ->
  Type_eq t1 (inl name) = true ->
  Type_eq t2 (inl name) = false /\ Type_ne t2 (inl name) = true.
Proof.
  intros Hij H1 H2 Heq.
  assert (Hno : Type_eq t2 (inl name) = false).
  { assert (Hdisj : t1 ∩ t2 = ∅).
    { do 5 (destruct i as [|i]; [do 5 (destruct j as [|j]; [first
        [ congruence
        | injection H1 as <-; injection H2 as <-;
          apply (bool_decide_unpack _); vm_compute; exact I ]|]);
        discriminate H2|]).
      discriminate H1. }
    simpl in *. apply bool_decide_eq_true in Heq. apply bool_decide_eq_false.
    set_solver. }
  split; [exact Hno|]. by rewrite Type_ne_negb, Hno.
Qed.

(** X16: a type name compares equal to [NUMBER] exactly when it compares
    equal to one of [INTEGER], [FLOAT], [NUMERIC] and [MONEY], and then
    to that one only; likewise for [DATETIME] and [DATE], [TIME],
    [TIMESTAMP] and [INTERVAL]; and [INTEGER] is [SMALLINT], [LONG] and
    the names [int4] and [serial]. *)
Theorem specific_types_partition_generic (name : string) :
  matching name number_types = (if Type_eq NUMBER (inl name) then 1 else 0)%nat /\
  matching name datetime_types = (if Type_eq DATETIME (inl name) then 1 else 0)%nat /\
  Type_eq INTEGER (inl name)
    = Type_eq SMALLINT (inl name) || Type_eq LONG (inl name)
      || String.eqb name "int4" || String.eqb name "serial".
Proof.
  unfold matching, number_types, datetime_types. cbn [List.filter].
  type_names name.
  repeat split; split_by_name name; reflexivity.
Qed.

Section CastTable.

Context (B : Builtins).

(** X14: the type names that [_cast] has a function for are those that
    compare equal to [BOOL], [BINARY], [NUMBER] or [ROWID]; a column
    whose type compares equal to [STRING] or [DATETIME] has none, so
    [typecast] hands its text back unchanged (and None for NULL): dates
    and times reach the caller as strings. *)
Theorem cast_table_follows_type_objects (D : decimal_binding) (name : string) :
  has_cast B D name
    = Type_eq BOOL (inl name) || Type_eq BINARY (inl name)
      || Type_eq NUMBER (inl name) || Type_eq ROWID (inl name) /\
  (Type_eq STRING (inl name) || Type_eq DATETIME (inl name) = true ->
   forall value,
     typecast B D name value
       = Ok (match value with Some text => PyText text | None => PyNone end)).
Proof.
  unfold has_cast, typecast, _cast. type_names name.
  split.
  - split_by_name name; reflexivity.
  - intros H [text|]; [|reflexivity]. revert H.
    split_by_name name; try reflexivity.
Qed.

End CastTable.
Lemma graphic_not_space c : graphic c = true -> is_space c = false.
Proof.
  unfold graphic, is_space. cbv zeta. intros [H1 H2]%andb_true_iff.
  apply N.leb_le in H1. apply N.leb_le in H2.
  apply orb_false_iff. split; apply andb_false_iff.
  - right. apply N.leb_gt. lia.
  - right. apply N.leb_gt. lia.
Qed.

Lemma split_words_word w rest :
  forallb graphic (String.list_ascii_of_string w) = true ->
  split_words (w +:+ rest)
    = (w +:+ fst (split_words rest), snd (split_words rest)).
Proof.
  induction w as [|c w IH]; simpl.
  - intros _. change (EmptyString +:+ rest) with rest.
    change (EmptyString +:+ fst (split_words rest)) with (fst (split_words rest)).
    by destruct (split_words rest).
  - intros [Hc Hw]%andb_true_iff.
    change (String c w +:+ rest) with (String c (w +:+ rest)).
    cbn [split_words]. rewrite (IH Hw).
    by rewrite (graphic_not_space c Hc).
Qed.

Lemma append_empty (s : string) : s +:+ EmptyString = s.
Proof.
  induction s as [|c s IH]; [reflexivity|].
  change (String c s +:+ EmptyString) with (String c (s +:+ EmptyString)).
  by rewrite IH.
Qed.

Lemma cons_word_name w ws : type_name_like w = true -> cons_word w ws = w :: ws.
Proof. by destruct w. Qed.

Lemma split_words_names name names :
  Forall (fun w => type_name_like w = true) (name :: names) ->
  split_words (String.concat " " (name :: names)) = (name, names).
Proof.
  revert name. induction names as [|w names IH]; intros name Hall.
  - inversion Hall as [|? ? Hname _]; subst.
    apply andb_true_iff in Hname as [_ Hname].
    simpl. rewrite <- (append_empty name) at 1.
    rewrite (split_words_word name EmptyString Hname). simpl.
    by rewrite append_empty.
  - inversion Hall as [|? ? Hname Hrest]; subst.
    apply andb_true_iff in Hname as [_ Hname].
    change (String.concat " " (name :: w :: names))
      with (name +:+ String " " (String.concat " " (w :: names))).
    rewrite (split_words_word name _ Hname).
    cbn [split_words]. rewrite (IH w Hrest).
    change (is_space " ") with true. cbn [fst snd].
    rewrite append_empty, cons_word_name; [done|]. by inversion Hrest.
Qed.

Lemma py_split_names names :
  Forall (fun w => type_name_like w = true) names ->
  py_split (String.concat " " names) = names.
Proof.
  intros Hall. destruct names as [|name names]; [reflexivity|].
  unfold py_split. rewrite (split_words_names name names Hall).
  apply cons_word_name. by inversion Hall.
Qed.

(** X17: a type object made from a string of type names separated by
    blanks compares equal ([==]) to a string exactly when the string is
    one of the names, [!=] is the negation, and the object equals the
    one made from the list of the names. *)
Theorem type_object_of_names (names : list string) (name : string) :
  Forall (fun w => type_name_like w = true) names ->
  let t := Type_new (inl (String.concat " " names)) in
  Type_eq t (inl name) = bool_decide (name ∈ names) /\
  Type_ne t (inl name) = negb (bool_decide (name ∈ names)) /\
  Type_eq t (inr (Type_new (inr names))) = true.
Proof.
  intros Hall t. unfold t. simpl. rewrite (py_split_names names Hall).
  split; [|split].
  - apply bool_decide_ext, elem_of_list_to_set.
  - destruct (decide (name ∈ names)) as [Hin|Hin].
    + rewrite (bool_decide_eq_true_2 _ Hin). apply bool_decide_eq_false_2.
      rewrite elem_of_list_to_set. tauto.
    + rewrite (bool_decide_eq_false_2 _ Hin). apply bool_decide_eq_true_2.
      by rewrite elem_of_list_to_set.
  - by apply bool_decide_eq_true_2.
Qed.

(** ** Connecting *)

Lemma split_on_free sep s : free_of sep s = true -> split_on sep s = [s].
Proof.
  unfold free_of. induction s as [|c s IH]; simpl; [done|].
  intros [Hc Hs]%andb_true_iff. apply negb_true_iff in Hc. rewrite Hc.
  by rewrite (IH Hs).
Qed.

Lemma split_on_app sep a rest :
  free_of sep a = true ->
  split_on sep (a +:+ String sep rest) = a :: split_on sep rest.
Proof.
  unfold free_of. induction a as [|c a IH]; simpl.
  - intros _. by rewrite Ascii.eqb_refl.
  - intros [Hc Ha]%andb_true_iff. apply negb_true_iff in Hc. rewrite Hc.
    by rewrite (IH Ha).
Qed.

Lemma split_on_concat sep part parts :
  Forall (fun p => free_of sep p = true) (part :: parts) ->
  split_on sep (String.concat (String sep EmptyString) (part :: parts)) = part :: parts.
Proof.
  revert part. induction parts as [|p parts IH]; intros part Hfree.
  - simpl. apply split_on_free. by inversion Hfree.
  - inversion Hfree as [|? ? Hpart Hrest]; subst.
    change (String.concat (String sep EmptyString) (part :: p :: parts))
      with (part +:+ String sep (String.concat (String sep EmptyString) (p :: parts))).
    rewrite (split_on_app sep part _ Hpart). by rewrite (IH p Hrest).
Qed.

Lemma split_on_concat_lookup sep parts i :
  Forall (fun p => free_of sep p = true) parts ->
  default EmptyString (split_on sep (String.concat (String sep EmptyString) parts) !! i)
    = default EmptyString (parts !! i).
Proof.
  intros Hfree. destruct parts as [|part parts].
  - simpl. by destruct i.
  - by rewrite (split_on_concat sep part parts Hfree).
Qed.

Section ConnectProofs.
Context (B : Builtins).

(** X18: a DSN made of parts without colons, joined by colons, is read
    back part by part: host, database, user, password and options are
    the first five parts, a missing part is empty, further parts are
    ignored, an empty host or user is passed as None, and the port is
    always -1. *)
Theorem connect_reads_dsn (parts : list string) :
  Forall (fun p => free_of ":" p = true) parts ->
  let part i := default EmptyString (parts !! i) in
  connect_arguments B (Some (String.concat ":" parts)) None None None None
    = Ok {| dbbase := part 1%nat; dbhost := none_if_empty (part 0%nat);
            dbport := -1; dbopt := part 4%nat;
            dbuser := none_if_empty (part 2%nat); dbpasswd := part 3%nat |}.
Proof.
  intros Hfree part. unfold connect_arguments. simpl.
  by rewrite !(split_on_concat_lookup ":" parts _ Hfree).
Qed.

(** X19: whatever the DSN says, the keyword arguments win: [user],
    [password] and [database] are passed on as given (an empty user as
    None); a [host] without a colon is the host, with port -1; a
    [host] of the form [name:port] gives the host [name] and the port
    [int(port)], or -1 when [int] rejects it; without [host] the port
    is -1. *)
Theorem connect_keywords_override dsn user password host database args :
  connect_arguments B dsn user password host database = Ok args ->
  (forall u, user = Some u -> dbuser args = none_if_empty u) /\
  (forall p, password = Some p -> dbpasswd args = p) /\
  (forall d, database = Some d -> dbbase args = d) /\
  (host = None -> dbport args = -1) /\
  (forall h, host = Some h -> free_of ":" h = true ->
     dbhost args = none_if_empty h /\ dbport args = -1) /\
  (forall h p, host = Some (h +:+ ":" +:+ p) ->
     free_of ":" h = true -> free_of ":" p = true ->
     dbhost args = none_if_empty h /\
     dbport args = match int_of_text B p with Ok n => n | Raise _ => -1 end).
Proof.
  intros Hargs.
  assert (Hfields :
    (forall u, user = Some u -> dbuser args = none_if_empty u) /\
    (forall p, password = Some p -> dbpasswd args = p) /\
    (forall d, database = Some d -> dbbase args = d)).
  { unfold connect_arguments in Hargs.
    destruct host as [h|]; [|injection Hargs as <-; repeat split; by intros ? ->].
    destruct (split_on ":" h !! 0%nat) as [dbhost|];
      [|injection Hargs as <-; repeat split; by intros ? ->].
    destruct (split_on ":" h !! 1%nat) as [port|];
      [|injection Hargs as <-; repeat split; by intros ? ->].
    destruct (int_of_text B port) as [n|e];
      [injection Hargs as <-; repeat split; by intros ? ->|].
    destruct (caught _ e); [|discriminate].
    injection Hargs as <-; repeat split; by intros ? ->. }
  destruct Hfields as (Hu & Hp & Hd).
  split; [exact Hu|]. split; [exact Hp|]. split; [exact Hd|].
  split; [|split].
  - intros ->. unfold connect_arguments in Hargs. by injection Hargs as <-.
  - intros h -> Hfree. unfold connect_arguments in Hargs.
    rewrite (split_on_free ":" h Hfree) in Hargs. simpl in Hargs.
    by injection Hargs as <-.
  - intros h p -> Hh Hp'. unfold connect_arguments in Hargs.
    change (h +:+ ":" +:+ p) with (h +:+ String ":" p) in Hargs.
    rewrite (split_on_app ":" h p Hh), (split_on_free ":" p Hp') in Hargs.
    simpl in Hargs.
    destruct (int_of_text B p) as [n|e]; [by injection Hargs as <-|].
    destruct (caught _ e); [|discriminate]. by injection Hargs as <-.
Qed.

End ConnectProofs.

Section CursorCreation.
Context (N : Native).

(** X21: [cursor()] on an open connection makes exactly one native call,
    [source()], and changes nothing of the connection (it begins no
    transaction); when the call succeeds the new cursor has that source
    object, no description, row count -1 and array size 1, and when it
    fails, with whatever exception, [cursor()] raises the
    [OperationalError] [invalid connection]. *)
Theorem cursor_makes_one_source_call w h :
  _cnx (dbcnx w) = Some h ->
  let reply := nat_source N (trace w) in
  let r := fst (cursor N w) in
  let w' := snd (cursor N w) in
  trace w' = trace w ++ [ev_source reply] /\
  dbcnx w' = dbcnx w /\
  match reply with
  | Ok _ =>
      exists c,
        r = Ok c /\ _src c = length (trace w) /\
        description c = None /\ rowcount c = -1 /\ arraysize c = 1 /\
        lastrowid c = None /\
        row_factory c = (if overrides_row_factory (cursor_type (dbcnx w))
                         then Some ClassFactory else None)
  | Raise _ => r = Raise (_op_error "invalid connection")
  end.
Proof.
  intros Hopen reply r w'. unfold r, w'. rewrite (cursor_open N w h Hopen).
  fold reply. split; [reflexivity|]. split; [reflexivity|].
  destruct reply; [|reflexivity]. eexists. by repeat split.
Qed.
End CursorCreation.

Section Connecting.
Context (B : Builtins).

(** X20: when [connect] returns, the native [connect] was called with the
    arguments read from the DSN and the keywords and gave the native
    connection; two source objects have been created on it and nothing
    else; the new connection has the decimal type of the module, no
    transaction open and an empty type cache, so [commit] and
    [rollback] on it do nothing; and a cursor then created on it is a
    cursor of the connection in the sense the statement properties
    assume, with no result yet. *)
Theorem connect_opens_idle_connection
    (_connect_ : ConnectArgs -> result Native) D dsn user password host database N w :
  connect B _connect_ D dsn user password host database = Ok (N, w) ->
  (exists args,
     connect_arguments B dsn user password host database = Ok args /\
     _connect_ args = Ok N) /\
  trace w = [ev_source (Ok tt); ev_source (Ok tt)] /\
  Decimal w = D /\
  _tnx (dbcnx w) = false /\
  cache_items (_type_cache (dbcnx w)) = ∅ /\
  commit N w = (Ok tt, w) /\
  rollback N w = (Ok tt, w) /\
  forall c w1,
    cursor N w = (Ok c, w1) ->
    cursor_of c w1 /\ dbcnx w1 = dbcnx w /\
    rowcount c = -1 /\ arraysize c = 1 /\ description c = None /\
    row_factory c = None.
Proof.
  unfold connect. intros Hconnect.
  destruct (connect_arguments B dsn user password host database) as [args|e] eqn:Hargs;
    [|discriminate].
  destruct (_connect_ args) as [N'|e] eqn:Hopen; [|discriminate].
  destruct (fst (Connection_init B N' [] D)) as [w0|e] eqn:Hinit; [|discriminate].
  injection Hconnect as -> ->.
  split; [by exists args|].
  destruct (Connection_init_fresh B N [] D w Hinit) as (Hsrc & Htnx & Hcache).
  unfold Connection_init in Hinit. simpl in Hinit.
  destruct (nat_source N []) as [[]|e1] eqn:H1; [|discriminate].
  destruct (nat_source N [ev_source (Ok tt)]) as [[]|e2] eqn:H2; [|discriminate].
  injection Hinit as <-. simpl.
  do 6 (split; [reflexivity|]).
  - intros c w1 Hcur.
    set (w := {| trace := [ev_source (Ok ()); ev_source (Ok ())]; Decimal := D;
                 dbcnx := _ |}) in *.
    split; [by apply (cursor_is_cursor_of N w c w1)|].
    destruct (cursor_fresh N w c w1 Hcur) as (_ & Hdb & Hrc & Hd & _).
    split; [exact Hdb|]. split; [exact Hrc|].
    rewrite (cursor_open N w the_pgcnx eq_refl) in Hcur.
    destruct (nat_source N (trace w)) as [[]|e3]; [|discriminate].
    by injection Hcur as <- _.
Qed.

End Connecting.


(** ** The further properties at work on the concrete server *)

Lemma fetchmany_gives_named_rows_witness :
  let c := fst (snd DemoMore.selected) in
  let w := snd (snd DemoMore.selected) in
  fst (fetchmany Demo.py (Demo.native []) DemoMore.rows_as_lists None false (c, w))
    = Ok [NamedRow ["a"] [PyInt 1]] /\
  row_factory c = Some (BuiltFactory ["a"]) /\
  exists rows typs,
    nat_fetch (Demo.native []) (trace w) (_src c) 1 = Ok rows /\
    (rows <> [] -> coltypes c = Some typs) /\
    Forall2
      (fun raw row =>
         exists values,
           row = NamedRow (R := list pyval) ["a"] values /\
           length values = 1%nat /\
           Forall2
             (fun tv v => typecast_column Demo.py DecimalStd (fst tv) (snd tv) = Ok v)
             (zip typs raw) values /\
           forall i, (i < length typs)%nat -> raw !! i = Some None ->
                     values !! i = Some PyNone)
      rows [NamedRow ["a"] [PyInt 1]].
Proof.
  intros c w.
  assert (Hrun : fetchmany Demo.py (Demo.native []) DemoMore.rows_as_lists None false
                   (c, w)
                 = (Ok [NamedRow ["a"] [PyInt 1]],
                    snd (fetchmany Demo.py (Demo.native []) DemoMore.rows_as_lists
                           None false (c, w))))
    by (vm_compute; reflexivity).
  split; [by rewrite Hrun|]. split; [reflexivity|].
  exact (fetchmany_gives_named_rows Demo.py (Demo.native []) DemoMore.rows_as_lists
           None false c w _ _ ["a"] Hrun eq_refl).
Defined.

Lemma fetch_failure_classes_witness :
  nat_fetch (Demo.native []) (trace Demo.cursor_world) (_src Demo.fresh_cursor) 1
    = Raise (_db_error "no result" Error) /\
  exists e,
    fst (fetchmany Demo.py (Demo.native []) DemoMore.rows_as_lists None false
           (Demo.fresh_cursor, Demo.cursor_world)) = Raise e /\
    exn_msg e = "no result" /\
    is_DatabaseError e = true.
Proof.
  split; [reflexivity|].
  destruct (fetch_failure_classes Demo.py (Demo.native []) DemoMore.rows_as_lists
              None false Demo.fresh_cursor Demo.cursor_world
              (_db_error "no result" Error) eq_refl)
    as (e & He & Hmsg & Hdb & _).
  exists e. split; [exact He|]. split; [exact Hmsg|exact (Hdb eq_refl)].
Defined.

Lemma fetch_exhausted_witness :
  let c := fst (snd DemoMore.selected) in
  let w := snd (snd DemoMore.selected) in
  nat_fetch DemoMore.drained (trace w) (_src c) 1 = Ok [] /\
  fst (fetchone Demo.py DemoMore.drained DemoMore.rows_as_lists (c, w)) = Ok None /\
  fst (fetchall Demo.py DemoMore.drained DemoMore.rows_as_lists (c, w)) = Ok [] /\
  exists e,
    fst (Cursor_next Demo.py DemoMore.drained DemoMore.rows_as_lists (c, w)) = Raise e /\
    exn_cls e = Builtin "StopIteration".
Proof.
  intros c w.
  destruct (fetch_exhausted Demo.py DemoMore.drained DemoMore.rows_as_lists c w)
    as (_ & Hall & Hone).
  destruct (Hone eq_refl) as (Hnone & Hnext).
  split; [reflexivity|]. split; [exact Hnone|]. split; [exact (Hall eq_refl)|exact Hnext].
Defined.

Lemma fetch_cast_error_is_not_wrapped_witness :
  let c := fst (snd DemoMore.selected) in
  let w := snd (snd DemoMore.selected) in
  let e := builtin_error "ValueError" "invalid literal for int()" in
  nat_fetch DemoMore.garbled (trace w) (_src c) 1 = Ok ([] ++ [Some "one"] :: []) /\
  make_rows Demo.py DemoMore.rows_as_lists (Decimal w) c [[Some "one"]] = Raise e /\
  fst (fetchmany Demo.py DemoMore.garbled DemoMore.rows_as_lists None false (c, w))
    = Raise e.
Proof.
  intros c w e.
  assert (Hfetch : nat_fetch DemoMore.garbled (trace w) (_src c) 1
                   = Ok ([] ++ [Some "one"] :: [])) by reflexivity.
  assert (Hraw : make_rows Demo.py DemoMore.rows_as_lists (Decimal w) c [[Some "one"]]
                 = Raise e) by (vm_compute; reflexivity).
  split; [exact Hfetch|]. split; [exact Hraw|].
  by rewrite (fetch_cast_error_is_not_wrapped Demo.py DemoMore.garbled
                DemoMore.rows_as_lists None false c w [] [Some "one"] [] e
                Hfetch (Forall_nil_2 _) Hraw).
Defined.

Lemma rows_result_is_described_witness :
  let c' := fst (snd DemoMore.selected) in
  let w' := snd (snd DemoMore.selected) in
  executemany Demo.py (Demo.native []) DemoMore.select [ValParams PyNone]
    (Demo.fresh_cursor, Demo.cursor_world) = (Ok ReturnsSelf, (c', w')) /\
  trace w' = trace Demo.cursor_world ++ DemoMore.select_events /\
  rowcount c' = 1 /\
  colnames c' = Some ["a"] /\
  coltypes c' = Some [Some "int4"] /\
  row_factory c' = Some (BuiltFactory ["a"]) /\
  exists n infos descr,
    In (ev_ntuples 2 (Ok n)) DemoMore.select_events /\
    In (ev_listinfo 2 (Ok infos)) DemoMore.select_events /\
    rowcount c' = n /\
    lastrowid c' = None /\
    description c' = Some descr /\
    map name descr = map (fun info => snd (fst info)) infos /\
    colnames c' = Some (map name descr) /\
    coltypes c' = Some (map type_code descr) /\
    arraysize c' = 1 /\
    (true = true ->
     base_cursor_type Demo.py = base_cursor_type Demo.py ->
     row_factory c' =
       match descr with
       | [] => None
       | _ :: _ => Some (BuiltFactory (map name descr))
       end).
Proof.
  intros c' w'.
  assert (Hrun : executemany Demo.py (Demo.native []) DemoMore.select [ValParams PyNone]
                   (Demo.fresh_cursor, Demo.cursor_world)
                 = (Ok ReturnsSelf, (c', w'))) by (vm_compute; reflexivity).
  assert (Hnew : trace w' = trace Demo.cursor_world ++ DemoMore.select_events)
    by (vm_compute; reflexivity).
  assert (Hdql : forall rt,
            In (ev_resulttype (_src Demo.fresh_cursor) (Ok rt)) DemoMore.select_events ->
            rt = RESULT_DQL (Demo.native [])).
  { intros rt Hin.
    destruct Hin as [Hin|[Hin|[Hin|[Hin|[Hin|[Hin|[Hin|[Hin|[]]]]]]]]];
      try discriminate Hin.
    by injection Hin as <-. }
  assert (Hseq : [ValParams PyNone] <> []) by discriminate.
  split; [exact Hrun|]. split; [exact Hnew|].
  split; [reflexivity|]. split; [reflexivity|]. split; [reflexivity|].
  split; [reflexivity|].
  exact (rows_result_is_described Demo.py (Demo.native []) DemoMore.select
           [ValParams PyNone] Demo.fresh_cursor Demo.cursor_world ReturnsSelf c' w'
           DemoMore.select_events Hseq Hrun Hnew Hdql).
Defined.

Lemma execute_without_parameters_is_verbatim_witness :
  params_truthy Demo.py (ValParams (PyList [])) = false /\
  cursor_of Demo.fresh_cursor Demo.cursor_world /\
  exists rest,
    trace (snd (snd (execute Demo.py (Demo.native []) "SELECT 100 % 7"
                       (ValParams (PyList []))
                       (Demo.fresh_cursor, Demo.cursor_world))))
    = trace Demo.cursor_world ++
      [ev_source (Ok tt); ev_execute 3 "BEGIN" (Ok (Some (-1)))] ++
      ev_execute 2 "SELECT 100 % 7" (Ok None) :: rest /\
    statement_replies 2 rest = [].
Proof.
  split; [reflexivity|]. split; [exact demo_cursor_of|].
  destruct (execute_without_parameters_is_verbatim Demo.py (Demo.native [])
              "SELECT 100 % 7" (ValParams (PyList []))
              Demo.fresh_cursor Demo.cursor_world eq_refl) as (rest & Htrace & Honce).
  exists rest. split; [exact Htrace|exact (proj2 (Honce demo_cursor_of))].
Defined.

Lemma quoting_failure_is_reported_under_begin_witness :
  let w1 := after_begin (Demo.native []) Demo.cursor_world in
  params_truthy Demo.py DemoMore.unquotable = true /\
  began (Demo.native []) Demo.cursor_world = true /\
  _quoteparams Demo.py (Demo.native []) Demo.insert DemoMore.unquotable w1
    = (Raise DemoMore.unquotable_error, w1) /\
  executemany Demo.py (Demo.native []) Demo.insert [DemoMore.unquotable]
    (Demo.fresh_cursor, Demo.cursor_world)
    = (Raise (_db_error
                "error in 'BEGIN': 'do not know how to handle type <class 'dict'>' "
                DatabaseError),
       (reset_result Demo.fresh_cursor, w1)) /\
  _tnx (dbcnx w1) = true.
Proof.
  intros w1.
  assert (Htrue : params_truthy Demo.py DemoMore.unquotable = true) by reflexivity.
  assert (Hbegan : began (Demo.native []) Demo.cursor_world = true) by reflexivity.
  assert (Hquote : _quoteparams Demo.py (Demo.native []) Demo.insert
                     DemoMore.unquotable w1
                   = (Raise DemoMore.unquotable_error, w1)) by reflexivity.
  destruct (quoting_failure_is_reported_under_begin Demo.py (Demo.native [])
              Demo.insert DemoMore.unquotable [] Demo.fresh_cursor Demo.cursor_world
              DemoMore.unquotable_error w1 Htrue Hbegan Hquote)
    as (Hrun & Htnx & _).
  split; [exact Htrue|]. split; [exact Hbegan|]. split; [exact Hquote|].
  split; [exact Hrun|exact Htnx].
Defined.

Lemma callproc_without_parameters_witness :
  proc_arity NoParameters = 0%nat /\
  exists rest,
    trace (snd (snd (callproc Demo.py (Demo.native []) "now" NoParameters
                       (Demo.fresh_cursor, Demo.cursor_world))))
    = trace Demo.cursor_world ++
      [ev_source (Ok tt); ev_execute 3 "BEGIN" (Ok (Some (-1)))] ++
      ev_execute 2 (callproc_query "now" 0) (Ok (Some (-1))) :: rest.
Proof.
  split; [reflexivity|].
  exact (proj1 (callproc_without_parameters Demo.py (Demo.native []) "now"
                  NoParameters Demo.fresh_cursor Demo.cursor_world eq_refl)).
Defined.

Lemma mapping_quotes_referenced_keys_only_witness :
  keyed_only (format_scan Demo.py "SELECT %(x)s") = true /\
  (forall key render,
     FmtKey key render ∈ format_scan Demo.py "SELECT %(x)s" ->
     DemoMore.by_name !! key = DemoMore.by_name_and_more !! key) /\
  _quoteparams Demo.py (Demo.native []) "SELECT %(x)s"
    (MapParams DemoMore.by_name_and_more) Demo.fresh_world
  = (Ok "SELECT 1", Demo.fresh_world).
Proof.
  assert (Hagree : forall key render,
            FmtKey key render ∈ format_scan Demo.py "SELECT %(x)s" ->
            DemoMore.by_name !! key = DemoMore.by_name_and_more !! key).
  { intros key render Hin. simpl in Hin.
    apply elem_of_cons in Hin as [Hin|Hin]; [discriminate Hin|].
    apply elem_of_cons in Hin as [Hin|Hin];
      [injection Hin as -> _; vm_compute; reflexivity|].
    apply elem_of_cons in Hin as [Hin|Hin]; [discriminate Hin|].
    by apply elem_of_nil in Hin. }
  split; [reflexivity|]. split; [exact Hagree|].
  rewrite <- (mapping_quotes_referenced_keys_only Demo.py (Demo.native [])
                "SELECT %(x)s" DemoMore.by_name DemoMore.by_name_and_more
                Demo.fresh_world eq_refl Hagree).
  vm_compute. reflexivity.
Defined.

Lemma quote_sequence_of_literals_witness :
  mapM literal_of [PyInt 1; PyNone; PyBool true] = Some ["1"; "NULL"; "True"] /\
  _quote Demo.py (Demo.native []) (PyList [PyInt 1; PyNone; PyBool true])
    Demo.fresh_world
  = (Ok (PyText "(1,NULL,True)"), Demo.fresh_world).
Proof.
  assert (Hall : mapM literal_of [PyInt 1; PyNone; PyBool true]
                 = Some ["1"; "NULL"; "True"]) by (vm_compute; reflexivity).
  split; [exact Hall|].
  exact (proj1 (quote_sequence_of_literals Demo.py (Demo.native [])
                  [PyInt 1; PyNone; PyBool true] ["1"; "NULL"; "True"]
                  Demo.fresh_world Hall)).
Defined.

Lemma cast_money_drops_symbols_witness :
  no_money_chars "," = true /\
  money_chars "1234.56" = true /\
  _cast_money Demo.py DecimalStd "1,234.56" = Ok (PyDecimal "1234.56").
Proof.
  assert (Hnone : no_money_chars "," = true) by (vm_compute; reflexivity).
  assert (Hall : money_chars ("1" +:+ "234.56") = true) by (vm_compute; reflexivity).
  split; [exact Hnone|]. split; [exact Hall|].
  exact (proj2 (cast_money_drops_symbols Demo.py DecimalStd "1" "," "234.56" Hnone)
           Hall).
Defined.

Lemma cast_table_follows_type_objects_witness :
  Type_eq STRING (inl "timestamp") || Type_eq DATETIME (inl "timestamp") = true /\
  has_cast Demo.py DecimalStd "timestamp" = false /\
  typecast Demo.py DecimalStd "timestamp" (Some "2016-01-01 12:00:00")
    = Ok (PyText "2016-01-01 12:00:00").
Proof.
  assert (Hdate : Type_eq STRING (inl "timestamp") || Type_eq DATETIME (inl "timestamp")
                  = true) by (vm_compute; reflexivity).
  destruct (cast_table_follows_type_objects Demo.py DecimalStd "timestamp")
    as (_ & Hcast).
  split; [exact Hdate|]. split; [reflexivity|].
  exact (Hcast Hdate (Some "2016-01-01 12:00:00")).
Defined.

Lemma mandatory_types_disjoint_witness :
  Type_eq STRING (inl "text") = true /\
  Type_eq NUMBER (inl "text") = false /\
  Type_ne NUMBER (inl "text") = true.
Proof.
  assert (Htext : Type_eq STRING (inl "text") = true) by (vm_compute; reflexivity).
  split; [exact Htext|].
  refine (mandatory_types_disjoint 0 2 STRING NUMBER "text" _ eq_refl eq_refl Htext).
  discriminate.
Defined.

Lemma type_object_of_names_witness :
  Forall (fun w => type_name_like w = true) ["int2"; "int4"] /\
  Type_eq (Type_new (inl "int2 int4")) (inl "int4") = true /\
  Type_eq (Type_new (inl "int2 int4")) (inl "int8") = false /\
  Type_eq (Type_new (inl "int2 int4")) (inr (Type_new (inr ["int2"; "int4"]))) = true.
Proof.
  assert (Hnames : Forall (fun w => type_name_like w = true) ["int2"; "int4"]).
  { repeat constructor. }
  split; [exact Hnames|].
  destruct (type_object_of_names ["int2"; "int4"] "int4" Hnames) as (Heq & _ & Hset).
  destruct (type_object_of_names ["int2"; "int4"] "int8" Hnames) as (Hne & _).
  split; [exact Heq|]. split; [exact Hne|exact Hset].
Defined.

Lemma connect_reads_dsn_witness :
  Forall (fun p => free_of ":" p = true) DemoMore.dsn_parts /\
  connect_arguments Demo.py (Some "localhost:test:me:secret") None None None None
    = Ok DemoMore.dsn_arguments.
Proof.
  assert (Hfree : Forall (fun p => free_of ":" p = true) DemoMore.dsn_parts).
  { repeat constructor. }
  split; [exact Hfree|].
  exact (connect_reads_dsn Demo.py DemoMore.dsn_parts Hfree).
Defined.

Lemma connect_keywords_override_witness :
  connect_arguments Demo.py (Some "localhost:test:me:secret")
    (Some "admin") None (Some "example.org:5433") None
    = Ok DemoMore.keyword_arguments /\
  dbuser DemoMore.keyword_arguments = Some "admin" /\
  dbhost DemoMore.keyword_arguments = Some "example.org" /\
  dbport DemoMore.keyword_arguments = 5433.
Proof.
  assert (Hargs : connect_arguments Demo.py (Some "localhost:test:me:secret")
                    (Some "admin") None (Some "example.org:5433") None
                  = Ok DemoMore.keyword_arguments) by (vm_compute; reflexivity).
  destruct (connect_keywords_override Demo.py _ _ _ _ _ _ Hargs)
    as (Huser & _ & _ & _ & _ & Hhost).
  destruct (Hhost "example.org" "5433" eq_refl eq_refl eq_refl) as (Hh & Hp).
  split; [exact Hargs|]. split; [exact (Huser "admin" eq_refl)|].
  split; [exact Hh|exact Hp].
Defined.

Lemma connect_opens_idle_connection_witness :
  connect Demo.py DemoMore.open_server DecimalStd
    (Some "localhost:test:me:secret") None None None None
    = Ok (Demo.native [], Demo.fresh_world) /\
  DemoMore.open_server DemoMore.dsn_arguments = Ok (Demo.native []) /\
  commit (Demo.native []) Demo.fresh_world = (Ok tt, Demo.fresh_world) /\
  cursor_of Demo.fresh_cursor Demo.cursor_world.
Proof.
  assert (Hconnect : connect Demo.py DemoMore.open_server DecimalStd
                       (Some "localhost:test:me:secret") None None None None
                     = Ok (Demo.native [], Demo.fresh_world))
    by (vm_compute; reflexivity).
  destruct (connect_opens_idle_connection Demo.py DemoMore.open_server DecimalStd
              _ _ _ _ _ _ _ Hconnect)
    as (_ & _ & _ & _ & _ & Hcommit & _ & Hcursor).
  destruct (Hcursor Demo.fresh_cursor Demo.cursor_world eq_refl) as (Hof & _).
  split; [exact Hconnect|]. split; [reflexivity|]. split; [exact Hcommit|exact Hof].
Defined.

Lemma cursor_makes_one_source_call_witness :
  _cnx (dbcnx Demo.fresh_world) = Some the_pgcnx /\
  cursor (Demo.native []) Demo.fresh_world = (Ok Demo.fresh_cursor, Demo.cursor_world) /\
  trace Demo.cursor_world = trace Demo.fresh_world ++ [ev_source (Ok tt)] /\
  dbcnx Demo.cursor_world = dbcnx Demo.fresh_world.
Proof.
  destruct (cursor_makes_one_source_call (Demo.native []) Demo.fresh_world the_pgcnx
              eq_refl) as (Htrace & Hcnx & _).
  split; [reflexivity|]. split; [reflexivity|]. split; [exact Htrace|exact Hcnx].
Defined.

Lemma connection_exit_ends_transaction_witness :
  let w' := snd (Connection_exit (Demo.native []) None None None Demo.busy_world) in
  _cnx (dbcnx Demo.busy_world) = Some the_pgcnx /\
  _tnx (dbcnx Demo.busy_world) = true /\
  _tnx (dbcnx w') = false /\
  _cnx (dbcnx w') = Some the_pgcnx /\
  trace w' = trace Demo.busy_world ++
             [ev_source (Ok tt); ev_execute 3 "COMMIT" (Ok (Some (-1)))] /\
  _tnx (dbcnx (snd (Connection_exit Demo.unreachable None (Some the_exc_info) None
                      Demo.busy_world))) = false.
Proof.
  intros w'.
  destruct (connection_exit_ends_transaction (Demo.native []) None None None
              Demo.busy_world the_pgcnx eq_refl)
    as (Htnx & Hcnx & _ & Htrace & _).
  destruct (connection_exit_ends_transaction Demo.unreachable
              None (Some the_exc_info) None Demo.busy_world the_pgcnx eq_refl)
    as (Hfailed & _).
  split; [reflexivity|]. split; [reflexivity|]. split; [exact Htnx|].
  split; [exact Hcnx|]. split; [exact Htrace|exact Hfailed].
Defined.
